(** * pr-doc-watch-action: link extraction, completeness decision and report
      rendering of [check-links.ts], with the earlier revisions of the script
      that validate links.

    The development embeds three revisions of the script:
    - [check-links.ts] (top level of this file);
    - the first revision, which validates every link ([Module Legacy]);
    - the typed revision of the first one ([Module Typed]), which differs from
      it in [extractLinks], in [checkLinkValidity] and in one line of the
      report.
    The revision of [check-links.ts] with debug output differs from it in the
    two link patterns and in the report lines only; it is not embedded.
    [Section Driver] holds [getChangedFiles] and [main] of [check-links.ts],
    [Module LegacyScan] the scanning half of the first revision.

    Strings are byte strings ([string]); the white space recognised by
    [trim] and by the patterns is the ASCII white space.  Node's [path]
    module is modelled in its POSIX flavour on path segments.  Of Node's
    HTTP client the development models what [checkLinkValidity] can see: the
    exception of [client.get] for an address that the URL parser refuses or
    whose protocol is not the client's (the parser is a parameter), the
    idle timer of the option [timeout], and the first event of the request,
    interim responses being skipped. *)

From Stdlib Require Import String Ascii List Bool Arith Lia.
From Stdlib Require Import DecimalString.
Import ListNotations.

Local Open Scope list_scope.
Local Open Scope string_scope.

(* ================================================================== *)
(** ** JavaScript strings *)

Module Js.

Definition startsWith (s p : string) : bool := String.prefix p s.

Definition str_rev (s : string) : string :=
  string_of_list_ascii (rev (list_ascii_of_string s)).

Definition endsWith (s p : string) : bool :=
  startsWith (str_rev s) (str_rev p).

(** White space of [String.prototype.trim] and of the class of white space
    in patterns, ASCII part:
    TAB, LF, VT, FF, CR and SPACE. *)
Definition is_space (c : ascii) : bool :=
  let n := nat_of_ascii c in
  Nat.eqb n 9 || Nat.eqb n 10 || Nat.eqb n 11 || Nat.eqb n 12 || Nat.eqb n 13
  || Nat.eqb n 32.

(** Line terminators, which the dot of a pattern does not match and after
    which a line begins under the flag [m]; ASCII part. *)
Definition is_line_terminator (c : ascii) : bool :=
  let n := nat_of_ascii c in Nat.eqb n 10 || Nat.eqb n 13.

Fixpoint trimStart (s : string) : string :=
  match s with
  | EmptyString => EmptyString
  | String c r => if is_space c then trimStart r else s
  end.

Definition trimEnd (s : string) : string := str_rev (trimStart (str_rev s)).

Definition trim (s : string) : string := trimEnd (trimStart s).

(** [s.slice(n)] *)
Fixpoint drop (n : nat) (s : string) : string :=
  match n, s with
  | O, _ => s
  | S n', String _ r => drop n' r
  | S _, EmptyString => EmptyString
  end.

(** [s.slice(0, n)] *)
Fixpoint take (n : nat) (s : string) : string :=
  match n, s with
  | O, _ => EmptyString
  | S n', String c r => String c (take n' r)
  | S _, EmptyString => EmptyString
  end.

(** [s.indexOf(p)]: the least position at which [p] occurs. *)
Fixpoint indexOf (s p : string) : option nat :=
  if startsWith s p then Some 0
  else match s with
       | EmptyString => None
       | String _ r => option_map S (indexOf r p)
       end.

(** [GetSubstitution] for a string pattern (no capture groups): in the
    replacement text a dollar followed by a dollar stands for one dollar,
    followed by an ampersand for the matched text, followed by a backquote
    for the text before the match and followed by a quote for the text after
    it; every other dollar is literal. *)
Fixpoint getSubstitution (matched before after replacement : string) : string :=
  match replacement with
  | EmptyString => EmptyString
  | String c r =>
      if Ascii.eqb c "$" then
        match r with
        | String d r' =>
            if Ascii.eqb d "$" then String "$" (getSubstitution matched before after r')
            else if Ascii.eqb d "&" then matched ++ getSubstitution matched before after r'
            else if Ascii.eqb d "`" then before ++ getSubstitution matched before after r'
            else if Ascii.eqb d "'" then after ++ getSubstitution matched before after r'
            else String c (getSubstitution matched before after r)
        | EmptyString => String c EmptyString
        end
      else String c (getSubstitution matched before after r)
  end.

(** [s.replace(p, replacement)] with a string pattern [p]: the first
    occurrence only. *)
Definition replace (s p replacement : string) : string :=
  match indexOf s p with
  | None => s
  | Some i =>
      let before := take i s in
      let after := drop (i + String.length p) s in
      before ++ getSubstitution p before after replacement ++ after
  end.

(** Removal of [p] at the start of [s], if it is there. *)
Definition stripPrefix (p s : string) : string :=
  if startsWith s p then drop (String.length p) s else s.

(** Removal of [p] at the end of [s], if it is there. *)
Definition stripSuffix (p s : string) : string :=
  if endsWith s p then take (String.length s - String.length p) s else s.

(** [xs.includes(x)] on an array of strings *)
Definition includes (xs : list string) (x : string) : bool :=
  existsb (String.eqb x) xs.

(** [String(n)] for a non-negative integer *)
Definition ofNat (n : nat) : string := NilEmpty.string_of_uint (Nat.to_uint n).

End Js.

(* ================================================================== *)
(** ** Node's [path] module, POSIX flavour *)

Module Path.

Definition slash : ascii := "/"%char.

Fixpoint split (s : string) : list string :=
  match s with
  | EmptyString => [EmptyString]
  | String c r =>
      if Ascii.eqb c slash then EmptyString :: split r
      else match split r with
           | [] => [String c EmptyString]
           | h :: t => String c h :: t
           end
  end.

Definition join (segs : list string) : string := String.concat "/" segs.

Definition isAbsolute (p : string) : bool := Js.startsWith p "/".

(** One step of [normalizeString]: the segments kept so far are a stack,
    last segment first. *)
Definition push_segment (allowAboveRoot : bool) (stack : list string) (seg : string)
  : list string :=
  if (seg =? "") || (seg =? ".") then stack
  else if seg =? ".." then
    match stack with
    | top :: below =>
        if top =? ".." then (if allowAboveRoot then ".." :: stack else stack)
        else below
    | [] => if allowAboveRoot then [".."] else []
    end
  else seg :: stack.

Definition normalizeSegments (allowAboveRoot : bool) (segs : list string) : list string :=
  rev (fold_left (push_segment allowAboveRoot) segs []).

Definition normalizeString (p : string) (allowAboveRoot : bool) : string :=
  join (normalizeSegments allowAboveRoot (split p)).

(** The loop of [path.resolve]: arguments from the right, the working
    directory last, until an absolute one is met. *)
Fixpoint resolve_loop (right_to_left : list string) (resolvedPath : string)
  : string * bool :=
  match right_to_left with
  | [] => (resolvedPath, false)
  | p :: rest =>
      if p =? "" then resolve_loop rest resolvedPath
      else
        let resolvedPath' := p ++ "/" ++ resolvedPath in
        if isAbsolute p then (resolvedPath', true)
        else resolve_loop rest resolvedPath'
  end.

Section WithCwd.

Variable cwd : string.

Definition resolve (args : list string) : string :=
  let '(resolvedPath, resolvedAbsolute) := resolve_loop (rev args ++ [cwd]) "" in
  let n := normalizeString resolvedPath (negb resolvedAbsolute) in
  if resolvedAbsolute then "/" ++ n
  else if n =? "" then "." else n.

(** Segments of a resolved path. *)
Definition segments (p : string) : list string :=
  filter (fun s => negb (s =? "")) (split p).

Fixpoint common_prefix (xs ys : list string) : nat :=
  match xs, ys with
  | x :: xs', y :: ys' => if x =? y then S (common_prefix xs' ys') else 0
  | _, _ => 0
  end.

Definition relative (from to : string) : string :=
  if from =? to then ""
  else
    let from' := resolve [from] in
    let to' := resolve [to] in
    if from' =? to' then ""
    else
      let fs := segments from' in
      let ts := segments to' in
      let c := common_prefix fs ts in
      join (repeat ".." (List.length fs - c) ++ skipn c ts).

End WithCwd.

(** [path.dirname]: the position of the slash that ends the directory part,
    scanning from the last character down to index 1. *)
Fixpoint dirname_end (rev_tail : list ascii) (i : nat) (matchedSlash : bool)
  : option nat :=
  match rev_tail with
  | [] => None
  | c :: r =>
      if Ascii.eqb c slash then
        if matchedSlash then dirname_end r (i - 1) true else Some i
      else dirname_end r (i - 1) false
  end.

Definition dirname (p : string) : string :=
  match p with
  | EmptyString => "."
  | String c0 tail =>
      let hasRoot := Ascii.eqb c0 slash in
      match dirname_end (rev (list_ascii_of_string tail)) (String.length tail) true with
      | None => if hasRoot then "/" else "."
      | Some e => if hasRoot && Nat.eqb e 1 then "//" else Js.take e p
      end
  end.

End Path.

(* ================================================================== *)
(** ** Regular expressions of the script

    Each pattern is embedded as the function that decides whether it matches
    at the head of the remaining input and, if so, what it consumes. *)

Module Regex.

Fixpoint span (f : ascii -> bool) (s : string) : string * string :=
  match s with
  | EmptyString => (EmptyString, EmptyString)
  | String c r =>
      if f c then let '(a, b) := span f r in (String c a, b) else (EmptyString, s)
  end.

(** The characters that end a link token besides white space: angle
    brackets, both quotes, braces, bar, backslash, caret, backquote and square
    brackets. *)
Definition url_delimiters : list ascii :=
  [ "<"; ">"; ascii_of_nat 34; "'"; "{"; "}"; "|"; ascii_of_nat 92; "^"; "`"; "["; "]" ]%char.

Definition url_char (c : ascii) : bool :=
  negb (Js.is_space c || existsb (Ascii.eqb c) url_delimiters).

(** [prefix class+] at the head of [s]: the matched text. *)
Definition match_run (prefix_len : string -> option nat) (cls : ascii -> bool)
  (s : string) : option string :=
  match prefix_len s with
  | None => None
  | Some n =>
      let run := fst (span cls (Js.drop n s)) in
      if run =? "" then None else Some (Js.take n s ++ run)
  end.

(** The head of an absolute link: http or https, colon, two slashes. *)
Definition absolute_prefix (s : string) : option nat :=
  if Js.startsWith s "https://" then Some 8
  else if Js.startsWith s "http://" then Some 7
  else None.

(** The head of a relative link: one or two dots and a slash, or a slash. *)
Definition relative_prefix (s : string) : option nat :=
  if Js.startsWith s "../" then Some 3
  else if Js.startsWith s "./" then Some 2
  else if Js.startsWith s "/" then Some 1
  else None.

(** [s.match(re)] for a global pattern that never matches the empty string:
    the matches from left to right, the search resuming where the previous
    match ended ([skip] counts the characters of it still to pass). *)
Fixpoint matchAll (m : string -> option string) (skip : nat) (s : string)
  : list string :=
  match s with
  | EmptyString => []
  | String _ r =>
      match skip with
      | S k => matchAll m k r
      | O =>
          match m s with
          | Some tok => tok :: matchAll m (String.length tok - 1) r
          | None => matchAll m 0 r
          end
      end
  end.

(** [s.matchAll(re)] for a pattern anchored at the beginning of a line under
    the flags [gm]:
    a match may only start at the beginning of a line.  The matcher gives
    the length of the match and the text of the group [url]. *)
Fixpoint matchAllLines (m : string -> option (nat * string)) (skip : nat)
  (bol : bool) (s : string) : list string :=
  match s with
  | EmptyString => []
  | String c r =>
      let bol' := Js.is_line_terminator c in
      match skip with
      | S k => matchAllLines m k bol' r
      | O =>
          if bol then
            match m s with
            | Some (len, group) => group :: matchAllLines m (len - 1) bol' r
            | None => matchAllLines m 0 bol' r
            end
          else matchAllLines m 0 bol' r
      end
  end.

(** A line comment: the marker at the beginning of a line; the group [url]
    is the rest of the line. *)
Definition line_comment (marker : string) (s : string) : option (nat * string) :=
  if Js.startsWith s marker then
    let body := fst (span (fun c => negb (Js.is_line_terminator c))
                          (Js.drop (String.length marker) s)) in
    Some (String.length marker + String.length body, body)
  else None.

(** A block comment: the opening marker at the beginning of a line; the
    group [url] runs, across lines, up to the first closing marker. *)
Definition block_comment (open close : string) (s : string) : option (nat * string) :=
  if Js.startsWith s open then
    let inner := Js.drop (String.length open) s in
    match Js.indexOf inner close with
    | Some i => Some (String.length open + i + String.length close, Js.take i inner)
    | None => None
    end
  else None.

End Regex.

(* ================================================================== *)
(** ** check-links.ts *)

Inductive LinkType := Absolute | Relative.

Record Link := { url : string; type : LinkType }.

Record FileResult := { filename : string; links : list Link }.

Inductive Template := NoLinks | AllUpdated | Pending.

Record CommentPattern := { name : string; regex : string -> option (nat * string) }.

(** A call either returns a value or throws an [Error] with a message. *)
Inductive Completion (A : Type) :=
| Normal (value : A)
| Throw (message : string).
Arguments Normal {A} value.
Arguments Throw {A} message.

Definition LinkType_eqb (a b : LinkType) : bool :=
  match a, b with
  | Absolute, Absolute | Relative, Relative => true
  | _, _ => false
  end.

Definition COMMENT_PATTERNS : list CommentPattern :=
  [ {| name := "C-style single"; regex := Regex.line_comment "//" |};
    {| name := "C-style multi"; regex := Regex.block_comment "/*" "*/" |};
    {| name := "Hash"; regex := Regex.line_comment "#" |};
    {| name := "HTML"; regex := Regex.block_comment "<!--" "-->" |};
    {| name := "SQL"; regex := Regex.line_comment "--" |} ].

Definition ABSOLUTE_URL_PATTERN : string -> option string :=
  Regex.match_run Regex.absolute_prefix Regex.url_char.

Definition RELATIVE_PATH_PATTERN : string -> option string :=
  Regex.match_run Regex.relative_prefix Regex.url_char.

Definition extractComments (content : string) : list string :=
  flat_map
    (fun pattern => map Js.trim (Regex.matchAllLines (regex pattern) 0 true content))
    COMMENT_PATTERNS.

(** [links.add(x)] on a [Set], which keeps insertion order. *)
Definition set_add (links : list string) (x : string) : list string :=
  if Js.includes links x then links else (links ++ [x])%list.

Definition cleanComment (comment : string) : string :=
  Js.stripSuffix "-->"
    (Js.stripPrefix "<!--"
       (Js.stripPrefix "--"
          (Js.stripPrefix "#"
             (Js.stripSuffix "*/" (Js.stripPrefix "/*"
                (Js.stripPrefix "//" comment)))))).

Definition extractLinks_step (links : list string) (comment : string) : list string :=
  let clean := cleanComment comment in
  let absoluteMatches := Regex.matchAll ABSOLUTE_URL_PATTERN 0 clean in
  let links := fold_left (fun acc link => set_add acc (Js.trim link)) absoluteMatches links in
  let relativeMatches := Regex.matchAll RELATIVE_PATH_PATTERN 0 clean in
  fold_left (fun acc link => set_add acc (Js.trim link)) relativeMatches links.

Definition extractLinks (comments : list string) : list string :=
  fold_left extractLinks_step comments [].

Definition classify (link : string) : LinkType :=
  if Js.startsWith link "http" then Absolute else Relative.


Definition LinkType_name (t : LinkType) : string :=
  match t with
  | Absolute => "absolute"
  | Relative => "relative"
  end.

Definition nl : string := String (ascii_of_nat 10) EmptyString.

Section CheckLinks.

(** The process environment: working directory, the variable [ACTION_PATH]
    and the file system as [fs.readFileSync] sees it ([None] when the read
    throws). *)
Variable cwd : string.
Variable ACTION_PATH : string.
Variable readFileSync : string -> option string.

Definition templatePathsMap (t : Template) : string :=
  match t with
  | NoLinks => Path.resolve cwd [ACTION_PATH; "templates/no-links.md"]
  | AllUpdated => Path.resolve cwd [ACTION_PATH; "templates/all-updated.md"]
  | Pending => Path.resolve cwd [ACTION_PATH; "templates/pending.md"]
  end.

Definition getFileContent (filepath : string) : option string :=
  readFileSync filepath.

(** [!content] for a value that is a string or [null] *)
Definition falsy (content : option string) : bool :=
  match content with
  | None => true
  | Some c => c =? ""
  end.

Definition parseFile (file : string) : option FileResult :=
  let content := getFileContent file in
  match content with
  | None => None
  | Some text =>
      if text =? "" then None
      else
        let comments := extractComments text in
        let links := extractLinks comments in
        match links with
        | [] => None
        | _ :: _ =>
            let linkData := map (fun link => {| url := link; type := classify link |}) links in
            Some {| filename := file; links := linkData |}
        end
  end.

Fixpoint parseFilesForLinks (files : list string) : list FileResult :=
  match files with
  | [] => []
  | file :: rest =>
      match parseFile file with
      | Some r => r :: parseFilesForLinks rest
      | None => parseFilesForLinks rest
      end
  end.

(** The target of a link found in [file], as both [checkAllLinksUpdated] and
    [compileTemplateFromLinks] resolve it. *)
Definition resolveLink (file link : string) : string :=
  Path.resolve cwd [cwd; Path.dirname file; link].

(** The inner loop of [checkAllLinksUpdated]: [false] stands for the early
    [return false]. *)
Fixpoint checkLinksOf (changedFilePaths : list string) (file : string)
  (ls : list Link) : bool :=
  match ls with
  | [] => true
  | link :: rest =>
      if LinkType_eqb (type link) Absolute then false
      else
        let resolvedPath := resolveLink file (url link) in
        if negb (Js.includes changedFilePaths resolvedPath) then false
        else checkLinksOf changedFilePaths file rest
  end.

Fixpoint checkResults (changedFilePaths : list string) (results : list FileResult)
  : bool :=
  match results with
  | [] => true
  | result :: rest =>
      if checkLinksOf changedFilePaths (filename result) (links result)
      then checkResults changedFilePaths rest
      else false
  end.

Definition checkAllLinksUpdated (results : list FileResult) (changedFiles : list string)
  : bool :=
  let changedFilePaths := map (fun f => Path.resolve cwd [f]) changedFiles in
  checkResults changedFilePaths results.

Definition executeTemplate (templateName : Template) (linkCount : option nat)
  (linksOutput : option string) : Completion string :=
  let templatePath := templatePathsMap templateName in
  let template := getFileContent templatePath in
  match template with
  | None => Throw ("Template not found: " ++ templatePath)
  | Some text =>
      if text =? "" then Throw ("Template not found: " ++ templatePath)
      else
        Normal
          (Js.replace
             (Js.replace text "{{LINK_COUNT}}"
                (Js.ofNat (match linkCount with Some n => n | None => 0 end)))
             "{{LINKS}}"
             (match linksOutput with Some o => o | None => "" end))
  end.

(** The template chosen by [compileTemplateFromLinks]. *)
Definition templateNameOf (results : list FileResult) (changedFiles : list string)
  : Template :=
  let allLinksRelativeAndTouched :=
    negb (Nat.eqb (List.length results) 0) && checkAllLinksUpdated results changedFiles in
  if Nat.eqb (List.length results) 0 then NoLinks
  else if allLinksRelativeAndTouched then AllUpdated else Pending.

Definition linkMarkdown (owner repo sha fileLink file : string)
  (linksMarkdown : string) (link : Link) : string :=
  let linksMarkdown :=
    linksMarkdown ++ "- `" ++ url link ++ "` (" ++ LinkType_name (type link) ++ ")" ++ nl in
  let linksMarkdown :=
    if LinkType_eqb (type link) Relative then
      let resolvedPath := resolveLink file (url link) in
      let relativePath := Path.relative cwd cwd resolvedPath in
      let resolvedFileUrl :=
        "https://github.com/" ++ owner ++ "/" ++ repo ++ "/blob/" ++ sha ++ "/"
        ++ relativePath in
      linksMarkdown ++ "  → [`" ++ relativePath ++ "`](" ++ resolvedFileUrl ++ ")" ++ nl
    else linksMarkdown in
  linksMarkdown ++ "  Referenced in: " ++ fileLink ++ nl ++ nl.

Definition resultMarkdown (owner repo sha : string) (linksMarkdown : string)
  (result : FileResult) : string :=
  let fileUrl :=
    "https://github.com/" ++ owner ++ "/" ++ repo ++ "/blob/" ++ sha ++ "/"
    ++ filename result in
  let fileLink := "[`" ++ filename result ++ "`](" ++ fileUrl ++ ")" in
  fold_left (linkMarkdown owner repo sha fileLink (filename result)) (links result)
    linksMarkdown.

Definition totalLinks (results : list FileResult) : nat :=
  fold_left (fun sum r => sum + List.length (links r)) results 0.

Definition compileTemplateFromLinks (owner repo sha : string)
  (results : list FileResult) (changedFiles : list string) : Completion string :=
  let allLinksRelativeAndTouched :=
    negb (Nat.eqb (List.length results) 0) && checkAllLinksUpdated results changedFiles in
  if Nat.eqb (List.length results) 0 then executeTemplate NoLinks None None
  else
    let templateName := if allLinksRelativeAndTouched then AllUpdated else Pending in
    let linksMarkdown := fold_left (resultMarkdown owner repo sha) results "" in
    executeTemplate templateName (Some (totalLinks results)) (Some linksMarkdown).

(** [main] up to the posting of the comment: the files of the change are
    both the files scanned and the changed-file set. *)
Definition report (owner repo sha : string) (files : list string) : Completion string :=
  compileTemplateFromLinks owner repo sha (parseFilesForLinks files) files.

End CheckLinks.

(* ================================================================== *)
(** ** The first revision of the script, which validates the links *)

Module Legacy.

Record LinkStatus := {
  valid : bool;
  message : option string;
  statusCode : option nat;
  resolvedPath : option string
}.

Record Link := { url : string; type : LinkType; status : LinkStatus }.

Record FileResult := { filename : string; links : list Link }.

(** *** The HTTP client

    [client.get] parses the address and compares its protocol with the one
    of the client; it throws, before a request exists, when the address is
    not a URL or has another protocol.  A request emits events to the
    handlers registered on it.  The promise of [checkLinkValidity] is
    settled by the first call of [resolve], later calls leave it as it is;
    an exception thrown inside its executor rejects it. *)

Inductive Client := https | http.

Record RequestOptions := { timeout : nat }.

(** The errors that [client.get] throws. *)
Inductive ClientError := ERR_INVALID_URL | ERR_INVALID_PROTOCOL.

(** The result of a call that may throw. *)
Inductive Try (A : Type) :=
| Returned (value : A)
| Thrown (error : ClientError).
Arguments Returned {A} value.
Arguments Thrown {A} error.

(** The state of a promise. *)
Inductive Promise (A : Type) :=
| Pending
| Fulfilled (value : A)
| Rejected (error : ClientError).
Arguments Pending {A}.
Arguments Fulfilled {A} value.
Arguments Rejected {A} error.

Inductive RequestEvent :=
| Response (statusCode : option nat)
| ErrorEvent (error_message : string)
| TimeoutEvent.

(** What the remote end of an address does, step by step, each step after
    the given milliseconds without traffic on the socket: it sends bytes
    that complete no message, it sends the head of a response, it sends 101
    with the headers of an upgrade, or the connection fails (refused, name
    not resolved, reset, ...); in the end it stays silent for ever, or it
    goes on sending for ever, never idle for long and never completing a
    response. *)
Inductive Remote :=
| Sends (idle_ms : nat) (next : Remote)
| Answers (idle_ms : nat) (statusCode : option nat) (next : Remote)
| Upgrades (idle_ms : nat)
| Fails (idle_ms : nat) (error_message : string)
| Silent
| Streams.

(** The protocol that a client accepts. *)
Definition expectedProtocol (client : Client) : string :=
  match client with
  | https => "https:"
  | http => "http:"
  end.

(** An interim response is not passed to the callback of the request; the
    client waits for the response that follows it. *)
Definition statusIsInformational (status : nat) : bool :=
  Nat.ltb status 200 && Nat.leb 100 status && negb (Nat.eqb status 101).

(** The timer of the option [timeout] is the idle timer of the socket: it
    fires when there has been no traffic for that long; 0 disables it. *)
Definition timer_fires (timeout idle_ms : nat) : bool :=
  negb (Nat.eqb timeout 0) && Nat.leb timeout idle_ms.

(** The first event that reaches the handlers of a request, if there is
    one.  The request has no listener for an upgrade: the client closes the
    socket of an upgraded connection and emits neither a response nor an
    error. *)
Fixpoint first_event (timeout : nat) (remote : Remote) : option RequestEvent :=
  match remote with
  | Sends ms next =>
      if timer_fires timeout ms then Some TimeoutEvent else first_event timeout next
  | Answers ms sc next =>
      if timer_fires timeout ms then Some TimeoutEvent
      else if match sc with
              | Some code => statusIsInformational code
              | None => false
              end
           then first_event timeout next
           else Some (Response sc)
  | Upgrades ms => if timer_fires timeout ms then Some TimeoutEvent else None
  | Fails ms m =>
      if timer_fires timeout ms then Some TimeoutEvent else Some (ErrorEvent m)
  | Silent => if Nat.eqb timeout 0 then None else Some TimeoutEvent
  | Streams => None
  end.

(** [client.get(url, options, callback)]: the exception it throws, or the
    events of the request it returns.  [parseURL] is the URL parser of the
    platform: the protocol of the parsed address, [None] when [new URL]
    throws.  [later] are the events that follow the first one. *)
Definition client_get (parseURL : string -> option string) (client : Client)
  (url : string) (options : RequestOptions) (remote : Remote)
  (later : list RequestEvent) : Try (list RequestEvent) :=
  match parseURL url with
  | None => Thrown ERR_INVALID_URL
  | Some protocol =>
      if negb (protocol =? expectedProtocol client) then Thrown ERR_INVALID_PROTOCOL
      else
        match first_event (timeout options) remote with
        | Some first => Returned (first :: later)
        | None => Returned []
        end
  end.

Record Request := { promise : Promise LinkStatus; destroyed : bool }.

Definition new_request : Request := {| promise := Pending; destroyed := false |}.

Definition resolve (r : Request) (value : LinkStatus) : Request :=
  match promise r with
  | Pending => {| promise := Fulfilled value; destroyed := destroyed r |}
  | _ => r
  end.

Definition destroy (r : Request) : Request :=
  {| promise := promise r; destroyed := true |}.

Definition clientOf (url : string) : Client :=
  if Js.startsWith url "https" then https else http.

Definition onResponse (r : Request) (resStatusCode : option nat) : Request :=
  let inRange :=
    match resStatusCode with
    | Some code => Nat.leb 200 code && Nat.ltb code 400
    | None => false
    end in
  if inRange then
    resolve r {| valid := true; message := None; statusCode := resStatusCode;
                 resolvedPath := None |}
  else
    resolve r {| valid := false; message := None; statusCode := resStatusCode;
                 resolvedPath := None |}.

Definition onError (r : Request) (error_message : string) : Request :=
  resolve r {| valid := false; message := Some error_message; statusCode := None;
               resolvedPath := None |}.

Definition onTimeout (r : Request) : Request :=
  resolve (destroy r)
    {| valid := false; message := Some "Timeout"; statusCode := None;
       resolvedPath := None |}.

Definition handle (r : Request) (ev : RequestEvent) : Request :=
  match ev with
  | Response sc => onResponse r sc
  | ErrorEvent m => onError r m
  | TimeoutEvent => onTimeout r
  end.

(** The promise of [checkLinkValidity] for an absolute link and its request,
    after the events of the request. *)
Definition probe (parseURL : string -> option string) (url : string) (remote : Remote)
  (later : list RequestEvent) : Request :=
  let client := clientOf url in
  match client_get parseURL client url {| timeout := 5000 |} remote later with
  | Thrown error => {| promise := Rejected error; destroyed := false |}
  | Returned events => fold_left handle events new_request
  end.

Section Script.

Variable cwd : string.
Variable existsSync : string -> bool.
Variable parseURL : string -> option string.
Variable readFileSync : string -> option string.
Variable TEMPLATE_PATH : option string.

(** [checkLinkValidity]: the promise it returns. *)
Definition checkLinkValidity (url sourceFile : string) (remote : Remote)
  (later : list RequestEvent) : Promise LinkStatus :=
  if negb (Js.startsWith url "http") then
    let resolvedPath := Path.resolve cwd [Path.dirname sourceFile; url] in
    let exists_ := existsSync resolvedPath in
    Fulfilled
      {| valid := exists_;
         message := Some (if exists_ then "File exists" else "File not found in repository");
         statusCode := None;
         resolvedPath := Some (Path.relative cwd cwd resolvedPath) |}
  else promise (probe parseURL url remote later).

(** [checkLinks]: the links of one file, validated one after the other, each
    awaited before the next; [net] gives, for each address, what its remote
    end does. *)
Fixpoint checkLinks (net : string -> Remote * list RequestEvent) (links : list string)
  (filename : string) : Promise (list Link) :=
  match links with
  | [] => Fulfilled []
  | link :: rest =>
      match checkLinkValidity link filename (fst (net link)) (snd (net link)) with
      | Pending => Pending
      | Rejected error => Rejected error
      | Fulfilled st =>
          match checkLinks net rest filename with
          | Pending => Pending
          | Rejected error => Rejected error
          | Fulfilled results =>
              Fulfilled ({| url := link;
                            type := if Js.startsWith link "http" then Absolute else Relative;
                            status := st |} :: results)
          end
      end
  end.

(** [if (x)] for an optional string *)
Definition truthy (x : option string) : bool :=
  match x with
  | Some s => negb (s =? "")
  | None => false
  end.

Fixpoint checkLinksOf (changedFilePaths : list string) (ls : list Link) : bool :=
  match ls with
  | [] => true
  | link :: rest =>
      if LinkType_eqb (type link) Absolute then false
      else if truthy (resolvedPath (status link))
              && negb (Js.includes changedFilePaths
                         (Path.resolve cwd
                            [match resolvedPath (status link) with
                             | Some p => p
                             | None => ""
                             end]))
      then false
      else checkLinksOf changedFilePaths rest
  end.

Fixpoint checkResults (changedFilePaths : list string) (results : list FileResult)
  : bool :=
  match results with
  | [] => true
  | result :: rest =>
      if checkLinksOf changedFilePaths (links result)
      then checkResults changedFilePaths rest
      else false
  end.

Definition checkAllLinksUpdated (results : list FileResult) (changedFiles : list string)
  : bool :=
  let changedFilePaths := map (fun f => Path.resolve cwd [f]) changedFiles in
  checkResults changedFilePaths results.

Definition getDefaultTemplate (noLinks : bool) : string :=
  if noLinks then
    "# Code Links Report" ++ nl ++ nl
    ++ "**✔ No documentation actions required!**" ++ nl ++ nl
    ++ "This PR does not affect files with active links to any documentation. Fire away!"
  else
    "# Code Links Report" ++ nl ++ nl
    ++ "This PR potentially affects {{LINK_COUNT}} links." ++ nl ++ nl
    ++ "## ❌ Broken links" ++ nl ++ nl
    ++ "{{BROKEN_LINKS}}" ++ nl ++ nl
    ++ "## ❔ Links to review" ++ nl ++ nl
    ++ "{{VALID_LINKS}}".

(** The name of the template chosen by [postCommentFromTemplate]. *)
Definition templateNameOf (results : list FileResult) (changedFiles : list string)
  : string :=
  if Nat.eqb (List.length results) 0 then "no-links-template.md"
  else
    let allLinksRelativeAndTouched := checkAllLinksUpdated results changedFiles in
    if allLinksRelativeAndTouched then "all-updated-template.md"
    else "comment-template.md".

(** The template text read by [postCommentFromTemplate], with the fall-back
    of its [catch] clause. *)
Definition loadTemplate (results : list FileResult) (templateName : string) : string :=
  let templatePath :=
    if truthy TEMPLATE_PATH
    then match TEMPLATE_PATH with Some p => p | None => "" end
    else ".github/" ++ templateName in
  match readFileSync templatePath with
  | Some template => template
  | None => getDefaultTemplate (Nat.eqb (List.length results) 0)
  end.

Definition brokenLinkMarkdown (fileLink : string) (brokenLinksMarkdown : string)
  (link : Link) : string :=
  let md := brokenLinksMarkdown ++ "❌ `" ++ url link ++ "` ("
            ++ LinkType_name (type link) ++ ")" ++ nl in
  let md :=
    if LinkType_eqb (type link) Relative && truthy (resolvedPath (status link)) then
      md ++ "   Resolves to: `"
      ++ match resolvedPath (status link) with Some p => p | None => "" end
      ++ "`" ++ nl
    else md in
  let md :=
    match statusCode (status link) with
    | Some (S n) => md ++ "   Status: " ++ Js.ofNat (S n) ++ nl
    | _ =>
        if truthy (message (status link)) then
          md ++ "   " ++ match message (status link) with Some m => m | None => "" end ++ nl
        else md
    end in
  md ++ "   Referenced in: " ++ fileLink ++ nl ++ nl.

(** The line that names the target of a valid relative link. *)
Definition validTargetLine (resolved : string) : string :=
  "  → `" ++ resolved ++ "`" ++ nl.

Definition validLinkMarkdown (targetLine : string -> string) (fileLink : string)
  (validLinksMarkdown : string) (link : Link) : string :=
  let md := validLinksMarkdown ++ "- `" ++ url link ++ "` ("
            ++ LinkType_name (type link) ++ ")" ++ nl in
  let md :=
    if LinkType_eqb (type link) Relative && truthy (resolvedPath (status link)) then
      md ++ targetLine match resolvedPath (status link) with Some p => p | None => "" end
    else md in
  md ++ "  Referenced in: " ++ fileLink ++ nl ++ nl.

Definition fileLinkOf (owner repo sha : string) (result : FileResult) : string :=
  let fileUrl :=
    "https://github.com/" ++ owner ++ "/" ++ repo ++ "/blob/" ++ sha ++ "/"
    ++ filename result in
  "[`" ++ filename result ++ "`](" ++ fileUrl ++ ")".

(** One turn of the loop over the results: the two lists of the report. *)
Definition resultMarkdown (targetLine : string -> string) (owner repo sha : string)
  (acc : string * string) (result : FileResult) : string * string :=
  let fileLink := fileLinkOf owner repo sha result in
  let invalidLinks := filter (fun l => negb (valid (status l))) (links result) in
  let validLinks := filter (fun l => valid (status l)) (links result) in
  (fold_left (brokenLinkMarkdown fileLink) invalidLinks (fst acc),
   fold_left (validLinkMarkdown targetLine fileLink) validLinks (snd acc)).

Definition totalLinks (results : list FileResult) : nat :=
  fold_left (fun sum r => sum + List.length (links r)) results 0.

(** The part of [postCommentFromTemplate] that fills the links report. *)
Definition fillReport (targetLine : string -> string) (owner repo sha : string)
  (results : list FileResult) (template : string) : string :=
  let '(brokenLinksMarkdown, validLinksMarkdown) :=
    fold_left (resultMarkdown targetLine owner repo sha) results ("", "") in
  let brokenLinksMarkdown :=
    if brokenLinksMarkdown =? "" then "No broken links found. ✅" ++ nl ++ nl
    else brokenLinksMarkdown in
  let validLinksMarkdown :=
    if validLinksMarkdown =? "" then "No additional links to review." ++ nl ++ nl
    else validLinksMarkdown in
  let totalLinks := totalLinks results in
  Js.replace
    (Js.replace
       (Js.replace template "{{LINK_COUNT}}" (Js.ofNat totalLinks))
       "{{BROKEN_LINKS}}" brokenLinksMarkdown)
    "{{VALID_LINKS}}" validLinksMarkdown.

(** [postCommentFromTemplate]: the text written to the comment file. *)
Definition postCommentFromTemplate (owner repo sha : string)
  (results : list FileResult) (changedFiles : list string) : string :=
  let templateName := templateNameOf results changedFiles in
  let template := loadTemplate results templateName in
  if negb (Nat.eqb (List.length results) 0) && (templateName =? "comment-template.md")
  then fillReport validTargetLine owner repo sha results template
  else template.

End Script.

End Legacy.

(* ================================================================== *)
(** ** The typed revision of the first script

    It shares the data model, [checkAllLinksUpdated], [getDefaultTemplate]
    and the handlers of the error and timeout events with the first
    revision. *)

Module Typed.

Import Legacy.

(** The whole text of a line comment met anywhere in the input. *)
Definition line_comment (marker : string) (s : string) : option string :=
  if Js.startsWith s marker then
    let body := fst (Regex.span (fun c => negb (Js.is_line_terminator c))
                       (Js.drop (String.length marker) s)) in
    Some (marker ++ body)
  else None.

(** The whole text of a block comment met anywhere in the input. *)
Definition block_comment (open close : string) (s : string) : option string :=
  if Js.startsWith s open then
    let inner := Js.drop (String.length open) s in
    match Js.indexOf inner close with
    | Some i => Some (open ++ Js.take i inner ++ close)
    | None => None
    end
  else None.

Definition COMMENT_PATTERNS : list (string * (string -> option string)) :=
  [ ("C-style single", line_comment "//");
    ("C-style multi", block_comment "/*" "*/");
    ("Hash", line_comment "#");
    ("HTML", block_comment "<!--" "-->");
    ("SQL", line_comment "--") ].

(** Absolute link or relative path, in this order. *)
Definition URL_PATTERN (s : string) : option string :=
  match Regex.match_run Regex.absolute_prefix Regex.url_char s with
  | Some tok => Some tok
  | None => Regex.match_run Regex.relative_prefix Regex.url_char s
  end.

Definition extractComments (content : string) : list string :=
  flat_map (fun pattern => Regex.matchAll (snd pattern) 0 content) COMMENT_PATTERNS.

(** The tokens that [extractLinks] refuses. *)
Definition comment_markers : list string := [ "//"; "/*"; "*/"; "#"; "--"; "<!--" ].

Definition extractLinks_step (links : list string) (comment : string) : list string :=
  fold_left
    (fun acc link =>
       let cleaned := Js.trim link in
       if negb (Js.includes comment_markers cleaned) then set_add acc cleaned else acc)
    (Regex.matchAll URL_PATTERN 0 comment) links.

Definition extractLinks (comments : list string) : list string :=
  fold_left extractLinks_step comments [].

Definition onResponse (r : Request) (resStatusCode : option nat) : Request :=
  let inRange :=
    match resStatusCode with
    | Some (S n) => Nat.leb 200 (S n) && Nat.ltb (S n) 400
    | _ => false
    end in
  if inRange then
    resolve r {| valid := true; message := None; statusCode := resStatusCode;
                 resolvedPath := None |}
  else
    resolve r {| valid := false; message := None; statusCode := resStatusCode;
                 resolvedPath := None |}.

Definition handle (r : Request) (ev : RequestEvent) : Request :=
  match ev with
  | Response sc => onResponse r sc
  | ErrorEvent m => onError r m
  | TimeoutEvent => onTimeout r
  end.

Definition probe (parseURL : string -> option string) (url : string) (remote : Remote)
  (later : list RequestEvent) : Request :=
  let client := clientOf url in
  match client_get parseURL client url {| timeout := 5000 |} remote later with
  | Thrown error => {| promise := Rejected error; destroyed := false |}
  | Returned events => fold_left handle events new_request
  end.

Section Script.

Variable cwd : string.
Variable existsSync : string -> bool.
Variable parseURL : string -> option string.
Variable readFileSync : string -> option string.
Variable TEMPLATE_PATH : option string.

Definition checkLinkValidity (url sourceFile : string) (remote : Remote)
  (later : list RequestEvent) : Promise LinkStatus :=
  if negb (Js.startsWith url "http") then
    let resolvedPath := Path.resolve cwd [cwd; Path.dirname sourceFile; url] in
    let exists_ := existsSync resolvedPath in
    Fulfilled
      {| valid := exists_;
         message := Some (if exists_ then "File exists" else "File not found in repository");
         statusCode := None;
         resolvedPath := Some (Path.relative cwd cwd resolvedPath) |}
  else promise (probe parseURL url remote later).

(** The line that names the target of a valid relative link, with its
    permalink. *)
Definition validTargetLine (owner repo sha : string) (resolved : string) : string :=
  let resolvedFileUrl :=
    "https://github.com/" ++ owner ++ "/" ++ repo ++ "/blob/" ++ sha ++ "/" ++ resolved in
  "  → [`" ++ resolved ++ "`](" ++ resolvedFileUrl ++ ")" ++ nl.

Definition postCommentFromTemplate (owner repo sha : string)
  (results : list FileResult) (changedFiles : list string) : string :=
  let templateName := templateNameOf cwd results changedFiles in
  let template := loadTemplate readFileSync TEMPLATE_PATH results templateName in
  if negb (Nat.eqb (List.length results) 0) && (templateName =? "comment-template.md")
  then fillReport (validTargetLine owner repo sha) owner repo sha results template
  else template.

End Script.

End Typed.

(* ================================================================== *)
(** ** The drivers of the scripts: changed files and [main] *)

(** [s.split(sep)] for a separator of one character. *)
Fixpoint split_on (sep : ascii) (s : string) : list string :=
  match s with
  | EmptyString => [EmptyString]
  | String c r =>
      if Ascii.eqb c sep then EmptyString :: split_on sep r
      else match split_on sep r with
           | [] => [String c EmptyString]
           | h :: t => String c h :: t
           end
  end.

Definition newline : ascii := ascii_of_nat 10.

Section Driver.

Variable cwd : string.
Variable ACTION_PATH : string.
Variable readFileSync : string -> option string.
Variable existsSync : string -> bool.

(** [getChangedFiles] of check-links.ts; [gitDiff] is what [execSync] gives
    for the [git diff --name-only] command: its output, or the error it
    throws. *)
Definition getChangedFiles (gitDiff : Completion string) : list string :=
  match gitDiff with
  | Throw _ => []
  | Normal output =>
      filter
        (fun f =>
           if (f =? "") || negb (existsSync f) then false
           else if Js.startsWith f ".github/" then false
           else true)
        (split_on newline (Js.trim output))
  end.

(** The environment of a run: the variables of the workflow, the pull
    request number that [getPRNumberFromEvent] reads from the event file
    ([None] when it returns [null] or nothing) and the outcome of the
    [git diff] command. *)
Record Environment := {
  GITHUB_REPOSITORY : string;
  PR_NUMBER : option string;
  GITHUB_SHA : string;
  eventNumber : option nat;
  gitDiff : Completion string
}.

(** [process.env.PR_NUMBER || getPRNumberFromEvent()], as text; the empty
    text stands for a value that is not truthy. *)
Definition prNumberOf (env : Environment) : string :=
  match PR_NUMBER env with
  | Some (String c r) => String c r
  | _ =>
      match eventNumber env with
      | Some (S n) => Js.ofNat (S n)
      | _ => ""
      end
  end.

(** [main] of check-links.ts: the pull request number and the body of the
    comment handed to [postComment], or the error thrown. *)
Definition main (env : Environment) : Completion (string * string) :=
  let parts := split_on "/" (GITHUB_REPOSITORY env) in
  let owner := nth 0 parts "undefined" in
  let repo := nth 1 parts "undefined" in
  let prNumber := prNumberOf env in
  let sha := GITHUB_SHA env in
  if prNumber =? "" then Throw "PR number not found"
  else
    let files := getChangedFiles (gitDiff env) in
    let results := parseFilesForLinks readFileSync files in
    match compileTemplateFromLinks cwd ACTION_PATH readFileSync owner repo sha results files with
    | Normal compiledTemplate => Normal (prNumber, compiledTemplate)
    | Throw m => Throw m
    end.

End Driver.

(* ================================================================== *)
(** ** The scanning half of the first revision *)

Module LegacyScan.

(** The characters that end a link token besides white space; the quote is
    not among them in this revision. *)
Definition url_delimiters : list ascii :=
  [ "<"; ">"; ascii_of_nat 34; "{"; "}"; "|"; ascii_of_nat 92; "^"; "`"; "["; "]" ]%char.

Definition url_char (c : ascii) : bool :=
  negb (Js.is_space c || existsb (Ascii.eqb c) url_delimiters).

(** Absolute link or relative path, in this order. *)
Definition URL_PATTERN (s : string) : option string :=
  match Regex.match_run Regex.absolute_prefix url_char s with
  | Some tok => Some tok
  | None => Regex.match_run Regex.relative_prefix url_char s
  end.

Definition COMMENT_PATTERNS : list (string * (string -> option string)) :=
  [ ("C-style single", Typed.line_comment "//");
    ("C-style multi", Typed.block_comment "/*" "*/");
    ("Hash", Typed.line_comment "#");
    ("HTML", Typed.block_comment "<!--" "-->");
    ("SQL", Typed.line_comment "--") ].

Definition extractComments (content : string) : list string :=
  flat_map (fun pattern => Regex.matchAll (snd pattern) 0 content) COMMENT_PATTERNS.

Definition extractLinks_step (links : list string) (comment : string) : list string :=
  fold_left (fun acc link => set_add acc (Js.trim link))
    (Regex.matchAll URL_PATTERN 0 comment) links.

Definition extractLinks (comments : list string) : list string :=
  fold_left extractLinks_step comments [].

Section Script.

Variable cwd : string.
Variable existsSync : string -> bool.
Variable parseURL : string -> option string.
Variable readFileSync : string -> option string.

Definition getChangedFiles (gitDiff : Completion string) : list string :=
  match gitDiff with
  | Throw _ => []
  | Normal output =>
      filter (fun f => negb (f =? "") && existsSync f)
        (split_on newline (Js.trim output))
  end.

(** [parseFilesForLinks]: the promise it returns; the files are taken one
    after the other, the validation of each awaited before the next. *)
Fixpoint parseFilesForLinks (net : string -> Legacy.Remote * list Legacy.RequestEvent)
  (files : list string) : Legacy.Promise (list Legacy.FileResult) :=
  match files with
  | [] => Legacy.Fulfilled []
  | file :: rest =>
      let continue_ := parseFilesForLinks net rest in
      match readFileSync file with
      | None => continue_
      | Some content =>
          if content =? "" then continue_
          else
            let comments := extractComments content in
            let links := extractLinks comments in
            if Nat.ltb 0 (List.length links) then
              match Legacy.checkLinks cwd existsSync parseURL net links file with
              | Legacy.Pending => Legacy.Pending
              | Legacy.Rejected error => Legacy.Rejected error
              | Legacy.Fulfilled linkStatuses =>
                  match continue_ with
                  | Legacy.Pending => Legacy.Pending
                  | Legacy.Rejected error => Legacy.Rejected error
                  | Legacy.Fulfilled results =>
                      Legacy.Fulfilled
                        ({| Legacy.filename := file; Legacy.links := linkStatuses |}
                         :: results)
                  end
              end
            else continue_
      end
  end.

End Script.

End LegacyScan.

(* ================================================================== *)
(** ** Vocabulary of the properties *)

(** *** The completeness decision *)

(** The changed-file set as [checkAllLinksUpdated] compares against it. *)
Definition changedFilePathsOf (cwd : string) (changedFiles : list string) : list string :=
  map (fun f => Path.resolve cwd [f]) changedFiles.

(** A link of a file is touched when it is relative and its target is one of
    the changed files. *)
Definition touched (cwd : string) (changedFiles : list string) (r : FileResult) (l : Link)
  : Prop :=
  type l = Relative /\
  In (resolveLink cwd (filename r) (url l)) (changedFilePathsOf cwd changedFiles).



(** *** Validation outcomes *)

Definition timeout_status : Legacy.LinkStatus :=
  {| Legacy.valid := false; Legacy.message := Some "Timeout";
     Legacy.statusCode := None; Legacy.resolvedPath := None |}.




(** *** Templates *)

(** The path of the template that [postCommentFromTemplate] reads. *)
Definition legacyTemplatePath (TEMPLATE_PATH : option string) (templateName : string)
  : string :=
  if Legacy.truthy TEMPLATE_PATH
  then match TEMPLATE_PATH with Some p => p | None => "" end
  else ".github/" ++ templateName.

(** The texts put in place of the list of broken links and of the list of
    links to review when there is none. *)
Definition no_broken_sentinel : string := "No broken links found. ✅" ++ nl ++ nl.

Definition no_valid_sentinel : string := "No additional links to review." ++ nl ++ nl.

(** *** Links and their tokens *)

(** The links of a list of comments in the order in which [extractLinks]
    meets them, before duplicates are dropped. *)
Definition discovered (comments : list string) : list string :=
  flat_map
    (fun comment =>
       let clean := cleanComment comment in
       (map Js.trim (Regex.matchAll ABSOLUTE_URL_PATTERN 0 clean)
        ++ map Js.trim (Regex.matchAll RELATIVE_PATH_PATTERN 0 clean))%list)
    comments.

(** Every text of a list at its first occurrence only; [seen] holds the
    texts met so far. *)
Fixpoint first_occurrences (seen l : list string) : list string :=
  match l with
  | [] => []
  | x :: r =>
      if Js.includes seen x then first_occurrences seen r
      else x :: first_occurrences (x :: seen) r
  end.

Definition str_forall (f : ascii -> bool) (s : string) : bool :=
  forallb f (list_ascii_of_string s).

Definition not_space (c : ascii) : bool := negb (Js.is_space c).

(** The shape of a link: how it begins. *)
Definition absolute_shape (link : string) : Prop :=
  Js.startsWith link "http://" = true \/ Js.startsWith link "https://" = true.

Definition relative_shape (link : string) : Prop :=
  Js.startsWith link "./" = true \/ Js.startsWith link "../" = true \/
  Js.startsWith link "/" = true.

(** *** Paths *)

Definition no_slash (s : string) : Prop :=
  str_forall (fun c => negb (Ascii.eqb c Path.slash)) s = true.

(** A segment that normalisation keeps as it is. *)
Definition plain (s : string) : Prop :=
  s <> "" /\ s <> "." /\ s <> ".." /\ no_slash s.

(** The stack of segments that the working directory contributes. *)
Definition cwd_stack (cwd : string) : list string :=
  fold_left (Path.push_segment false) (Path.split cwd) [].

(** A step of a relative path: up, or a plain segment. *)
Definition step (s : string) : Prop := s = ".." \/ plain s.

(** *** Sample inputs *)

(** A file system in which [src/app.js] refers to a guide that is absent. *)
Definition guide_missing (p : string) : option string :=
  if p =? "src/app.js" then Some "// see ../docs/guide.md" else None.

(** The same links once found valid and once found broken. *)
Definition sample_result (found : bool) : Legacy.FileResult :=
  {| Legacy.filename := "src/app.js";
     Legacy.links :=
       [ {| Legacy.url := "./guide.md"; Legacy.type := Relative;
            Legacy.status :=
              {| Legacy.valid := found;
                 Legacy.message := Some (if found then "File exists"
                                         else "File not found in repository");
                 Legacy.statusCode := None;
                 Legacy.resolvedPath := Some "src/guide.md" |} |} ] |}.

(** An action whose template for a change without links uses both
    placeholders, the list twice. *)
Definition both_placeholders (p : string) : option string :=
  if p =? "/action/templates/no-links.md"
  then Some "{{LINK_COUNT}} links: {{LINKS}}; again: {{LINKS}}"
  else None.

(** A checkout whose templates for a change without links and for a change
    with all links updated use the placeholders of the links report. *)
Definition split_placeholders (p : string) : option string :=
  if (p =? ".github/no-links-template.md") || (p =? ".github/all-updated-template.md")
  then Some "{{LINK_COUNT}} links. {{BROKEN_LINKS}}{{VALID_LINKS}}"
  else None.

(** A source file whose only line is a statement that was commented out
    together with its trailing comment. *)
Definition quoted_marker (p : string) : option string :=
  if p =? "src/app.js" then Some "// const x = 1; // old value" else None.

(** A checkout with a guide and a source file that holds the given line. *)
Definition sample_checkout (comment : string) (p : string) : option string :=
  if p =? "src/app.js" then Some comment
  else if p =? "docs/guide.md" then Some "Guide"
  else None.

(** *** Comments, reports and runs *)

(** The markers that open a comment, in the order of the pattern table. *)
Definition comment_openers : list string := ["//"; "/*"; "#"; "<!--"; "--"].

(** Position [i] of [s] is the beginning of a line. *)
Definition line_start (s : string) (i : nat) : Prop :=
  i = 0 \/
  exists j c rest, i = S j /\ Js.drop j s = String c rest /\ Js.is_line_terminator c = true.

(** The rest of the line that begins at [s]. *)
Definition rest_of_line (s : string) : string :=
  fst (Regex.span (fun c => negb (Js.is_line_terminator c)) s).

Definition not_line_terminator (c : ascii) : bool := negb (Js.is_line_terminator c).

(** The run of link characters at the head of a text. *)
Definition link_run (s : string) : string := fst (Regex.span Regex.url_char s).

(** Whether a file contributes a result: it can be read, is not empty and
    its comments hold a link. *)
Definition has_links (readFileSync : string -> option string) (file : string) : bool :=
  match readFileSync file with
  | Some content =>
      negb (content =? "")
      && negb (Nat.eqb (List.length (extractLinks (extractComments content))) 0)
  | None => false
  end.

(** A text in which the character [x] does not occur. *)
Definition no_char (x : ascii) (s : string) : Prop :=
  str_forall (fun c => negb (Ascii.eqb c x)) s = true.

(** The lines that [compileTemplateFromLinks] writes for one link of [file]. *)
Definition linkBlock (cwd owner repo sha file : string) (link : Link) : string :=
  resultMarkdown cwd owner repo sha "" {| filename := file; links := [link] |}.

Definition linkBlocks (cwd owner repo sha : string) (results : list FileResult)
  : list string :=
  flat_map (fun r => map (linkBlock cwd owner repo sha (filename r)) (links r)) results.

(** A checkout with the template for pending links and nothing else. *)
Definition pending_template (p : string) : option string :=
  if p =? "/action/templates/pending.md"
  then Some "Found {{LINK_COUNT}} links:
{{LINKS}}Thanks."
  else None.

Definition listed_result : list FileResult :=
  [ {| filename := "src/app.js";
       links := [ {| url := "./guide.md"; type := Relative |};
                  {| url := "https://example.com/doc"; type := Absolute |} ] |} ].

Definition dollar_result : list FileResult :=
  [ {| filename := "src/app.js";
       links := [ {| url := "https://example.com/a$&b"; type := Absolute |} ] |} ].

(** A path as [git diff --name-only] prints it: plain segments joined by
    slashes. *)
Definition git_path (f : string) : Prop :=
  exists F, Forall plain F /\ f = Path.join F.

(** A checkout in which the workflow file and the two files of the change
    exist. *)
Definition workflow_checkout (f : string) : bool :=
  (f =? "src/app.js") || (f =? ".github/workflows/ci.yml") || (f =? "docs/guide.md").

Definition workflow_result : list FileResult :=
  [ {| filename := "src/app.js";
       links := [ {| url := "../.github/workflows/ci.yml"; type := Relative |} ] |} ].

Definition no_links_template (p : string) : option string :=
  if p =? "/action/templates/no-links.md" then Some "No links ({{LINK_COUNT}}).{{LINKS}}"
  else if p =? ".github/workflows/ci.yml" then Some "# see https://example.com/ci"
  else None.

Definition failed_run : Environment :=
  {| GITHUB_REPOSITORY := "o/r"; PR_NUMBER := Some "7"; GITHUB_SHA := "abc";
     eventNumber := None;
     gitDiff := Normal ".github/workflows/ci.yml
docs/old.md
" |}.

(** The run of link characters at the head of a text, for the character
    class of the first revision. *)
Definition legacy_run (s : string) : string := fst (Regex.span LegacyScan.url_char s).

(** A validated result without the outcomes of the validation: the result
    as check-links.ts builds it. *)
Definition forget_status (r : Legacy.FileResult) : FileResult :=
  {| filename := Legacy.filename r;
     links := map (fun l => {| url := Legacy.url l; type := Legacy.type l |})
                (Legacy.links r) |}.

Definition guide_net (u : string) : Legacy.Remote * list Legacy.RequestEvent :=
  (Legacy.Silent, []).

Definition guide_results : list Legacy.FileResult :=
  match Legacy.checkLinks "/repo" (fun _ => true) (fun _ => None) guide_net
          ["../docs/guide.md"] "src/app.js" with
  | Legacy.Fulfilled ls => [ {| Legacy.filename := "src/app.js"; Legacy.links := ls |} ]
  | _ => []
  end.

(** Whether a file contributes a result in the validating script. *)
Definition legacy_has_links (readFileSync : string -> option string) (file : string) : bool :=
  match readFileSync file with
  | Some content =>
      negb (content =? "")
      && Nat.ltb 0 (List.length (LegacyScan.extractLinks (LegacyScan.extractComments content)))
  | None => false
  end.

(** The broken and the valid links of the results, each with the link to
    its file. *)
Definition brokenBlocks (owner repo sha : string) (results : list Legacy.FileResult)
  : list string :=
  flat_map
    (fun r =>
       map (Legacy.brokenLinkMarkdown (Legacy.fileLinkOf owner repo sha r) "")
         (filter (fun l => negb (Legacy.valid (Legacy.status l))) (Legacy.links r)))
    results.

Definition validBlocks (targetLine : string -> string) (owner repo sha : string)
  (results : list Legacy.FileResult) : list string :=
  flat_map
    (fun r =>
       map (Legacy.validLinkMarkdown targetLine (Legacy.fileLinkOf owner repo sha r) "")
         (filter (fun l => Legacy.valid (Legacy.status l)) (Legacy.links r)))
    results.

(** *** Addresses and remote ends *)

(** The protocol that the text of an absolute link announces. *)
Definition announced_protocol (url : string) : string :=
  if Js.startsWith url "https://" then "https:" else "http:".

(** A decimal digit. *)
Definition is_digit (c : ascii) : bool :=
  Nat.leb 48 (nat_of_ascii c) && Nat.leb (nat_of_ascii c) 57.

(** The port of the address that follows the two slashes is a number, or
    there is none. *)
Definition numeric_port (rest : string) : bool :=
  let authority := fst (Regex.span (fun c => negb (Ascii.eqb c "/")) rest) in
  match Js.indexOf authority ":" with
  | Some i => str_forall is_digit (Js.drop (i + 1) authority)
  | None => true
  end.

(** A URL parser that accepts the addresses of the two protocols whose port
    is a number. *)
Definition sample_parseURL (url : string) : option string :=
  if Js.startsWith url "https://" then
    if numeric_port (Js.drop 8 url) then Some "https:" else None
  else if Js.startsWith url "http://" then
    if numeric_port (Js.drop 7 url) then Some "http:" else None
  else None.

(** A link that needs no request, or whose request is made and comes to an
    event. *)
Definition reachable (parseURL : string -> option string)
  (net : string -> Legacy.Remote * list Legacy.RequestEvent) (link : string) : Prop :=
  Js.startsWith link "http" = true ->
  absolute_shape link /\
  parseURL link = Some (announced_protocol link) /\
  Legacy.first_event 5000 (fst (net link)) <> None.







(* ================================================================== *)
(** * Properties *)

(** ** Arrays of strings *)

Lemma includes_In (xs : list string) (x : string) :
  Js.includes xs x = true <-> In x xs.
Proof.
  unfold Js.includes. rewrite existsb_exists. split.
  - intros [y [Hy Heq]]. apply String.eqb_eq in Heq. now subst.
  - intros H. exists x. split; [assumption | apply String.eqb_refl].
Qed.

Lemma includes_not_In (xs : list string) (x : string) :
  Js.includes xs x = false <-> ~ In x xs.
Proof.
  rewrite <- includes_In. destruct (Js.includes xs x); split; congruence.
Qed.

Lemma LinkType_eqb_eq (a b : LinkType) : LinkType_eqb a b = true <-> a = b.
Proof. destruct a, b; simpl; split; congruence. Qed.

(** ** The completeness decision of check-links.ts *)

Section Decision.

Variable cwd : string.

Lemma checkLinksOf_true (paths : list string) (file : string) (ls : list Link) :
  checkLinksOf cwd paths file ls = true <->
  forall l, In l ls -> type l = Relative /\ In (resolveLink cwd file (url l)) paths.
Proof.
  induction ls as [|l ls IH]; simpl.
  - split; [intros _ l [] | reflexivity].
  - destruct (LinkType_eqb (type l) Absolute) eqn:Ht.
    + apply LinkType_eqb_eq in Ht. split; [discriminate|].
      intros H. destruct (H l (or_introl eq_refl)) as [Hr _]. congruence.
    + assert (Hrel : type l = Relative).
      { destruct (type l); [discriminate | reflexivity]. }
      destruct (Js.includes paths (resolveLink cwd file (url l))) eqn:Hin; simpl.
      * apply includes_In in Hin. rewrite IH. split.
        -- intros H l' [<- | Hl']; [split; assumption | now apply H].
        -- intros H l' Hl'. apply H. now right.
      * apply includes_not_In in Hin. split; [discriminate|].
        intros H. destruct (H l (or_introl eq_refl)) as [_ Hc]. contradiction.
Qed.

Lemma checkResults_true (paths : list string) (results : list FileResult) :
  checkResults cwd paths results = true <->
  forall r l, In r results -> In l (links r) ->
    type l = Relative /\ In (resolveLink cwd (filename r) (url l)) paths.
Proof.
  induction results as [|r rs IH]; simpl.
  - split; [intros _ r l [] | reflexivity].
  - destruct (checkLinksOf cwd paths (filename r) (links r)) eqn:Hr.
    + rewrite checkLinksOf_true in Hr. rewrite IH. split.
      * intros H r' l [<- | Hr']; [apply Hr | now apply H].
      * intros H r' l Hr'. apply H. now right.
    + split; [discriminate|]. intros H.
      assert (Ht : checkLinksOf cwd paths (filename r) (links r) = true).
      { apply checkLinksOf_true. intros l Hl. apply (H r l); [now left | assumption]. }
      congruence.
Qed.

Lemma checkAllLinksUpdated_true (results : list FileResult) (changedFiles : list string) :
  checkAllLinksUpdated cwd results changedFiles = true <->
  forall r l, In r results -> In l (links r) -> touched cwd changedFiles r l.
Proof. unfold checkAllLinksUpdated, touched, changedFilePathsOf. apply checkResults_true. Qed.

Lemma checkAllLinksUpdated_false (results : list FileResult) (changedFiles : list string) :
  checkAllLinksUpdated cwd results changedFiles = false <->
  exists r l, In r results /\ In l (links r) /\
    (type l = Absolute \/
     (type l = Relative /\
      ~ In (resolveLink cwd (filename r) (url l)) (changedFilePathsOf cwd changedFiles))).
Proof.
  unfold checkAllLinksUpdated, changedFilePathsOf.
  set (paths := map _ changedFiles). clearbody paths. split.
  - induction results as [|r rs IH]; simpl; [discriminate|].
    destruct (checkLinksOf cwd paths (filename r) (links r)) eqn:Hr.
    + intros H. destruct (IH H) as (r' & l & Hr' & Hl & Hc).
      exists r', l. auto.
    + intros _. exists r. clear IH.
      induction (links r) as [|l ls IHl]; simpl in Hr; [discriminate|].
      destruct (LinkType_eqb (type l) Absolute) eqn:Ht.
      * apply LinkType_eqb_eq in Ht. exists l. simpl. auto.
      * assert (Hrel : type l = Relative).
        { destruct (type l); [discriminate | reflexivity]. }
        destruct (Js.includes paths (resolveLink cwd (filename r) (url l))) eqn:Hin;
          simpl in Hr.
        -- destruct (IHl Hr) as (l' & Hr' & Hl' & Hc). exists l'. simpl. auto.
        -- apply includes_not_In in Hin. exists l. simpl. auto.
  - intros (r & l & Hr & Hl & Hc).
    destruct (checkResults cwd paths results) eqn:E; [|reflexivity].
    rewrite checkResults_true in E. destruct (E r l Hr Hl) as [Ht Hin].
    destruct Hc as [Hc | [_ Hc]]; [congruence | contradiction].
Qed.

Variable ACTION_PATH : string.
Variable readFileSync : string -> option string.

Lemma compileTemplateFromLinks_template (owner repo sha : string)
  (results : list FileResult) (changedFiles : list string) :
  exists linkCount linksOutput,
    compileTemplateFromLinks cwd ACTION_PATH readFileSync owner repo sha results changedFiles
    = executeTemplate cwd ACTION_PATH readFileSync
        (templateNameOf cwd results changedFiles) linkCount linksOutput.
Proof.
  unfold compileTemplateFromLinks, templateNameOf.
  destruct (Nat.eqb (List.length results) 0); simpl.
  - now exists None, None.
  - destruct (checkAllLinksUpdated cwd results changedFiles); eauto.
Qed.

Lemma parseFile_links (file : string) (r : FileResult) :
  parseFile readFileSync file = Some r -> filename r = file /\ links r <> [].
Proof.
  unfold parseFile, getFileContent. destruct (readFileSync file) as [text|]; [|discriminate].
  destruct (text =? ""); [discriminate|].
  destruct (extractLinks (extractComments text)) as [|x xs]; [discriminate|].
  intros [= <-]. simpl. split; [reflexivity | discriminate].
Qed.

Lemma parseFilesForLinks_In (files : list string) (r : FileResult) :
  In r (parseFilesForLinks readFileSync files) <->
  exists file, In file files /\ parseFile readFileSync file = Some r.
Proof.
  induction files as [|f fs IH]; simpl.
  - split; [intros [] | intros [file [[] _]]].
  - destruct (parseFile readFileSync f) as [r'|] eqn:Hf; simpl; rewrite ?IH.
    + split.
      * intros [<- | [file [Hin Hp]]]; [exists f; auto | exists file; auto].
      * intros [file [[<- | Hin] Hp]]; [left; congruence | right; eauto].
    + split.
      * intros [file [Hin Hp]]. exists file; auto.
      * intros [file [[<- | Hin] Hp]]; [congruence | eauto].
Qed.

Lemma parseFilesForLinks_nil (files : list string) :
  parseFilesForLinks readFileSync files = [] <->
  forall file, In file files -> parseFile readFileSync file = None.
Proof.
  split.
  - intros H file Hin. destruct (parseFile readFileSync file) as [r|] eqn:Hp; [|reflexivity].
    assert (Hr : In r (parseFilesForLinks readFileSync files)).
    { apply parseFilesForLinks_In. eauto. }
    rewrite H in Hr. destruct Hr.
  - intros H. destruct (parseFilesForLinks readFileSync files) as [|r rs] eqn:E; [reflexivity|].
    assert (Hr : In r (parseFilesForLinks readFileSync files)) by (rewrite E; now left).
    apply parseFilesForLinks_In in Hr. destruct Hr as [file [Hin Hp]].
    rewrite (H file Hin) in Hp. discriminate.
Qed.

(** C1.  The completeness decision selects one template by this rule: when
    no scanned file produced a link (the list of results is empty, which for
    the results of [parseFilesForLinks] means that every file gave none) the
    template is [NoLinks]; otherwise it is [Pending] exactly when some link
    of the run is absolute or is relative with a target outside the
    changed-file set, and [AllUpdated] exactly when every link is relative
    with its target in the changed-file set.  [compileTemplateFromLinks]
    renders the template so chosen. *)
Theorem completeness_decision (owner repo sha : string)
  (results : list FileResult) (changedFiles files : list string) :
  (templateNameOf cwd results changedFiles = NoLinks <-> results = []) /\
  (templateNameOf cwd results changedFiles = Pending <->
     results <> [] /\
     exists r l, In r results /\ In l (links r) /\
       (type l = Absolute \/
        (type l = Relative /\
         ~ In (resolveLink cwd (filename r) (url l)) (changedFilePathsOf cwd changedFiles)))) /\
  (templateNameOf cwd results changedFiles = AllUpdated <->
     results <> [] /\
     forall r l, In r results -> In l (links r) ->
       type l = Relative /\
       In (resolveLink cwd (filename r) (url l)) (changedFilePathsOf cwd changedFiles)) /\
  (exists linkCount linksOutput,
     compileTemplateFromLinks cwd ACTION_PATH readFileSync owner repo sha results changedFiles
     = executeTemplate cwd ACTION_PATH readFileSync
         (templateNameOf cwd results changedFiles) linkCount linksOutput) /\
  (parseFilesForLinks readFileSync files = [] <->
     forall file, In file files -> parseFile readFileSync file = None) /\
  (forall r, In r (parseFilesForLinks readFileSync files) -> links r <> []).
Proof.
  pose proof (checkAllLinksUpdated_true results changedFiles) as Ht.
  pose proof (checkAllLinksUpdated_false results changedFiles) as Hf.
  unfold touched in Ht.
  assert (Hnil : templateNameOf cwd results changedFiles = NoLinks <-> results = []).
  { unfold templateNameOf. destruct results; simpl.
    - split; reflexivity.
    - destruct (checkAllLinksUpdated cwd _ changedFiles); split; discriminate. }
  assert (Hname : results <> [] ->
            templateNameOf cwd results changedFiles
            = if checkAllLinksUpdated cwd results changedFiles then AllUpdated else Pending).
  { unfold templateNameOf. destruct results; [congruence | reflexivity]. }
  split; [exact Hnil|].
  split.
  { split.
    - intros H. assert (Hne : results <> []).
      { intros E. apply Hnil in E. congruence. }
      split; [exact Hne|]. apply Hf. rewrite (Hname Hne) in H.
      destruct (checkAllLinksUpdated cwd results changedFiles); [discriminate | reflexivity].
    - intros [Hne Hex]. apply Hf in Hex. rewrite (Hname Hne). now rewrite Hex. }
  split.
  { split.
    - intros H. assert (Hne : results <> []).
      { intros E. apply Hnil in E. congruence. }
      split; [exact Hne|]. apply Ht. rewrite (Hname Hne) in H.
      destruct (checkAllLinksUpdated cwd results changedFiles); [reflexivity | discriminate].
    - intros [Hne Hall]. apply Ht in Hall. rewrite (Hname Hne). now rewrite Hall. }
  split; [apply compileTemplateFromLinks_template|].
  split; [apply parseFilesForLinks_nil|].
  intros r Hr. apply parseFilesForLinks_In in Hr. destruct Hr as [file [_ Hp]].
  now apply parseFile_links in Hp.
Qed.

End Decision.

(** ** The completeness decision and the validation outcomes *)

Section DecisionAndValidation.

Variable cwd : string.



Lemma legacy_checkLinksOf_true (paths : list string) (ls : list Legacy.Link) :
  Legacy.checkLinksOf cwd paths ls = true <->
  forall l, In l ls ->
    Legacy.type l = Relative /\
    forall p, Legacy.resolvedPath (Legacy.status l) = Some p -> p <> "" ->
      In (Path.resolve cwd [p]) paths.
Proof.
  induction ls as [|l ls IH]; simpl.
  - split; [intros _ l [] | reflexivity].
  - destruct (LinkType_eqb (Legacy.type l) Absolute) eqn:Ht.
    + apply LinkType_eqb_eq in Ht. split; [discriminate|].
      intros H. destruct (H l (or_introl eq_refl)) as [Hr _]. congruence.
    + assert (Hrel : Legacy.type l = Relative).
      { destruct (Legacy.type l); [discriminate | reflexivity]. }
      destruct (Legacy.resolvedPath (Legacy.status l)) as [p|] eqn:Hp; simpl.
      * destruct (p =? "") eqn:Hempty; simpl.
        -- apply String.eqb_eq in Hempty. rewrite IH. split.
           ++ intros H l' [<- | Hl']; [|now apply H].
              split; [assumption|]. rewrite Hp. intros q [= <-] Hq. congruence.
           ++ intros H l' Hl'. apply H. now right.
        -- apply String.eqb_neq in Hempty.
           destruct (Js.includes paths (Path.resolve cwd [p])) eqn:Hin; simpl.
           ++ apply includes_In in Hin. rewrite IH. split.
              ** intros H l' [<- | Hl']; [|now apply H].
                 split; [assumption|]. rewrite Hp. now intros q [= <-] _.
              ** intros H l' Hl'. apply H. now right.
           ++ apply includes_not_In in Hin. split; [discriminate|].
              intros H. destruct (H l (or_introl eq_refl)) as [_ Hc].
              exfalso. apply Hin. apply Hc; [assumption | assumption].
      * rewrite IH. split.
        -- intros H l' [<- | Hl']; [|now apply H].
           split; [assumption|]. rewrite Hp. discriminate.
        -- intros H l' Hl'. apply H. now right.
Qed.

Lemma legacy_checkAllLinksUpdated_true (results : list Legacy.FileResult)
  (changedFiles : list string) :
  Legacy.checkAllLinksUpdated cwd results changedFiles = true <->
  forall r l, In r results -> In l (Legacy.links r) ->
    Legacy.type l = Relative /\
    forall p, Legacy.resolvedPath (Legacy.status l) = Some p -> p <> "" ->
      In (Path.resolve cwd [p]) (changedFilePathsOf cwd changedFiles).
Proof.
  unfold Legacy.checkAllLinksUpdated, changedFilePathsOf.
  set (paths := map _ changedFiles). clearbody paths.
  induction results as [|r rs IH]; simpl.
  - split; [intros _ r l [] | reflexivity].
  - destruct (Legacy.checkLinksOf cwd paths (Legacy.links r)) eqn:Hr.
    + rewrite legacy_checkLinksOf_true in Hr. rewrite IH. split.
      * intros H r' l [<- | Hr']; [apply Hr | now apply H].
      * intros H r' l Hr'. apply H. now right.
    + split; [discriminate|]. intros H.
      assert (Ht : Legacy.checkLinksOf cwd paths (Legacy.links r) = true).
      { apply legacy_checkLinksOf_true. intros l Hl. apply (H r l); [now left | assumption]. }
      congruence.
Qed.

End DecisionAndValidation.

(** ** Strings: prefixes, first occurrence and replacement *)

Lemma str_app_assoc (a b c : string) : (a ++ b) ++ c = a ++ b ++ c.
Proof. induction a as [|x a IH]; simpl; [reflexivity | now rewrite IH]. Qed.

Lemma startsWith_app (p r : string) : Js.startsWith (p ++ r) p = true.
Proof.
  unfold Js.startsWith. induction p as [|x p IH]; simpl.
  - now destruct r.
  - destruct (ascii_dec x x); [assumption | congruence].
Qed.

Lemma startsWith_inv (s p : string) :
  Js.startsWith s p = true -> s = p ++ Js.drop (String.length p) s.
Proof.
  unfold Js.startsWith. revert s. induction p as [|x p IH]; intros s H; simpl.
  - reflexivity.
  - destruct s as [|y s]; simpl in H; [discriminate|].
    destruct (ascii_dec x y) as [->|]; [|discriminate].
    simpl. f_equal. now apply IH.
Qed.

Lemma take_drop (n : nat) (s : string) : Js.take n s ++ Js.drop n s = s.
Proof.
  revert s. induction n as [|n IH]; intros [|c s]; simpl; try reflexivity.
  now rewrite IH.
Qed.

Lemma take_app_length (a b : string) : Js.take (String.length a) (a ++ b) = a.
Proof. induction a as [|x a IH]; simpl; [now destruct b | now rewrite IH]. Qed.

Lemma drop_app_length (a b : string) : Js.drop (String.length a) (a ++ b) = b.
Proof. induction a as [|x a IH]; simpl; [reflexivity | assumption]. Qed.

Lemma drop_drop (n m : nat) (s : string) : Js.drop n (Js.drop m s) = Js.drop (m + n) s.
Proof.
  revert s. induction m as [|m IH]; intros s; simpl; [reflexivity|].
  destruct s as [|c s]; [now destruct n | apply IH].
Qed.

Lemma indexOf_Some (s p : string) (i : nat) :
  Js.indexOf s p = Some i ->
  Js.startsWith (Js.drop i s) p = true /\
  forall j, j < i -> Js.startsWith (Js.drop j s) p = false.
Proof.
  revert i. induction s as [|c s IH]; intros i; cbn [Js.indexOf].
  - destruct (Js.startsWith "" p) eqn:E; [|discriminate].
    intros [= <-]. split; [assumption | intros j Hj; lia].
  - destruct (Js.startsWith (String c s) p) eqn:E.
    + intros [= <-]. split; [assumption | intros j Hj; lia].
    + destruct (Js.indexOf s p) as [k|]; cbn [option_map]; [|discriminate].
      intros [= <-]. destruct (IH k eq_refl) as [Hk Hlt]. split; [assumption|].
      intros [|j] Hj; cbn [Js.drop]; [assumption | apply Hlt; lia].
Qed.

Lemma indexOf_None (s p : string) :
  Js.indexOf s p = None -> forall j, Js.startsWith (Js.drop j s) p = false.
Proof.
  induction s as [|c s IH]; cbn [Js.indexOf].
  - destruct (Js.startsWith "" p) eqn:E; [discriminate|].
    intros _ [|j]; assumption.
  - destruct (Js.startsWith (String c s) p) eqn:E; [discriminate|].
    destruct (Js.indexOf s p) as [k|]; cbn [option_map]; [discriminate|].
    intros _ [|j]; cbn [Js.drop]; [assumption | now apply IH].
Qed.

Lemma indexOf_first (s p : string) (n : nat) :
  Js.startsWith (Js.drop n s) p = true ->
  (forall j, j < n -> Js.startsWith (Js.drop j s) p = false) ->
  Js.indexOf s p = Some n.
Proof.
  intros Hn Hlt. destruct (Js.indexOf s p) as [i|] eqn:E.
  - destruct (indexOf_Some s p i E) as [Hi Hilt].
    destruct (Nat.lt_trichotomy i n) as [H | [H | H]].
    + rewrite (Hlt i H) in Hi. discriminate.
    + now subst.
    + rewrite (Hilt n H) in Hn. discriminate.
  - rewrite (indexOf_None s p E n) in Hn. discriminate.
Qed.

(** The first occurrence of the pattern, and only it, is replaced. *)
Lemma replace_first (before p after replacement : string) :
  (forall j, j < String.length before ->
     Js.startsWith (Js.drop j (before ++ p ++ after)) p = false) ->
  Js.replace (before ++ p ++ after) p replacement
  = before ++ Js.getSubstitution p before after replacement ++ after.
Proof.
  intros Hfirst. unfold Js.replace.
  rewrite (indexOf_first _ p (String.length before)).
  - rewrite take_app_length. rewrite <- drop_drop, drop_app_length, drop_app_length.
    reflexivity.
  - rewrite drop_app_length. apply startsWith_app.
  - exact Hfirst.
Qed.

Lemma replace_absent (s p replacement : string) :
  (forall j, Js.startsWith (Js.drop j s) p = false) -> Js.replace s p replacement = s.
Proof.
  intros H. unfold Js.replace. destruct (Js.indexOf s p) as [i|] eqn:E; [|reflexivity].
  destruct (indexOf_Some s p i E) as [Hi _]. rewrite H in Hi. discriminate.
Qed.

(** ** Missing templates *)

Section Templates.

Variable cwd : string.
Variable ACTION_PATH : string.
Variable readFileSync : string -> option string.
Variable TEMPLATE_PATH : option string.

Lemma executeTemplate_missing (t : Template) (linkCount : option nat)
  (linksOutput : option string) :
  falsy (readFileSync (templatePathsMap cwd ACTION_PATH t)) = true ->
  executeTemplate cwd ACTION_PATH readFileSync t linkCount linksOutput
  = Throw ("Template not found: " ++ templatePathsMap cwd ACTION_PATH t).
Proof.
  unfold executeTemplate, getFileContent, falsy.
  destruct (readFileSync _) as [text|]; [|reflexivity].
  intros ->. reflexivity.
Qed.

(** C2, amended.  When the template of the chosen variant is absent (or
    empty) check-links.ts has no fall-back: [executeTemplate] throws
    [Template not found] with the path, for every variant, and
    [compileTemplateFromLinks] renders nothing.  The validating revisions,
    the first and the typed one, do fall back: when the template cannot be
    read, [postCommentFromTemplate] takes the built-in default text and
    goes on to post it, as it is or with the links report filled in. *)
Theorem missing_template (owner repo sha : string) (t : Template)
  (results : list FileResult) (legacyResults : list Legacy.FileResult)
  (changedFiles : list string)
  (Hmissing : falsy (readFileSync (templatePathsMap cwd ACTION_PATH t)) = true)
  (Hchosen : falsy (readFileSync
                      (templatePathsMap cwd ACTION_PATH
                         (templateNameOf cwd results changedFiles))) = true)
  (Hlegacy : readFileSync
               (legacyTemplatePath TEMPLATE_PATH
                  (Legacy.templateNameOf cwd legacyResults changedFiles))
             = None) :
  let fallback := Legacy.getDefaultTemplate (Nat.eqb (List.length legacyResults) 0) in
  let first :=
    Legacy.postCommentFromTemplate cwd readFileSync TEMPLATE_PATH owner repo sha
      legacyResults changedFiles in
  let typed :=
    Typed.postCommentFromTemplate cwd readFileSync TEMPLATE_PATH owner repo sha
      legacyResults changedFiles in
  (forall linkCount linksOutput,
     executeTemplate cwd ACTION_PATH readFileSync t linkCount linksOutput
     = Throw ("Template not found: " ++ templatePathsMap cwd ACTION_PATH t)) /\
  compileTemplateFromLinks cwd ACTION_PATH readFileSync owner repo sha results changedFiles
  = Throw ("Template not found: "
           ++ templatePathsMap cwd ACTION_PATH (templateNameOf cwd results changedFiles)) /\
  Legacy.loadTemplate readFileSync TEMPLATE_PATH legacyResults
    (Legacy.templateNameOf cwd legacyResults changedFiles)
  = fallback /\
  (first = fallback \/
   first = Legacy.fillReport Legacy.validTargetLine owner repo sha legacyResults fallback) /\
  (typed = fallback \/
   typed = Legacy.fillReport (Typed.validTargetLine owner repo sha) owner repo sha
             legacyResults fallback).
Proof.
  intros fallback first typed.
  assert (Hload : Legacy.loadTemplate readFileSync TEMPLATE_PATH legacyResults
                    (Legacy.templateNameOf cwd legacyResults changedFiles)
                  = fallback).
  { unfold Legacy.loadTemplate. cbv zeta.
    fold (legacyTemplatePath TEMPLATE_PATH
             (Legacy.templateNameOf cwd legacyResults changedFiles)).
    now rewrite Hlegacy. }
  split; [|split; [|split; [exact Hload|split]]].
  - intros linkCount linksOutput. apply executeTemplate_missing, Hmissing.
  - destruct (compileTemplateFromLinks_template cwd ACTION_PATH readFileSync
                owner repo sha results changedFiles) as (n & o & ->).
    apply executeTemplate_missing, Hchosen.
  - unfold first, Legacy.postCommentFromTemplate. cbv zeta. rewrite Hload.
    destruct (negb _ && _); [now right | now left].
  - unfold typed, Typed.postCommentFromTemplate. cbv zeta. rewrite Hload.
    destruct (negb _ && _); [now right | now left].
Qed.

End Templates.

(** A checkout with the sources but without the templates of the action. *)
Lemma missing_template_counterexample :
  (forall t, guide_missing (templatePathsMap "/repo" "/action" t) = None) /\
  report "/repo" "/action" guide_missing "owner" "repo" "sha" ["src/app.js"]
  = Throw "Template not found: /action/templates/pending.md" /\
  report "/repo" "/action" guide_missing "owner" "repo" "sha" []
  = Throw "Template not found: /action/templates/no-links.md".
Proof. split; [intros []; reflexivity | split; reflexivity]. Qed.

(** The same checkout, for the change of [src/app.js] and for no results. *)
Lemma missing_template_witness :
  falsy (guide_missing (templatePathsMap "/repo" "/action" AllUpdated)) = true /\
  compileTemplateFromLinks "/repo" "/action" guide_missing "owner" "repo" "sha"
    (parseFilesForLinks guide_missing ["src/app.js"]) ["src/app.js"]
  = Throw "Template not found: /action/templates/pending.md" /\
  Legacy.loadTemplate guide_missing None []
    (Legacy.templateNameOf "/repo" [] ["src/app.js"])
  = Legacy.getDefaultTemplate true.
Proof.
  assert (H1 : falsy (guide_missing (templatePathsMap "/repo" "/action" AllUpdated)) = true)
    by reflexivity.
  assert (H2 : falsy (guide_missing
                        (templatePathsMap "/repo" "/action"
                           (templateNameOf "/repo"
                              (parseFilesForLinks guide_missing ["src/app.js"])
                              ["src/app.js"]))) = true) by reflexivity.
  assert (H3 : guide_missing
                 (legacyTemplatePath None (Legacy.templateNameOf "/repo" [] ["src/app.js"]))
               = None) by reflexivity.
  pose proof (missing_template "/repo" "/action" guide_missing None "owner" "repo" "sha"
                AllUpdated (parseFilesForLinks guide_missing ["src/app.js"]) []
                ["src/app.js"] H1 H2 H3) as Hthm.
  cbv zeta in Hthm.
  split; [exact H1|]. split.
  - exact (proj1 (proj2 Hthm)).
  - exact (proj1 (proj2 (proj2 Hthm))).
Defined.

(** ** Placeholders *)

Section Placeholders.

Variable cwd : string.
Variable ACTION_PATH : string.
Variable readFileSync : string -> option string.

Lemma filter_none {A} (f : A -> bool) (l : list A) :
  (forall x, In x l -> f x = false) -> filter f l = [].
Proof.
  induction l as [|x l IH]; simpl; intros H; [reflexivity|].
  rewrite (H x (or_introl eq_refl)). apply IH. intros y Hy. apply H. now right.
Qed.

Lemma no_broken_links (targetLine : string -> string) (owner repo sha : string)
  (results : list Legacy.FileResult) (acc : string * string) :
  (forall r l, In r results -> In l (Legacy.links r) -> Legacy.valid (Legacy.status l) = true) ->
  fst (fold_left (Legacy.resultMarkdown targetLine owner repo sha) results acc) = fst acc.
Proof.
  revert acc. induction results as [|r rs IH]; intros acc H; simpl; [reflexivity|].
  rewrite IH by (intros r' l Hr'; apply H; now right).
  unfold Legacy.resultMarkdown. cbn [fst].
  rewrite filter_none; [reflexivity|].
  intros l Hl. rewrite (H r l (or_introl eq_refl) Hl). reflexivity.
Qed.

Lemma no_valid_links (targetLine : string -> string) (owner repo sha : string)
  (results : list Legacy.FileResult) (acc : string * string) :
  (forall r l, In r results -> In l (Legacy.links r) -> Legacy.valid (Legacy.status l) = false) ->
  snd (fold_left (Legacy.resultMarkdown targetLine owner repo sha) results acc) = snd acc.
Proof.
  revert acc. induction results as [|r rs IH]; intros acc H; simpl; [reflexivity|].
  rewrite IH by (intros r' l Hr'; apply H; now right).
  unfold Legacy.resultMarkdown. cbn [snd].
  rewrite filter_none; [reflexivity|].
  intros l Hl. apply (H r l (or_introl eq_refl) Hl).
Qed.

(** C9, amended.  A placeholder whose list is empty is not always replaced
    by a sentence that says so.  check-links.ts fills its placeholders in
    every report, and in the report without links it puts 0 for the link
    count and the empty text for the list of links, not a sentinel: a
    template whose first use of the list placeholder is at [before] renders
    as [before] followed by [after].  The validating revisions fill
    placeholders in their links report only, when there are results and not
    all links are updated; there an empty list of broken links, and an empty
    list of links to review, is replaced by a sentence that says so.  In
    their other reports the template is posted as it was read, with its
    placeholders.  Every replacement acts on the first occurrence of its
    placeholder only, the text after it being kept as it is, and a text
    without the placeholder is left unchanged. *)
Theorem placeholder_substitution (text : string)
  (owner repo sha : string) (changedFiles : list string)
  (Hfound : readFileSync (templatePathsMap cwd ACTION_PATH NoLinks) = Some text)
  (Hnonempty : text <> "") :
  compileTemplateFromLinks cwd ACTION_PATH readFileSync owner repo sha [] changedFiles
  = Normal (Js.replace (Js.replace text "{{LINK_COUNT}}" "0") "{{LINKS}}" "") /\
  (forall t template linkCount linksOutput,
     readFileSync (templatePathsMap cwd ACTION_PATH t) = Some template -> template <> "" ->
     executeTemplate cwd ACTION_PATH readFileSync t linkCount linksOutput
     = Normal
         (Js.replace
            (Js.replace template "{{LINK_COUNT}}"
               (Js.ofNat (match linkCount with Some n => n | None => 0 end)))
            "{{LINKS}}" (match linksOutput with Some o => o | None => "" end))) /\
  (forall before p after replacement,
     (forall j, j < String.length before ->
        Js.startsWith (Js.drop j (before ++ p ++ after)) p = false) ->
     Js.replace (before ++ p ++ after) p replacement
     = before ++ Js.getSubstitution p before after replacement ++ after) /\
  (forall s p replacement,
     (forall j, Js.startsWith (Js.drop j s) p = false) -> Js.replace s p replacement = s) /\
  (forall before after,
     (forall j, j < String.length before ->
        Js.startsWith (Js.drop j (before ++ "{{LINKS}}" ++ after)) "{{LINKS}}" = false) ->
     Js.replace (before ++ "{{LINKS}}" ++ after) "{{LINKS}}" "" = before ++ after) /\
  (forall files TEMPLATE_PATH results,
     let name := Legacy.templateNameOf cwd results changedFiles in
     let template := Legacy.loadTemplate files TEMPLATE_PATH results name in
     (name <> "comment-template.md" ->
        Legacy.postCommentFromTemplate cwd files TEMPLATE_PATH owner repo sha
          results changedFiles = template /\
        Typed.postCommentFromTemplate cwd files TEMPLATE_PATH owner repo sha
          results changedFiles = template) /\
     (name = "comment-template.md" ->
        Legacy.postCommentFromTemplate cwd files TEMPLATE_PATH owner repo sha
          results changedFiles
        = Legacy.fillReport Legacy.validTargetLine owner repo sha results template /\
        Typed.postCommentFromTemplate cwd files TEMPLATE_PATH owner repo sha
          results changedFiles
        = Legacy.fillReport (Typed.validTargetLine owner repo sha) owner repo sha
            results template) /\
     (name <> "comment-template.md" <->
        results = [] \/ Legacy.checkAllLinksUpdated cwd results changedFiles = true)) /\
  (forall targetLine results template,
     (forall r l, In r results -> In l (Legacy.links r) ->
        Legacy.valid (Legacy.status l) = true) ->
     exists validLinksMarkdown,
       Legacy.fillReport targetLine owner repo sha results template
       = Js.replace
           (Js.replace
              (Js.replace template "{{LINK_COUNT}}" (Js.ofNat (Legacy.totalLinks results)))
              "{{BROKEN_LINKS}}" no_broken_sentinel)
           "{{VALID_LINKS}}" validLinksMarkdown) /\
  (forall targetLine results template,
     (forall r l, In r results -> In l (Legacy.links r) ->
        Legacy.valid (Legacy.status l) = false) ->
     exists brokenLinksMarkdown,
       Legacy.fillReport targetLine owner repo sha results template
       = Js.replace
           (Js.replace
              (Js.replace template "{{LINK_COUNT}}" (Js.ofNat (Legacy.totalLinks results)))
              "{{BROKEN_LINKS}}" brokenLinksMarkdown)
           "{{VALID_LINKS}}" no_valid_sentinel).
Proof.
  split; [|split; [|split; [|split; [|split; [|split; [|split]]]]]].
  - unfold compileTemplateFromLinks. cbn [List.length Nat.eqb].
    unfold executeTemplate, getFileContent. rewrite Hfound.
    apply String.eqb_neq in Hnonempty. rewrite Hnonempty. reflexivity.
  - intros t template linkCount linksOutput Hread Hne.
    unfold executeTemplate, getFileContent. cbv zeta. rewrite Hread.
    apply String.eqb_neq in Hne. now rewrite Hne.
  - intros before p after replacement. apply replace_first.
  - apply replace_absent.
  - intros before after H. rewrite (replace_first before "{{LINKS}}" after "" H).
    reflexivity.
  - intros files TEMPLATE_PATH results name template.
    assert (Hname : name <> "comment-template.md" <->
              results = [] \/ Legacy.checkAllLinksUpdated cwd results changedFiles = true).
    { unfold name, Legacy.templateNameOf. cbv zeta. destruct results as [|r rs].
      - cbn [List.length Nat.eqb]. split; [now left | discriminate].
      - cbn [List.length Nat.eqb].
        destruct (Legacy.checkAllLinksUpdated cwd (r :: rs) changedFiles).
        + split; [now right | discriminate].
        + split; [congruence | intros [H | H]; discriminate]. }
    split; [|split; [|exact Hname]].
    + intros Hn. apply String.eqb_neq in Hn.
      unfold Legacy.postCommentFromTemplate, Typed.postCommentFromTemplate. cbv zeta.
      fold name. fold template. rewrite Hn, andb_false_r. now split.
    + intros Hn.
      assert (Hne : negb (Nat.eqb (List.length results) 0) = true).
      { destruct results as [|r rs]; [|reflexivity].
        exfalso. apply (proj2 Hname); [now left | exact Hn]. }
      unfold Legacy.postCommentFromTemplate, Typed.postCommentFromTemplate. cbv zeta.
      fold name. fold template. rewrite Hn, Hne. now split.
  - intros targetLine results template Hvalid. unfold Legacy.fillReport.
    pose proof (no_broken_links targetLine owner repo sha results ("", "") Hvalid) as Hb.
    destruct (fold_left _ results ("", "")) as [b v]. cbn [fst] in Hb. subst b.
    cbn [String.eqb]. eexists. reflexivity.
  - intros targetLine results template Hinvalid. unfold Legacy.fillReport.
    pose proof (no_valid_links targetLine owner repo sha results ("", "") Hinvalid) as Hv.
    destruct (fold_left _ results ("", "")) as [b v]. cbn [snd] in Hv. subst v.
    cbn [String.eqb]. eexists. reflexivity.
Qed.

End Placeholders.

(** A change without files.  In check-links.ts the count becomes 0, the first
    list placeholder becomes the empty text and the second one stays.  In
    the validating revisions the template for a change without links is
    posted with its placeholders, and so is the template for a change whose
    one link, which is valid, has its target among the changed files. *)
Lemma placeholder_substitution_counterexample :
  report "/repo" "/action" both_placeholders "owner" "repo" "sha" []
  = Normal "0 links: ; again: {{LINKS}}" /\
  Legacy.postCommentFromTemplate "/repo" split_placeholders None "owner" "repo" "sha" [] []
  = "{{LINK_COUNT}} links. {{BROKEN_LINKS}}{{VALID_LINKS}}" /\
  Typed.postCommentFromTemplate "/repo" split_placeholders None "owner" "repo" "sha" [] []
  = "{{LINK_COUNT}} links. {{BROKEN_LINKS}}{{VALID_LINKS}}" /\
  Legacy.templateNameOf "/repo" [sample_result true] ["src/guide.md"]
  = "all-updated-template.md" /\
  Legacy.postCommentFromTemplate "/repo" split_placeholders None "owner" "repo" "sha"
    [sample_result true] ["src/guide.md"]
  = "{{LINK_COUNT}} links. {{BROKEN_LINKS}}{{VALID_LINKS}}" /\
  Typed.postCommentFromTemplate "/repo" split_placeholders None "owner" "repo" "sha"
    [sample_result true] ["src/guide.md"]
  = "{{LINK_COUNT}} links. {{BROKEN_LINKS}}{{VALID_LINKS}}".
Proof.
  split; [reflexivity|]. split; [reflexivity|]. split; [reflexivity|].
  split; [vm_compute; reflexivity|]. split; vm_compute; reflexivity.
Qed.

(** The same action, through the general statement. *)
Lemma placeholder_substitution_witness :
  both_placeholders (templatePathsMap "/repo" "/action" NoLinks)
  = Some "{{LINK_COUNT}} links: {{LINKS}}; again: {{LINKS}}" /\
  "{{LINK_COUNT}} links: {{LINKS}}; again: {{LINKS}}" <> "" /\
  compileTemplateFromLinks "/repo" "/action" both_placeholders "owner" "repo" "sha" [] []
  = Normal (Js.replace
              (Js.replace "{{LINK_COUNT}} links: {{LINKS}}; again: {{LINKS}}"
                 "{{LINK_COUNT}}" "0")
              "{{LINKS}}" "").
Proof.
  assert (H1 : both_placeholders (templatePathsMap "/repo" "/action" NoLinks)
               = Some "{{LINK_COUNT}} links: {{LINKS}}; again: {{LINKS}}") by reflexivity.
  assert (H2 : "{{LINK_COUNT}} links: {{LINKS}}; again: {{LINKS}}" <> "") by discriminate.
  split; [exact H1|]. split; [exact H2|].
  exact (proj1 (placeholder_substitution "/repo" "/action" both_placeholders _
                  "owner" "repo" "sha" [] H1 H2)).
Defined.

(** ** Link extraction *)

Lemma first_occurrences_ext (s1 s2 l : list string) :
  (forall y, In y s1 <-> In y s2) -> first_occurrences s1 l = first_occurrences s2 l.
Proof.
  revert s1 s2. induction l as [|x l IH]; intros s1 s2 H; simpl; [reflexivity|].
  assert (E : Js.includes s1 x = Js.includes s2 x).
  { destruct (Js.includes s1 x) eqn:E1, (Js.includes s2 x) eqn:E2; try reflexivity.
    - apply includes_In in E1. apply includes_not_In in E2. now apply H in E1.
    - apply includes_not_In in E1. apply includes_In in E2. now apply H in E2. }
  rewrite E. destruct (Js.includes s2 x).
  - now apply IH.
  - f_equal. apply IH. intros y. simpl. now rewrite H.
Qed.

Lemma fold_set_add (l acc : list string) :
  fold_left set_add l acc = (acc ++ first_occurrences acc l)%list.
Proof.
  revert acc. induction l as [|x l IH]; intros acc; simpl.
  - now rewrite app_nil_r.
  - rewrite IH. unfold set_add. destruct (Js.includes acc x); [reflexivity|].
    rewrite <- app_assoc. simpl. do 2 f_equal.
    apply first_occurrences_ext. intros y. rewrite in_app_iff. simpl. tauto.
Qed.

Lemma first_occurrences_spec (l seen : list string) :
  NoDup (first_occurrences seen l) /\
  (forall x, In x (first_occurrences seen l) <-> In x l /\ ~ In x seen).
Proof.
  revert seen. induction l as [|x l IH]; intros seen; simpl.
  - split; [constructor | intros y; tauto].
  - destruct (Js.includes seen x) eqn:E.
    + apply includes_In in E. destruct (IH seen) as [Hnd Hin]. split; [assumption|].
      intros y. rewrite Hin. split; [tauto|].
      intros [[<- | Hy] Hn]; [contradiction | tauto].
    + apply includes_not_In in E. destruct (IH (x :: seen)) as [Hnd Hin]. split.
      * constructor; [|assumption]. rewrite Hin. simpl. tauto.
      * intros y. simpl. rewrite Hin. simpl. split.
        -- intros [<- | [Hy Hn]]; [tauto | tauto].
        -- intros [[<- | Hy] Hn]; [now left|].
           destruct (string_dec x y) as [<- | Hne]; [now left | right; tauto].
Qed.

Lemma fold_set_add_map (f : string -> string) (l acc : list string) :
  fold_left (fun a link => set_add a (f link)) l acc = fold_left set_add (map f l) acc.
Proof. revert acc. induction l as [|x l IH]; intros acc; simpl; [reflexivity | apply IH]. Qed.

Lemma extractLinks_discovered (comments acc : list string) :
  fold_left extractLinks_step comments acc = fold_left set_add (discovered comments) acc.
Proof.
  revert acc. induction comments as [|c cs IH]; intros acc; [reflexivity|].
  cbn [fold_left]. rewrite IH. unfold discovered. cbn [flat_map].
  rewrite !fold_left_app. unfold extractLinks_step. rewrite 2 (fold_set_add_map Js.trim). reflexivity.
Qed.

(** C5.  The links extracted from the comments of a file hold each literal
    text at most once: they are the discovered texts with every text kept at
    its first occurrence and the later ones dropped, in the order of
    discovery. *)
Theorem extracted_links_unique (comments : list string) :
  NoDup (extractLinks comments) /\
  extractLinks comments = first_occurrences [] (discovered comments) /\
  (forall x, In x (extractLinks comments) <-> In x (discovered comments)) /\
  extractLinks ["see ./docs/guide.md and ./README.md"; "again ./docs/guide.md"]
  = ["./docs/guide.md"; "./README.md"].
Proof.
  assert (E : extractLinks comments = first_occurrences [] (discovered comments)).
  { unfold extractLinks. now rewrite extractLinks_discovered, fold_set_add. }
  destruct (first_occurrences_spec (discovered comments) []) as [Hnd Hin].
  split; [now rewrite E|]. split; [exact E|]. split.
  - intros x. rewrite E, Hin. split; [tauto | intros H; split; [assumption | intros []]].
  - vm_compute. reflexivity.
Qed.

(** ** Tokens of the link patterns *)

Lemma list_ascii_app (a b : string) :
  list_ascii_of_string (a ++ b) = (list_ascii_of_string a ++ list_ascii_of_string b)%list.
Proof. induction a as [|x a IH]; simpl; [reflexivity | now rewrite IH]. Qed.

Lemma str_forall_app (f : ascii -> bool) (a b : string) :
  str_forall f (a ++ b) = str_forall f a && str_forall f b.
Proof. unfold str_forall. now rewrite list_ascii_app, forallb_app. Qed.

Lemma str_forall_rev (f : ascii -> bool) (s : string) :
  str_forall f s = true -> str_forall f (Js.str_rev s) = true.
Proof.
  unfold str_forall, Js.str_rev. rewrite list_ascii_of_string_of_list_ascii.
  rewrite !forallb_forall. intros H x Hx. apply H. now apply in_rev.
Qed.

Lemma str_rev_involutive (s : string) : Js.str_rev (Js.str_rev s) = s.
Proof.
  unfold Js.str_rev. rewrite list_ascii_of_string_of_list_ascii, rev_involutive.
  apply string_of_list_ascii_of_string.
Qed.

Lemma trimStart_not_space (s : string) :
  str_forall not_space s = true -> Js.trimStart s = s.
Proof.
  destruct s as [|c s]; [reflexivity|]. unfold str_forall, not_space. simpl.
  intros H. apply andb_true_iff in H. destruct H as [H _].
  apply negb_true_iff in H. now rewrite H.
Qed.

Lemma trim_not_space (s : string) : str_forall not_space s = true -> Js.trim s = s.
Proof.
  intros H. unfold Js.trim, Js.trimEnd. rewrite (trimStart_not_space s H).
  rewrite (trimStart_not_space _ (str_forall_rev _ _ H)). apply str_rev_involutive.
Qed.

Lemma span_forall (f : ascii -> bool) (s : string) :
  str_forall f (fst (Regex.span f s)) = true.
Proof.
  induction s as [|c s IH]; simpl; [reflexivity|].
  destruct (f c) eqn:E; [|reflexivity].
  destruct (Regex.span f s) as [a b]. unfold str_forall in *. simpl in *.
  now rewrite E.
Qed.

Lemma url_char_not_space (s : string) :
  str_forall Regex.url_char s = true -> str_forall not_space s = true.
Proof.
  unfold str_forall. rewrite !forallb_forall. intros H c Hc.
  specialize (H c Hc). unfold Regex.url_char in H. unfold not_space.
  apply negb_true_iff in H. apply orb_false_iff in H. destruct H as [H _].
  now rewrite H.
Qed.

Lemma startsWith_take (s p : string) :
  Js.startsWith s p = true -> Js.take (String.length p) s = p.
Proof.
  intros H. rewrite (startsWith_inv s p H). apply take_app_length.
Qed.

Lemma startsWith_weaken (s p q : string) :
  Js.startsWith s (p ++ q) = true -> Js.startsWith s p = true.
Proof.
  intros H. rewrite (startsWith_inv s _ H), str_app_assoc. apply startsWith_app.
Qed.

(** A token of a link pattern is one of the heads of the pattern followed by
    a non-empty run of link characters. *)
Lemma match_run_inv (prefix_len : string -> option nat) (s tok : string) :
  Regex.match_run prefix_len Regex.url_char s = Some tok ->
  exists n run,
    prefix_len s = Some n /\ tok = Js.take n s ++ run /\ run <> "" /\
    str_forall Regex.url_char run = true.
Proof.
  unfold Regex.match_run. destruct (prefix_len s) as [n|]; [|discriminate].
  destruct (fst (Regex.span Regex.url_char (Js.drop n s)) =? "") eqn:E; [discriminate|].
  intros [= <-]. exists n, (fst (Regex.span Regex.url_char (Js.drop n s))).
  repeat split.
  - now apply String.eqb_neq.
  - apply span_forall.
Qed.

Ltac take_prefix E :=
  let Ht := fresh "Ht" in
  pose proof (startsWith_take _ _ E) as Ht; cbn [String.length] in Ht; rewrite Ht.

Lemma absolute_token (s tok : string) :
  ABSOLUTE_URL_PATTERN s = Some tok ->
  exists run, (tok = "https://" ++ run \/ tok = "http://" ++ run) /\
              str_forall Regex.url_char run = true.
Proof.
  intros H. apply match_run_inv in H. destruct H as (n & run & Hp & -> & _ & Hrun).
  exists run. split; [|assumption]. unfold Regex.absolute_prefix in Hp.
  destruct (Js.startsWith s "https://") eqn:E1.
  - injection Hp as <-. left. now take_prefix E1.
  - destruct (Js.startsWith s "http://") eqn:E2; [|discriminate].
    injection Hp as <-. right. now take_prefix E2.
Qed.

Lemma relative_token (s tok : string) :
  RELATIVE_PATH_PATTERN s = Some tok ->
  exists run, (tok = "../" ++ run \/ tok = "./" ++ run \/ tok = "/" ++ run) /\
              run <> "" /\ str_forall Regex.url_char run = true.
Proof.
  intros H. apply match_run_inv in H. destruct H as (n & run & Hp & -> & Hne & Hrun).
  exists run. split; [|split; assumption]. unfold Regex.relative_prefix in Hp.
  destruct (Js.startsWith s "../") eqn:E1.
  - injection Hp as <-. left. now take_prefix E1.
  - destruct (Js.startsWith s "./") eqn:E2.
    + injection Hp as <-. right. left. now take_prefix E2.
    + destruct (Js.startsWith s "/") eqn:E3; [|discriminate].
      injection Hp as <-. right. right. now take_prefix E3.
Qed.

Lemma matchAll_In (m : string -> option string) (s : string) (k : nat) (tok : string) :
  In tok (Regex.matchAll m k s) -> exists s', m s' = Some tok.
Proof.
  revert k. induction s as [|c s IH]; intros k; simpl; [intros []|].
  destruct k as [|k]; [|apply IH].
  destruct (m (String c s)) as [t|] eqn:E; [|apply IH].
  intros [<- | H]; [eauto | now apply IH in H].
Qed.

Lemma discovered_shape (comments : list string) (link : string) :
  In link (discovered comments) -> absolute_shape link \/ relative_shape link.
Proof.
  unfold discovered. rewrite in_flat_map. intros (c & _ & H).
  rewrite in_app_iff, !in_map_iff in H.
  destruct H as [(tok & <- & H) | (tok & <- & H)]; apply matchAll_In in H;
    destruct H as [s' H].
  - apply absolute_token in H. destruct H as (run & Htok & Hrun). left.
    apply url_char_not_space in Hrun.
    destruct Htok as [-> | ->]; rewrite trim_not_space
      by (rewrite str_forall_app, Hrun; reflexivity).
    + right. apply startsWith_app.
    + left. apply startsWith_app.
  - apply relative_token in H. destruct H as (run & Htok & _ & Hrun). right.
    apply url_char_not_space in Hrun.
    destruct Htok as [-> | [-> | ->]]; rewrite trim_not_space
      by (rewrite str_forall_app, Hrun; reflexivity).
    + right. left. apply startsWith_app.
    + left. apply startsWith_app.
    + right. right. apply startsWith_app.
Qed.

Lemma startsWith_take_eqb (s p : string) :
  Js.startsWith s p = (Js.take (String.length p) s =? p).
Proof.
  destruct (Js.startsWith s p) eqn:E.
  - rewrite (startsWith_take s p E). symmetry. apply String.eqb_refl.
  - symmetry. apply String.eqb_neq. intros H.
    assert (Hs : Js.startsWith s p = true).
    { rewrite <- (take_drop (String.length p) s), H. apply startsWith_app. }
    congruence.
Qed.

Lemma classify_absolute (link : string) : absolute_shape link -> classify link = Absolute.
Proof.
  unfold classify. intros [H | H].
  - now rewrite (startsWith_weaken link "http" "://" H).
  - now rewrite (startsWith_weaken link "http" "s://" H).
Qed.

Lemma classify_relative (link : string) : relative_shape link -> classify link = Relative.
Proof.
  unfold classify. intros [H | [H | H]]; apply startsWith_inv in H; rewrite H; reflexivity.
Qed.

(** C6.  The kind of a link is a function of its first characters.  Every
    link that [extractLinks] emits begins with [http://] or [https://] and
    is classified absolute, or begins with [./], [../] or [/] and is
    classified relative; nothing of another shape is emitted.  Any text that
    begins in one of the first two ways is classified absolute and any text
    that begins in one of the other three is classified relative. *)
Theorem link_classification (comments : list string) (link : string)
  (Hemitted : In link (extractLinks comments)) :
  ((absolute_shape link /\ classify link = Absolute) \/
   (relative_shape link /\ classify link = Relative)) /\
  (forall token, absolute_shape token -> classify token = Absolute) /\
  (forall token, relative_shape token -> classify token = Relative) /\
  (forall a b, Js.take 4 a = Js.take 4 b -> classify a = classify b) /\
  (forall readFileSync file r l,
     parseFile readFileSync file = Some r -> In l (links r) -> type l = classify (url l)).
Proof.
  split; [|split; [|split; [|split]]].
  - apply extracted_links_unique in Hemitted.
    destruct (discovered_shape comments link Hemitted) as [H | H].
    + left. split; [assumption | now apply classify_absolute].
    + right. split; [assumption | now apply classify_relative].
  - apply classify_absolute.
  - apply classify_relative.
  - intros a b H. unfold classify.
    rewrite (startsWith_take_eqb a "http"), (startsWith_take_eqb b "http").
    cbn [String.length]. now rewrite H.
  - intros readFileSync file r l. unfold parseFile, getFileContent.
    destruct (readFileSync file) as [text|]; [|discriminate].
    destruct (text =? ""); [discriminate|].
    destruct (extractLinks (extractComments text)) as [|x xs]; [discriminate|].
    intros [= <-]. cbn [links]. intros [<- | H]; [reflexivity|].
    apply in_map_iff in H. destruct H as (y & <- & _). reflexivity.
Qed.

(** A web address in a comment is emitted and classified absolute. *)
Lemma link_classification_witness :
  In "https://api.example.com/docs" (extractLinks ["see https://api.example.com/docs"]) /\
  classify "https://api.example.com/docs" = Absolute.
Proof.
  assert (H : In "https://api.example.com/docs"
                (extractLinks ["see https://api.example.com/docs"])).
  { vm_compute. now left. }
  split; [exact H|].
  destruct (proj1 (link_classification _ _ H)) as [[_ Hc] | [_ Hc]].
  - exact Hc.
  - discriminate Hc.
Defined.

(** ** Comment markers among the links *)

Lemma fold_left_preserves {A B} (P : A -> Prop) (f : A -> B -> A) (l : list B) (a : A) :
  P a -> (forall a' x, P a' -> P (f a' x)) -> P (fold_left f l a).
Proof.
  intros Ha Hf. revert a Ha. induction l as [|x l IH]; intros a Ha; simpl; auto.
Qed.

Lemma set_add_In (acc : list string) (x y : string) :
  In y (set_add acc x) -> In y acc \/ y = x.
Proof.
  unfold set_add. destruct (Js.includes acc x); [now left|].
  rewrite in_app_iff. simpl. intros [H | [H | []]]; auto.
Qed.

Lemma typed_extractLinks_guard (comments : list string) (link : string) :
  In link (Typed.extractLinks comments) -> ~ In link Typed.comment_markers.
Proof.
  unfold Typed.extractLinks.
  set (P := fun acc : list string =>
              forall y, In y acc -> Js.includes Typed.comment_markers y = false).
  assert (H : P (fold_left Typed.extractLinks_step comments [])).
  { apply fold_left_preserves.
    - intros y [].
    - intros acc comment Hacc. unfold Typed.extractLinks_step.
      apply fold_left_preserves; [exact Hacc|].
      intros acc' tok Hacc'.
      destruct (Js.includes Typed.comment_markers (Js.trim tok)) eqn:E; simpl.
      + exact Hacc'.
      + intros y Hy. apply set_add_In in Hy. destruct Hy as [Hy | ->]; auto. }
  intros Hin. apply includes_not_In. now apply H.
Qed.

(** C8.  On the commented-out line [// const x = 1; // old value],
    check-links.ts extracts the comment body [const x = 1; // old value] and
    emits the bare marker [//] as a relative link: stripping the markers at
    the two ends of the body does not keep the path pattern from matching a
    marker inside it.  A bare opening marker of a block comment is emitted in
    the same way.  The typed revision, which compares every token with the
    markers, never emits one. *)
Theorem comment_marker_emitted :
  extractComments "// const x = 1; // old value" = ["const x = 1; // old value"] /\
  extractLinks ["const x = 1; // old value"] = ["//"] /\
  parseFilesForLinks quoted_marker ["src/app.js"]
  = [ {| filename := "src/app.js"; links := [ {| url := "//"; type := Relative |} ] |} ] /\
  extractLinks ["open with /* and close"] = ["/*"] /\
  Typed.extractLinks (Typed.extractComments "// const x = 1; // old value") = [] /\
  (forall comments link,
     In link (Typed.extractLinks comments) -> ~ In link Typed.comment_markers).
Proof.
  repeat (split; [vm_compute; reflexivity|]).
  apply typed_extractLinks_guard.
Qed.

(** ** Paths: segments and normal forms *)

Lemma split_not_nil (s : string) : Path.split s <> [].
Proof.
  induction s as [|c s IH]; simpl; [discriminate|].
  destruct (Ascii.eqb c Path.slash); [discriminate|].
  destruct (Path.split s); [congruence | discriminate].
Qed.

Lemma split_no_slash (s : string) : Forall no_slash (Path.split s).
Proof.
  induction s as [|c s IH]; simpl.
  - constructor; [reflexivity | constructor].
  - destruct (Ascii.eqb c Path.slash) eqn:E.
    + constructor; [reflexivity | assumption].
    + destruct (Path.split s) as [|h t] eqn:Es; [contradiction (split_not_nil s Es)|].
      inversion IH; subst. constructor; [|assumption].
      unfold no_slash, str_forall in *. simpl. now rewrite E.
Qed.

Lemma split_app_slash (a b : string) :
  Path.split (a ++ String Path.slash b) = (Path.split a ++ Path.split b)%list.
Proof.
  induction a as [|c a IH]; simpl.
  - reflexivity.
  - destruct (Ascii.eqb c Path.slash); rewrite IH; [reflexivity|].
    destruct (Path.split a) as [|h t] eqn:Ea; [contradiction (split_not_nil a Ea)|].
    reflexivity.
Qed.

Lemma split_plain (s : string) : no_slash s -> Path.split s = [s].
Proof.
  unfold no_slash, str_forall. induction s as [|c s IH]; simpl; [reflexivity|].
  intros H. apply andb_true_iff in H. destruct H as [Hc Hs].
  apply negb_true_iff in Hc. rewrite Hc, (IH Hs). reflexivity.
Qed.

Lemma split_join (xs : list string) :
  Forall no_slash xs -> xs <> [] -> Path.split (Path.join xs) = xs.
Proof.
  unfold Path.join. induction xs as [|x xs IH]; intros Hall Hne; [congruence|].
  inversion Hall as [|? ? Hx Hxs]; subst. destruct xs as [|y ys].
  - simpl. now apply split_plain.
  - change (String.concat "/" (x :: y :: ys))
      with (x ++ String Path.slash (String.concat "/" (y :: ys))).
    rewrite split_app_slash, (split_plain x Hx), IH; [reflexivity | assumption | discriminate].
Qed.

Lemma push_plain (allow : bool) (stack : list string) (x : string) :
  plain x -> Path.push_segment allow stack x = x :: stack.
Proof.
  intros (H1 & H2 & H3 & _). unfold Path.push_segment.
  apply String.eqb_neq in H1, H2, H3. now rewrite H1, H2, H3.
Qed.

Lemma fold_push_plain (allow : bool) (xs stack : list string) :
  Forall plain xs ->
  fold_left (Path.push_segment allow) xs stack = (rev xs ++ stack)%list.
Proof.
  revert stack. induction xs as [|x xs IH]; intros stack H; simpl; [reflexivity|].
  inversion H; subst. rewrite push_plain by assumption. rewrite IH by assumption.
  now rewrite <- app_assoc.
Qed.

Lemma push_up (top : string) (below : list string) :
  plain top -> Path.push_segment false (top :: below) ".." = below.
Proof.
  intros (_ & _ & Htop & _). unfold Path.push_segment.
  apply String.eqb_neq in Htop. cbn [String.eqb Ascii.eqb Bool.eqb orb andb].
  change (".." =? "..") with true. cbv iota. now rewrite Htop.
Qed.

Lemma fold_push_up (k : nat) (stack : list string) :
  Forall plain stack ->
  fold_left (Path.push_segment false) (repeat ".." k) stack = skipn k stack.
Proof.
  revert stack. induction k as [|k IH]; intros stack H; [reflexivity|].
  cbn [repeat fold_left]. destruct stack as [|top below].
  - change (Path.push_segment false [] "..") with (@nil string).
    rewrite IH by constructor. now destruct k.
  - inversion H; subst. rewrite push_up by assumption. now apply IH.
Qed.

Lemma fold_push_keeps_plain (segs stack : list string) :
  Forall no_slash segs -> Forall plain stack ->
  Forall plain (fold_left (Path.push_segment false) segs stack).
Proof.
  revert stack. induction segs as [|x xs IH]; intros stack Hs Hst; simpl; [assumption|].
  inversion Hs as [|? ? Hx Hxs]; subst. apply IH; [assumption|].
  unfold Path.push_segment.
  destruct (x =? "") eqn:E1; simpl; [assumption|].
  destruct (x =? ".") eqn:E2; simpl; [assumption|].
  destruct (x =? "..") eqn:E3.
  - destruct stack as [|top below]; [constructor|].
    inversion Hst; subst. now destruct (top =? "..").
  - apply String.eqb_neq in E1, E2, E3. constructor; [|assumption]. repeat split; assumption.
Qed.

Lemma normalize_plain (segs : list string) :
  Forall no_slash segs -> Forall plain (Path.normalizeSegments false segs).
Proof.
  intros H. unfold Path.normalizeSegments. apply Forall_rev.
  apply fold_push_keeps_plain; [assumption | constructor].
Qed.

Lemma resolve_loop_absolute (cwd : string) (l : list string) (acc : string) :
  Path.isAbsolute cwd = true ->
  exists rp, Path.resolve_loop (l ++ [cwd]) acc = (rp, true).
Proof.
  intros Hcwd. revert acc. induction l as [|x l IH]; intros acc; simpl.
  - assert (Hne : (cwd =? "") = false).
    { destruct cwd; [discriminate | reflexivity]. }
    rewrite Hne, Hcwd. eauto.
  - destruct (x =? ""); [apply IH|].
    destruct (Path.isAbsolute x); [eauto | apply IH].
Qed.

(** The result of [path.resolve] under an absolute working directory: a
    slash followed by plain segments. *)
Lemma resolve_form (cwd : string) (args : list string) :
  Path.isAbsolute cwd = true ->
  exists P, Path.resolve cwd args = "/" ++ Path.join P /\ Forall plain P.
Proof.
  intros Hcwd. unfold Path.resolve.
  destruct (resolve_loop_absolute cwd (rev args) "" Hcwd) as [rp ->].
  exists (Path.normalizeSegments false (Path.split rp)). split; [reflexivity|].
  apply normalize_plain, split_no_slash.
Qed.

Lemma push_empty (allow : bool) (stack : list string) :
  Path.push_segment allow stack "" = stack.
Proof. reflexivity. Qed.

Lemma fold_push_join (P stack : list string) :
  Forall plain P ->
  fold_left (Path.push_segment false) (Path.split (Path.join P)) stack
  = (rev P ++ stack)%list.
Proof.
  intros HP. destruct P as [|x xs]; [reflexivity|].
  rewrite split_join.
  - now apply fold_push_plain.
  - eapply Forall_impl; [|exact HP]. now intros a (_ & _ & _ & H).
  - discriminate.
Qed.

Lemma cwd_stack_plain (cwd : string) : Forall plain (cwd_stack cwd).
Proof. apply fold_push_keeps_plain; [apply split_no_slash | constructor]. Qed.

Lemma cwd_not_empty (cwd : string) : Path.isAbsolute cwd = true -> (cwd =? "") = false.
Proof. destruct cwd; [discriminate | reflexivity]. Qed.

Lemma resolve_empty (cwd : string) :
  Path.isAbsolute cwd = true ->
  Path.resolve cwd [""] = "/" ++ Path.join (rev (cwd_stack cwd)).
Proof.
  intros Hcwd. unfold Path.resolve. cbn [rev app Path.resolve_loop String.eqb].
  rewrite (cwd_not_empty cwd Hcwd), Hcwd. cbn [negb].
  unfold Path.normalizeString, Path.normalizeSegments.
  change (cwd ++ "/" ++ "") with (cwd ++ String Path.slash "").
  rewrite split_app_slash, fold_left_app. reflexivity.
Qed.

Lemma resolve_absolute_arg (cwd : string) (P : list string) :
  Forall plain P ->
  Path.resolve cwd ["/" ++ Path.join P] = "/" ++ Path.join P.
Proof.
  intros HP. unfold Path.resolve. cbn [rev app Path.resolve_loop].
  change ("/" ++ Path.join P =? "") with false. cbv iota.
  unfold Path.isAbsolute at 1. rewrite startsWith_app. cbn [negb]. unfold Path.normalizeString, Path.normalizeSegments.
  change (("/" ++ Path.join P) ++ "/" ++ "")
    with (String Path.slash (Path.join P ++ String Path.slash "")).
  change (Path.split (String Path.slash (Path.join P ++ String Path.slash "")))
    with ("" :: Path.split (Path.join P ++ String Path.slash "")).
  rewrite split_app_slash. cbn [fold_left]. rewrite push_empty, fold_left_app.
  rewrite (fold_push_join P [] HP). cbn [Path.split fold_left]. rewrite push_empty.
  now rewrite app_nil_r, rev_involutive.
Qed.

Lemma resolve_relative_arg (cwd x : string) :
  Path.isAbsolute cwd = true -> x <> "" -> Path.isAbsolute x = false ->
  Path.resolve cwd [x]
  = "/" ++ Path.join (rev (fold_left (Path.push_segment false) (Path.split x) (cwd_stack cwd))).
Proof.
  intros Hcwd Hx Hrel. unfold Path.resolve. cbn [rev app Path.resolve_loop].
  apply String.eqb_neq in Hx. rewrite Hx, Hrel, (cwd_not_empty cwd Hcwd), Hcwd. cbn [negb].
  unfold Path.normalizeString, Path.normalizeSegments.
  change (cwd ++ "/" ++ x ++ "/" ++ "") with (cwd ++ String Path.slash (x ++ String Path.slash "")).
  rewrite !split_app_slash, !fold_left_app. cbn [Path.split fold_left].
  now rewrite push_empty.
Qed.

Lemma segments_form (P : list string) :
  Forall plain P -> Path.segments ("/" ++ Path.join P) = P.
Proof.
  intros HP. unfold Path.segments.
  change (Path.split ("/" ++ Path.join P)) with ("" :: Path.split (Path.join P)).
  cbn [filter String.eqb negb]. destruct P as [|x xs]; [reflexivity|].
  rewrite split_join.
  - apply forallb_filter_id. apply forallb_forall. intros y Hy.
    rewrite Forall_forall in HP. destruct (HP y Hy) as (Hne & _).
    apply String.eqb_neq in Hne. now rewrite Hne.
  - eapply Forall_impl; [|exact HP]. now intros a (_ & _ & _ & H).
  - discriminate.
Qed.

Lemma common_prefix_firstn (xs ys : list string) :
  firstn (Path.common_prefix xs ys) xs = firstn (Path.common_prefix xs ys) ys /\
  Path.common_prefix xs ys <= List.length xs /\
  Path.common_prefix xs ys <= List.length ys.
Proof.
  revert ys. induction xs as [|x xs IH]; intros [|y ys]; simpl; try (repeat split; lia).
  destruct (x =? y) eqn:E; simpl; [|repeat split; lia].
  apply String.eqb_eq in E. subst y. destruct (IH ys) as (H1 & H2 & H3).
  rewrite H1. repeat split; lia.
Qed.

Lemma resolve_cwd (cwd : string) :
  Path.isAbsolute cwd = true ->
  Path.resolve cwd [cwd] = "/" ++ Path.join (rev (cwd_stack cwd)).
Proof.
  intros Hcwd. unfold Path.resolve. cbn [rev app Path.resolve_loop].
  rewrite (cwd_not_empty cwd Hcwd), Hcwd. cbn [negb].
  unfold Path.normalizeString, Path.normalizeSegments.
  change (cwd ++ "/" ++ "") with (cwd ++ String Path.slash "").
  rewrite split_app_slash, fold_left_app. reflexivity.
Qed.

Lemma cwd_stack_form (P : list string) :
  Forall plain P -> cwd_stack ("/" ++ Path.join P) = rev P.
Proof.
  intros HP. unfold cwd_stack.
  change (Path.split ("/" ++ Path.join P)) with ("" :: Path.split (Path.join P)).
  cbn [fold_left]. rewrite push_empty, (fold_push_join P [] HP). apply app_nil_r.
Qed.

Lemma step_no_slash (s : string) : step s -> no_slash s.
Proof. intros [-> | (_ & _ & _ & H)]; [reflexivity | assumption]. Qed.

Lemma join_steps (L : list string) :
  Forall step L -> L <> [] ->
  Path.join L <> "" /\ Path.isAbsolute (Path.join L) = false.
Proof.
  intros HL Hne. destruct L as [|h t]; [congruence|].
  inversion HL as [|? ? Hh _]; subst.
  assert (Hc : exists ch h', h = String ch h' /\ Ascii.eqb ch Path.slash = false).
  { destruct Hh as [-> | (Hne' & _ & _ & Hs)].
    - exists "."%char, ".". split; reflexivity.
    - destruct h as [|ch h']; [congruence|]. exists ch, h'. split; [reflexivity|].
      unfold no_slash, str_forall in Hs. simpl in Hs.
      apply andb_true_iff in Hs. destruct Hs as [Hs _]. now apply negb_true_iff in Hs. }
  destruct Hc as (ch & h' & -> & Hch).
  assert (Hj : exists rest, Path.join (String ch h' :: t) = String ch rest).
  { unfold Path.join. destruct t; simpl; eauto. }
  destruct Hj as [rest ->]. split; [discriminate|].
  unfold Path.isAbsolute, Js.startsWith. cbn [String.prefix].
  destruct (ascii_dec "/" ch) as [<- | _]; [discriminate Hch | reflexivity].
Qed.

Lemma Forall_skipn {A} (Q : A -> Prop) (n : nat) (l : list A) :
  Forall Q l -> Forall Q (skipn n l).
Proof.
  intros H. rewrite <- (firstn_skipn n l) in H. now apply Forall_app in H.
Qed.

Lemma Forall_repeat {A} (Q : A -> Prop) (x : A) (n : nat) : Q x -> Forall Q (repeat x n).
Proof. intros H. induction n; simpl; constructor; assumption. Qed.

(** The relative form of a resolved path is not absolute, and resolving it
    against the working directory gives the path back. *)
Lemma relative_roundtrip (cwd : string) (P : list string) :
  Path.isAbsolute cwd = true -> Forall plain P ->
  Path.isAbsolute (Path.relative cwd cwd ("/" ++ Path.join P)) = false /\
  Path.resolve cwd [Path.relative cwd cwd ("/" ++ Path.join P)] = "/" ++ Path.join P.
Proof.
  intros Hcwd HP. unfold Path.relative.
  destruct (cwd =? "/" ++ Path.join P) eqn:E0.
  { split; [reflexivity|]. rewrite (resolve_empty cwd Hcwd).
    apply String.eqb_eq in E0. rewrite E0 at 1.
    now rewrite (cwd_stack_form P HP), rev_involutive. }
  rewrite (resolve_absolute_arg cwd P HP), (resolve_cwd cwd Hcwd).
  pose proof (cwd_stack_plain cwd) as Hstack.
  set (C := rev (cwd_stack cwd)).
  assert (HC : Forall plain C) by (apply Forall_rev, Hstack).
  destruct ("/" ++ Path.join C =? "/" ++ Path.join P) eqn:E1.
  { split; [reflexivity|]. rewrite (resolve_empty cwd Hcwd). fold C.
    now apply String.eqb_eq. }
  rewrite (segments_form C HC), (segments_form P HP).
  destruct (common_prefix_firstn C P) as (Hfirst & HcC & HcP).
  set (c := Path.common_prefix C P) in *.
  set (L := (repeat ".." (List.length C - c) ++ skipn c P)%list).
  assert (HL : Forall step L).
  { apply Forall_app. split.
    - apply Forall_repeat. now left.
    - apply Forall_skipn. eapply Forall_impl; [|exact HP]. intros a Ha. now right. }
  assert (Hne : L <> []).
  { intros E. unfold L in E. apply app_eq_nil in E. destruct E as [Hup Hdown].
    assert (Hk : List.length C - c = 0).
    { destruct (List.length C - c); [reflexivity | discriminate]. }
    assert (HlenP : List.length P <= c).
    { apply (f_equal (@List.length string)) in Hdown. rewrite length_skipn in Hdown.
      simpl in Hdown. lia. }
    assert (HCP : C = P).
    { rewrite <- (firstn_all C), <- (firstn_all P).
      replace (List.length C) with c by lia. replace (List.length P) with c by lia.
      exact Hfirst. }
    rewrite HCP, String.eqb_refl in E1. discriminate. }
  destruct (join_steps L HL Hne) as [Hjne Hjrel].
  split; [exact Hjrel|].
  rewrite (resolve_relative_arg cwd (Path.join L) Hcwd Hjne Hjrel).
  rewrite split_join; [| eapply Forall_impl; [|exact HL]; apply step_no_slash | exact Hne].
  unfold L. rewrite fold_left_app, (fold_push_up _ _ Hstack).
  rewrite fold_push_plain by (apply Forall_skipn, HP).
  rewrite rev_app_distr, rev_involutive.
  replace (cwd_stack cwd) with (rev C) by apply rev_involutive.
  rewrite skipn_rev, rev_involutive.
  replace (List.length C - (List.length C - c)) with c by lia.
  now rewrite Hfirst, firstn_skipn.
Qed.

Lemma resolve_loop_stops (cwd : string) (l rest : list string) (acc : string) :
  Path.isAbsolute cwd = true ->
  Path.resolve_loop ((l ++ [cwd]) ++ rest) acc = Path.resolve_loop (l ++ [cwd]) acc.
Proof.
  intros Hcwd. revert acc. induction l as [|x l IH]; intros acc; simpl.
  - now rewrite (cwd_not_empty cwd Hcwd), Hcwd.
  - destruct (x =? ""); [apply IH|]. destruct (Path.isAbsolute x); [reflexivity | apply IH].
Qed.

Lemma resolve_with_cwd (cwd : string) (args : list string) :
  Path.isAbsolute cwd = true ->
  Path.resolve cwd (cwd :: args) = Path.resolve cwd args.
Proof.
  intros Hcwd. unfold Path.resolve. cbn [rev].
  now rewrite (resolve_loop_stops cwd (rev args) [cwd] "" Hcwd).
Qed.

Lemma dirname_end_bound (r : list ascii) (i : nat) (m : bool) (e : nat) :
  Path.dirname_end r i m = Some e -> List.length r <= i -> i - List.length r < e <= i.
Proof.
  revert i m. induction r as [|c r IH]; intros i m; simpl; [discriminate|].
  intros H Hlen. destruct (Ascii.eqb c Path.slash).
  - destruct m.
    + apply IH in H; lia.
    + injection H as <-. lia.
  - apply IH in H; lia.
Qed.

Lemma dirname_not_empty (p : string) : Path.dirname p <> "".
Proof.
  unfold Path.dirname. destruct p as [|c0 tail]; [discriminate|].
  destruct (Path.dirname_end _ _ _) as [e|] eqn:E.
  - destruct (_ && _); [discriminate|].
    apply dirname_end_bound in E.
    + destruct e as [|e]; [lia | discriminate].
    + rewrite length_rev. clear E. induction tail; simpl; lia.
  - destruct (Ascii.eqb c0 Path.slash); discriminate.
Qed.

(** Resolving a link that does not begin with a slash against a directory is
    resolving the two joined by a slash. *)
Lemma resolve_joined (cwd dir link : string) :
  dir <> "" -> link <> "" -> Path.isAbsolute link = false ->
  Path.resolve cwd [cwd; dir; link] = Path.resolve cwd [cwd; dir ++ "/" ++ link].
Proof.
  intros Hdir Hlink Hrel. unfold Path.resolve. cbn [rev app Path.resolve_loop].
  apply String.eqb_neq in Hdir, Hlink. rewrite Hdir, Hlink, Hrel.
  assert (Hj : (dir ++ "/" ++ link =? "") = false).
  { destruct dir; [discriminate | reflexivity]. }
  assert (Ha : Path.isAbsolute (dir ++ "/" ++ link) = Path.isAbsolute dir).
  { destruct dir as [|c d]; [discriminate|]. unfold Path.isAbsolute, Js.startsWith.
    cbn [append String.prefix]. destruct (ascii_dec "/" c); [|reflexivity].
    destruct (d ++ "/" ++ link); destruct d; reflexivity. }
  rewrite Hj, Ha, !str_app_assoc.
  change ("/" ++ link ++ "/" ++ "") with (String "/" (link ++ "/" ++ "")).
  reflexivity.
Qed.

(** ** Resolution of relative links *)

Lemma resolve_absolute_last (cwd : string) (before : list string) (link : string) :
  Path.isAbsolute link = true ->
  Path.resolve cwd (before ++ [link]) = Path.resolve cwd [link].
Proof.
  intros Hlink. unfold Path.resolve. rewrite rev_app_distr. cbn [rev app Path.resolve_loop].
  now rewrite (cwd_not_empty link Hlink), Hlink.
Qed.

Section Resolution.

Variable cwd : string.
Variable existsSync : string -> bool.
Variable parseURL : string -> option string.

(** C7, amended.  The resolved path of a relative link is the path of its
    target from the working directory: it is never an absolute path, and
    resolving it from the working directory gives the target back, so that
    the target is among the resolved changed files exactly when some changed
    file denotes the same path.  For a link that does not begin with a slash
    the target is the link joined to the directory of the file in which it
    was found; for a link that begins with a slash the directory of the
    file is ignored and the target is the link itself, taken from the root
    of the file system, so that the resolved path can leave the working
    directory.  The report of check-links.ts shows the resolved path in the
    line under the link, and the validating revisions store it in the
    outcome.  With the working directory [/repo], the link
    [../docs/guide.md] found in [src/app.js] resolves to [docs/guide.md],
    and the link [/docs/guide.md] found there to [../docs/guide.md]. *)
Theorem resolved_path_root_relative (file link : string)
  (Hcwd : Path.isAbsolute cwd = true) :
  let target := Path.resolve cwd [cwd; Path.dirname file; link] in
  let relativePath := Path.relative cwd cwd target in
  (forall owner repo sha fileLink linksMarkdown,
     linkMarkdown cwd owner repo sha fileLink file linksMarkdown
       {| url := link; type := Relative |}
     = linksMarkdown ++ "- `" ++ link ++ "` (relative)" ++ nl
       ++ "  → [`" ++ relativePath ++ "`](https://github.com/" ++ owner ++ "/" ++ repo
       ++ "/blob/" ++ sha ++ "/" ++ relativePath ++ ")" ++ nl
       ++ "  Referenced in: " ++ fileLink ++ nl ++ nl) /\
  resolveLink cwd file link = target /\
  (link <> "" -> Path.isAbsolute link = false ->
   target = Path.resolve cwd [cwd; Path.dirname file ++ "/" ++ link]) /\
  (Path.isAbsolute link = true -> target = Path.resolve cwd [link]) /\
  Path.isAbsolute relativePath = false /\
  Path.resolve cwd [relativePath] = target /\
  (forall changedFiles,
     In target (changedFilePathsOf cwd changedFiles) <->
     exists f, In f changedFiles /\ Path.resolve cwd [f] = Path.resolve cwd [relativePath]) /\
  (Js.startsWith link "http" = false ->
   forall remote later,
     exists st,
       Legacy.checkLinkValidity cwd existsSync parseURL link file remote later
       = Legacy.Fulfilled st /\
       Typed.checkLinkValidity cwd existsSync parseURL link file remote later
       = Legacy.Fulfilled st /\
       Legacy.resolvedPath st = Some relativePath) /\
  Path.relative "/repo" "/repo" (resolveLink "/repo" "src/app.js" "../docs/guide.md")
  = "docs/guide.md" /\
  Path.relative "/repo" "/repo" (resolveLink "/repo" "src/app.js" "/docs/guide.md")
  = "../docs/guide.md".
Proof.
  intros target relativePath.
  destruct (resolve_form cwd [cwd; Path.dirname file; link] Hcwd) as (P & HP & Hplain).
  fold target in HP.
  destruct (relative_roundtrip cwd P Hcwd Hplain) as [Hrel Hback].
  rewrite <- HP in Hrel, Hback. fold relativePath in Hrel, Hback.
  split; [|split; [reflexivity|]; split; [|split; [|split; [exact Hrel|];
           split; [exact Hback|]; split; [|split]]]].
  - intros owner repo sha fileLink linksMarkdown.
    unfold linkMarkdown. cbv zeta. cbn [url type LinkType_eqb LinkType_name].
    unfold resolveLink. fold target. fold relativePath.
    rewrite !str_app_assoc. reflexivity.
  - intros Hlink Hnot. apply resolve_joined; [apply dirname_not_empty | assumption..].
  - intros Hslash. exact (resolve_absolute_last cwd [cwd; Path.dirname file] link Hslash).
  - intros changedFiles. unfold changedFilePathsOf. rewrite in_map_iff, Hback.
    split; intros (f & H1 & H2); exists f; auto.
  - intros Hhttp remote later. unfold Legacy.checkLinkValidity, Typed.checkLinkValidity.
    rewrite Hhttp. cbn [negb].
    rewrite <- (resolve_with_cwd cwd [Path.dirname file; link] Hcwd). fold target.
    eexists. split; [reflexivity|]. split; reflexivity.
  - split; vm_compute; reflexivity.
Qed.

End Resolution.

(** The line of the report for the link of the example. *)
Lemma resolved_path_root_relative_witness :
  Path.isAbsolute "/repo" = true /\
  linkMarkdown "/repo" "o" "r" "abc" "[`src/app.js`]" "src/app.js" ""
    {| url := "../docs/guide.md"; type := Relative |}
  = "- `../docs/guide.md` (relative)" ++ nl
    ++ "  → [`docs/guide.md`](https://github.com/o/r/blob/abc/docs/guide.md)" ++ nl
    ++ "  Referenced in: [`src/app.js`]" ++ nl ++ nl.
Proof.
  split; [reflexivity|].
  pose proof (proj1 (resolved_path_root_relative "/repo" (fun _ => false) (fun _ => None)
                       "src/app.js" "../docs/guide.md" eq_refl)
                "o" "r" "abc" "[`src/app.js`]" "") as Hthm.
  rewrite Hthm. vm_compute. reflexivity.
Defined.

(** A link that begins with a slash is classified relative, but its target
    is not under the directory of its file: from the working directory
    [/repo] the path of the target leaves the repository. *)
Lemma resolved_path_root_relative_counterexample :
  extractLinks (extractComments "// see /docs/guide.md") = ["/docs/guide.md"] /\
  classify "/docs/guide.md" = Relative /\
  resolveLink "/repo" "src/app.js" "/docs/guide.md" = "/docs/guide.md" /\
  Path.relative "/repo" "/repo" (resolveLink "/repo" "src/app.js" "/docs/guide.md")
  = "../docs/guide.md" /\
  Path.resolve "/repo" ["/repo"; Path.dirname "src/app.js" ++ "/" ++ "/docs/guide.md"]
  = "/repo/src/docs/guide.md" /\
  Legacy.resolvedPath
    (match Legacy.checkLinkValidity "/repo" (fun _ => false) (fun _ => None)
             "/docs/guide.md" "src/app.js" Legacy.Silent [] with
     | Legacy.Fulfilled st => st
     | _ => timeout_status
     end)
  = Some "../docs/guide.md".
Proof.
  split; [vm_compute; reflexivity|]. split; [vm_compute; reflexivity|].
  split; [vm_compute; reflexivity|]. split; [vm_compute; reflexivity|].
  split; vm_compute; reflexivity.
Qed.

(** ** Trimming *)

Lemma trimStart_idempotent (s : string) : Js.trimStart (Js.trimStart s) = Js.trimStart s.
Proof.
  induction s as [|c s IH]; [reflexivity|]. cbn [Js.trimStart].
  destruct (Js.is_space c) eqn:E; [exact IH|]. cbn [Js.trimStart]. now rewrite E.
Qed.

Lemma str_rev_app_char (s : string) (c : ascii) :
  Js.str_rev (String c s) = Js.str_rev s ++ String c "".
Proof.
  unfold Js.str_rev. cbn [list_ascii_of_string rev].
  generalize (rev (list_ascii_of_string s)). intros l.
  induction l as [|x l IH]; [reflexivity|]. cbn [app string_of_list_ascii append].
  now rewrite IH.
Qed.

(** Trimming at the start keeps a last character that is not white space. *)
Lemma trimStart_keeps_last (s : string) (c : ascii) :
  Js.is_space c = false ->
  exists x, Js.trimStart (s ++ String c "") = x ++ String c "".
Proof.
  intros Hc. induction s as [|d s IH]; cbn [append Js.trimStart].
  - rewrite Hc. now exists "".
  - destruct (Js.is_space d); [exact IH|]. now exists (String d s).
Qed.

Lemma str_rev_snoc (s : string) (c : ascii) :
  Js.str_rev (s ++ String c "") = String c (Js.str_rev s).
Proof.
  unfold Js.str_rev. rewrite list_ascii_app. cbn [list_ascii_of_string].
  rewrite rev_app_distr. reflexivity.
Qed.

Lemma trimEnd_keeps_first (s : string) :
  Js.trimStart s = s -> Js.trimStart (Js.trimEnd s) = Js.trimEnd s.
Proof.
  destruct s as [|c s]; [reflexivity|]. cbn [Js.trimStart].
  destruct (Js.is_space c) eqn:Hc.
  - intros H. exfalso.
    assert (Hlen : String.length (Js.trimStart s) <= String.length s).
    { clear. induction s as [|d s IH]; cbn [Js.trimStart String.length]; [lia|].
      destruct (Js.is_space d); cbn [String.length]; lia. }
    rewrite H in Hlen. cbn [String.length] in Hlen. lia.
  - intros _. unfold Js.trimEnd. rewrite str_rev_app_char.
    destruct (trimStart_keeps_last (Js.str_rev s) c Hc) as [x ->].
    rewrite str_rev_snoc. cbn [Js.trimStart]. now rewrite Hc.
Qed.

Lemma trim_idempotent (s : string) : Js.trim (Js.trim s) = Js.trim s.
Proof.
  assert (H1 : Js.trimStart (Js.trim s) = Js.trim s).
  { unfold Js.trim. apply trimEnd_keeps_first, trimStart_idempotent. }
  unfold Js.trim at 1. rewrite H1. unfold Js.trim, Js.trimEnd.
  rewrite str_rev_involutive, trimStart_idempotent. reflexivity.
Qed.

(** ** Comments of check-links.ts *)

Lemma matchAllLines_nil (m : string -> option (nat * string)) (s : string)
  (skip : nat) (bol : bool) :
  (bol = true -> m s = None) ->
  (forall j c rest, Js.drop j s = String c rest -> Js.is_line_terminator c = true ->
     m rest = None) ->
  Regex.matchAllLines m skip bol s = [].
Proof.
  revert skip bol. induction s as [|c r IH]; intros skip bol H1 H2; [reflexivity|].
  cbn [Regex.matchAllLines].
  assert (Hr : Regex.matchAllLines m 0 (Js.is_line_terminator c) r = [] /\
               forall k, Regex.matchAllLines m k (Js.is_line_terminator c) r = []).
  { assert (forall k, Regex.matchAllLines m k (Js.is_line_terminator c) r = []).
    { intros k. apply IH.
      - intros Hc. exact (H2 0 c r eq_refl Hc).
      - intros j d rest Hd. exact (H2 (S j) d rest Hd). }
    split; auto. }
  destruct Hr as [Hr0 Hrk]. destruct skip as [|k]; [|apply Hrk].
  destruct bol; [|exact Hr0]. rewrite (H1 eq_refl). exact Hr0.
Qed.

Lemma line_comment_none (marker s : string) :
  Js.startsWith s marker = false -> Regex.line_comment marker s = None.
Proof. unfold Regex.line_comment. now intros ->. Qed.

Lemma block_comment_none (open close s : string) :
  Js.startsWith s open = false -> Regex.block_comment open close s = None.
Proof. unfold Regex.block_comment. now intros ->. Qed.

(** X1.  [extractComments] finds nothing in a text none of whose lines begins
    with a comment marker: a marker after code on the same line does not
    open a comment. *)
Theorem comments_begin_lines (content : string)
  (Hnone : forall i marker, line_start content i -> In marker comment_openers ->
             Js.startsWith (Js.drop i content) marker = false) :
  extractComments content = [].
Proof.
  assert (H : forall m marker,
            In marker comment_openers ->
            (forall x, Js.startsWith x marker = false -> m x = None) ->
            Regex.matchAllLines m 0 true content = []).
  { intros m marker Hin Hm. apply matchAllLines_nil.
    - intros _. apply Hm. apply (Hnone 0 marker); [now left | exact Hin].
    - intros j c rest Hd Hc. apply Hm.
      replace rest with (Js.drop (S j) content).
      + apply Hnone; [|exact Hin]. right. now exists j, c, rest.
      + replace (S j) with (j + 1) by lia.
        rewrite <- (drop_drop 1 j content), Hd. reflexivity. }
  unfold extractComments, COMMENT_PATTERNS. cbn [flat_map regex].
  rewrite (H _ "//"), (H _ "/*"), (H _ "#"), (H _ "<!--"), (H _ "--");
    try reflexivity;
    try (intros x; first [apply line_comment_none | apply block_comment_none]);
    unfold comment_openers; simpl; tauto.
Qed.

Lemma drop_head_In (j : nat) (s : string) (c : ascii) (rest : string) :
  Js.drop j s = String c rest -> In c (list_ascii_of_string s).
Proof.
  revert s. induction j as [|j IH]; intros s H.
  - cbn in H. subst s. now left.
  - destruct s as [|d s]; [discriminate H|]. right. now apply IH.
Qed.

Lemma single_line_start (s : string) (i : nat) :
  str_forall not_line_terminator s = true -> line_start s i -> i = 0.
Proof.
  intros Hs [-> | (j & c & rest & -> & Hd & Hc)]; [reflexivity|]. exfalso.
  apply drop_head_In in Hd. unfold str_forall in Hs. rewrite forallb_forall in Hs.
  specialize (Hs c Hd). unfold not_line_terminator in Hs. now rewrite Hc in Hs.
Qed.

Lemma comments_begin_lines_witness :
  extractComments "const port = 8080; // see ./docs/ports.md" = [].
Proof.
  apply comments_begin_lines. intros i marker Hi Hin.
  apply single_line_start in Hi; [|reflexivity]. subst i.
  unfold comment_openers in Hin. simpl in Hin.
  destruct Hin as [<- | [<- | [<- | [<- | [<- | []]]]]]; reflexivity.
Defined.

Lemma extractComments_In (content c : string) :
  In c (extractComments content) ->
  exists pattern x,
    In pattern COMMENT_PATTERNS /\
    In x (Regex.matchAllLines (regex pattern) 0 true content) /\ c = Js.trim x.
Proof.
  unfold extractComments. rewrite in_flat_map. intros (p & Hp & Hc).
  apply in_map_iff in Hc. destruct Hc as (x & <- & Hx). now exists p, x.
Qed.

(** X2.  Every comment body that [extractComments] returns is trimmed: no
    white space is left at either end. *)
Theorem comments_are_trimmed (content c : string)
  (Hin : In c (extractComments content)) :
  Js.trim c = c /\ Js.trimStart c = c /\ Js.trimEnd c = c.
Proof.
  apply extractComments_In in Hin. destruct Hin as (p & x & _ & _ & ->).
  assert (H1 : Js.trimStart (Js.trim x) = Js.trim x).
  { unfold Js.trim. apply trimEnd_keeps_first, trimStart_idempotent. }
  split; [apply trim_idempotent|]. split; [exact H1|].
  pose proof (trim_idempotent x) as H. unfold Js.trim at 1 in H. now rewrite H1 in H.
Qed.

Lemma comments_are_trimmed_witness :
  In "see ./docs/guide.md" (extractComments "//   see ./docs/guide.md   ") /\
  Js.trim "see ./docs/guide.md" = "see ./docs/guide.md".
Proof.
  assert (H : In "see ./docs/guide.md" (extractComments "//   see ./docs/guide.md   ")).
  { vm_compute. now left. }
  split; [exact H|]. exact (proj1 (comments_are_trimmed _ _ H)).
Defined.

Lemma span_take (f : ascii -> bool) (x : string) :
  Js.take (String.length (fst (Regex.span f x))) x = fst (Regex.span f x).
Proof.
  induction x as [|c x IH]; [reflexivity|]. cbn [Regex.span].
  destruct (f c); [|reflexivity].
  destruct (Regex.span f x) as [a b]. cbn [fst String.length Js.take] in *. now rewrite IH.
Qed.

Lemma take_app_more (a x : string) (n : nat) :
  Js.take (String.length a + n) (a ++ x) = a ++ Js.take n x.
Proof. induction a as [|c a IH]; cbn; [reflexivity | now rewrite IH]. Qed.

Lemma startsWith_first (c : ascii) (r marker : string) (f : ascii -> bool) :
  marker <> "" -> str_forall f marker = true ->
  Js.startsWith (String c r) marker = true -> f c = true.
Proof.
  intros Hne Hf H. destruct marker as [|a m]; [congruence|].
  unfold Js.startsWith in H. cbn [String.prefix] in H.
  destruct (ascii_dec a c) as [<- | _]; [|discriminate].
  unfold str_forall in Hf. cbn in Hf. now apply andb_true_iff in Hf.
Qed.

(** A line that begins with the marker of a line comment is found by the
    scan for that marker, whatever was matched before it. *)
Lemma matchAllLines_finds (marker : string) :
  marker <> "" -> str_forall not_line_terminator marker = true ->
  forall (s : string) (skip : nat) (bol : bool) (i : nat),
    str_forall not_line_terminator (Js.take skip s) = true ->
    (i = 0 -> bol = true /\ skip = 0) ->
    line_start s i ->
    Js.startsWith (Js.drop i s) marker = true ->
    In (rest_of_line (Js.drop (i + String.length marker) s))
       (Regex.matchAllLines (Regex.line_comment marker) skip bol s).
Proof.
  intros Hne Hm. induction s as [|c r IH]; intros skip bol i Hskip H0 Hstart Hopen.
  - exfalso. assert (Hd : Js.drop i "" = "") by (destruct i; reflexivity).
    rewrite Hd in Hopen. destruct marker; [congruence | discriminate].
  - destruct i as [|j].
    + destruct (H0 eq_refl) as [-> ->]. cbn [Regex.matchAllLines].
      cbn [Js.drop] in Hopen. unfold Regex.line_comment at 1. rewrite Hopen. now left.
    + cbn [Js.drop] in Hopen.
      assert (Hstart' : line_start r j).
      { destruct j as [|j2]; [now left|]. right.
        destruct Hstart as [Hz | (j' & c' & rest & Hj & Hd & Hc)]; [discriminate|].
        injection Hj as <-. now exists j2, c', rest. }
      assert (Hfirst : j = 0 -> Js.is_line_terminator c = true).
      { intros ->. destruct Hstart as [Hz | (j' & c' & rest & Hj & Hd & Hc)]; [discriminate|].
        injection Hj as <-. cbn in Hd. now injection Hd as <- _. }
      change (Js.drop (S j + String.length marker) (String c r))
        with (Js.drop (j + String.length marker) r).
      cbn [Regex.matchAllLines]. destruct skip as [|k].
      * destruct bol.
        -- destruct (Regex.line_comment marker (String c r)) as [[len body]|] eqn:Em.
           ++ right. unfold Regex.line_comment in Em.
              destruct (Js.startsWith (String c r) marker) eqn:Es; [|discriminate].
              injection Em as <- <-. apply IH; try assumption.
              ** (* the rest of the match holds no line terminator *)
                 set (body := fst (Regex.span _ (Js.drop (String.length marker) (String c r)))).
                 assert (Ht : Js.take (String.length marker + String.length body) (String c r)
                              = marker ++ body).
                 { rewrite (startsWith_inv _ _ Es) at 1.
                   rewrite take_app_more. unfold body. now rewrite span_take. }
                 assert (Hall : str_forall not_line_terminator (marker ++ body) = true).
                 { rewrite str_forall_app, Hm. apply span_forall. }
                 rewrite <- Ht in Hall.
                 destruct (String.length marker + String.length body) as [|q] eqn:Eq;
                   [reflexivity|].
                 cbn [Js.take] in Hall. unfold str_forall in Hall. cbn in Hall.
                 apply andb_true_iff in Hall. cbn [Nat.sub]. rewrite Nat.sub_0_r.
                 exact (proj2 Hall).
              ** intros ->. exfalso. specialize (Hfirst eq_refl).
                 pose proof (startsWith_first c r marker _ Hne Hm Es) as Hc.
                 unfold not_line_terminator in Hc. now rewrite Hfirst in Hc.
           ++ apply IH; try assumption; try reflexivity.
              intros ->. split; [now apply Hfirst | reflexivity].
        -- apply IH; try assumption; try reflexivity.
           intros ->. split; [now apply Hfirst | reflexivity].
      * assert (Hc : not_line_terminator c = true /\
                     str_forall not_line_terminator (Js.take k r) = true).
        { cbn [Js.take] in Hskip. unfold str_forall in Hskip. cbn in Hskip.
          now apply andb_true_iff in Hskip. }
        destruct Hc as [Hc Hk]. apply IH; try assumption.
        intros ->. exfalso. unfold not_line_terminator in Hc. now rewrite Hfirst in Hc.
Qed.

(** X3.  Every line that begins with [//], [#] or [--] contributes the
    trimmed rest of the line to the comments of the file, also when it lies
    inside a block comment. *)
Theorem line_comments_found (content : string) (i : nat) (marker : string)
  (Hmarker : In marker ["//"; "#"; "--"])
  (Hstart : line_start content i)
  (Hopen : Js.startsWith (Js.drop i content) marker = true) :
  In (Js.trim (rest_of_line (Js.drop (i + String.length marker) content)))
     (extractComments content).
Proof.
  assert (Hfound : In (rest_of_line (Js.drop (i + String.length marker) content))
                      (Regex.matchAllLines (Regex.line_comment marker) 0 true content)).
  { apply matchAllLines_finds; try assumption.
    - simpl in Hmarker. destruct Hmarker as [<- | [<- | [<- | []]]]; discriminate.
    - simpl in Hmarker. destruct Hmarker as [<- | [<- | [<- | []]]]; reflexivity.
    - reflexivity.
    - intros _. split; reflexivity. }
  unfold extractComments. apply in_flat_map.
  simpl in Hmarker. destruct Hmarker as [<- | [<- | [<- | []]]].
  - exists {| name := "C-style single"; regex := Regex.line_comment "//" |}.
    split; [simpl; tauto | now apply in_map].
  - exists {| name := "Hash"; regex := Regex.line_comment "#" |}.
    split; [simpl; tauto | now apply in_map].
  - exists {| name := "SQL"; regex := Regex.line_comment "--" |}.
    split; [simpl; tauto | now apply in_map].
Qed.

Lemma line_comments_found_witness :
  In "see ./docs/guide.md"
     (extractComments "/* header
// see ./docs/guide.md
*/").
Proof.
  assert (Hs : line_start "/* header
// see ./docs/guide.md
*/" 10).
  { right. exists 9, (ascii_of_nat 10), "// see ./docs/guide.md
*/". repeat split. }
  exact (line_comments_found _ 10 "//" (or_introl eq_refl) Hs eq_refl).
Defined.

(** ** Links of check-links.ts *)

Lemma str_length_app (a b : string) :
  String.length (a ++ b) = String.length a + String.length b.
Proof. induction a as [|x a IH]; cbn; [reflexivity | now rewrite IH]. Qed.

Lemma extractLinks_In (comments : list string) (x : string) :
  In x (extractLinks comments) <-> In x (discovered comments).
Proof.
  unfold extractLinks. rewrite extractLinks_discovered, fold_set_add. cbn [app].
  destruct (first_occurrences_spec (discovered comments) []) as [_ H]. rewrite H.
  split; [tauto | intros Hx; split; [assumption | intros []]].
Qed.

Lemma first_occurrences_filter (s1 s2 l : list string) :
  first_occurrences (s1 ++ s2) l
  = filter (fun x => negb (Js.includes s1 x)) (first_occurrences s2 l).
Proof.
  revert s2. induction l as [|x l IH]; intros s2; [reflexivity|]. cbn [first_occurrences].
  destruct (Js.includes s2 x) eqn:E2.
  - assert (E : Js.includes (s1 ++ s2) x = true).
    { apply includes_In, in_or_app. right. now apply includes_In. }
    rewrite E. apply IH.
  - cbn [filter]. destruct (Js.includes s1 x) eqn:E1; cbn [negb].
    + assert (E : Js.includes (s1 ++ s2) x = true).
      { apply includes_In, in_or_app. left. now apply includes_In. }
      rewrite E, <- IH. apply first_occurrences_ext. intros y.
      rewrite !in_app_iff. simpl. apply includes_In in E1. split; [tauto|].
      intros [H | [<- | H]]; tauto.
    + assert (E : Js.includes (s1 ++ s2) x = false).
      { apply includes_not_In. rewrite in_app_iff.
        apply includes_not_In in E1, E2. tauto. }
      rewrite E, <- IH. f_equal. apply first_occurrences_ext. intros y.
      simpl. rewrite !in_app_iff. simpl. tauto.
Qed.

(** X4.  The links of a longer list of comments begin with the links of the
    first comments, unchanged and in the same order; the later comments add
    their own links except those already found. *)
Theorem extractLinks_app (a b : list string) :
  extractLinks (a ++ b)
  = (extractLinks a
     ++ filter (fun x => negb (Js.includes (extractLinks a) x)) (extractLinks b))%list.
Proof.
  unfold extractLinks at 1. rewrite fold_left_app. fold (extractLinks a).
  rewrite extractLinks_discovered, fold_set_add. f_equal.
  rewrite <- (app_nil_r (extractLinks a)) at 1. rewrite first_occurrences_filter.
  unfold extractLinks at 3. now rewrite extractLinks_discovered, fold_set_add.
Qed.

Lemma discovered_token (comments : list string) (link : string) :
  In link (discovered comments) ->
  exists head run,
    In head ["https://"; "http://"; "../"; "./"; "/"] /\ link = head ++ run /\
    run <> "" /\ str_forall Regex.url_char run = true.
Proof.
  unfold discovered. rewrite in_flat_map. intros (c & _ & H).
  rewrite in_app_iff, !in_map_iff in H.
  destruct H as [(tok & <- & H) | (tok & <- & H)]; apply matchAll_In in H;
    destruct H as [s' H]; apply match_run_inv in H;
    destruct H as (n & run & Hp & -> & Hne & Hrun).
  - assert (Hhead : Js.take n s' = "https://" \/ Js.take n s' = "http://").
    { unfold Regex.absolute_prefix in Hp.
      destruct (Js.startsWith s' "https://") eqn:E1.
      - injection Hp as <-. left. apply (startsWith_take s' "https://" E1).
      - destruct (Js.startsWith s' "http://") eqn:E2; [|discriminate].
        injection Hp as <-. right. apply (startsWith_take s' "http://" E2). }
    pose proof (url_char_not_space run Hrun) as Hsp.
    destruct Hhead as [-> | ->];
      rewrite trim_not_space by (rewrite str_forall_app, Hsp; reflexivity);
      eexists _, run; (split; [|split; [reflexivity | split; assumption]]); simpl; tauto.
  - assert (Hhead : Js.take n s' = "../" \/ Js.take n s' = "./" \/ Js.take n s' = "/").
    { unfold Regex.relative_prefix in Hp.
      destruct (Js.startsWith s' "../") eqn:E1.
      - injection Hp as <-. left. apply (startsWith_take s' "../" E1).
      - destruct (Js.startsWith s' "./") eqn:E2.
        + injection Hp as <-. right. left. apply (startsWith_take s' "./" E2).
        + destruct (Js.startsWith s' "/") eqn:E3; [|discriminate].
          injection Hp as <-. right. right. apply (startsWith_take s' "/" E3). }
    pose proof (url_char_not_space run Hrun) as Hsp.
    destruct Hhead as [-> | [-> | ->]];
      rewrite trim_not_space by (rewrite str_forall_app, Hsp; reflexivity);
      eexists _, run; (split; [|split; [reflexivity | split; assumption]]); simpl; tauto.
Qed.

(** X5.  A link emitted by [extractLinks] consists of link characters only:
    it holds no white space and none of the characters that end a token
    (angle brackets, quotes, braces, bar, backslash, caret, backquote, square
    brackets), and it is at least two characters long. *)
Theorem links_hold_link_characters (comments : list string) (link : string)
  (Hemitted : In link (extractLinks comments)) :
  str_forall Regex.url_char link = true /\
  str_forall not_space link = true /\
  2 <= String.length link /\
  Js.trim link = link.
Proof.
  apply extractLinks_In, discovered_token in Hemitted.
  destruct Hemitted as (head & run & Hhead & -> & Hne & Hrun).
  assert (Hh : str_forall Regex.url_char head = true /\ 1 <= String.length head).
  { simpl in Hhead.
    destruct Hhead as [<- | [<- | [<- | [<- | [<- | []]]]]]; split; try reflexivity;
      cbn; lia. }
  destruct Hh as [Hh Hlen].
  assert (Hall : str_forall Regex.url_char (head ++ run) = true).
  { now rewrite str_forall_app, Hh, Hrun. }
  pose proof (url_char_not_space _ Hall) as Hsp.
  split; [exact Hall|]. split; [exact Hsp|]. split; [|now apply trim_not_space].
  rewrite str_length_app. destruct run; [congruence|]. cbn [String.length]. lia.
Qed.

(** ** Web addresses are matched by both patterns *)

Lemma get_app (a b : string) (k : nat) :
  String.get k (a ++ b)
  = if Nat.ltb k (String.length a) then String.get k a
    else String.get (k - String.length a) b.
Proof.
  revert k. induction a as [|x a IH]; intros k; cbn [append String.length].
  - cbn. now rewrite Nat.sub_0_r.
  - destruct k as [|k]; [reflexivity|]. cbn [String.get]. rewrite IH.
    change (Nat.ltb (S k) (S (String.length a))) with (Nat.ltb k (String.length a)).
    reflexivity.
Qed.

Lemma startsWith_get (x p : string) (k : nat) (c : ascii) :
  Js.startsWith x p = true -> String.get k p = Some c -> String.get k x = Some c.
Proof.
  unfold Js.startsWith. revert x k. induction p as [|a p IH]; intros x k H Hk.
  - destruct k; discriminate Hk.
  - destruct x as [|b x]; cbn [String.prefix] in H; [discriminate|].
    destruct (ascii_dec a b) as [<- | _]; [|discriminate].
    destruct k as [|k]; [exact Hk|]. cbn [String.get] in *. now apply IH.
Qed.

Lemma no_slash_get (q : string) (k : nat) :
  no_slash q -> String.get k q <> Some Path.slash.
Proof.
  unfold no_slash, str_forall. revert k. induction q as [|a q IH]; intros k H.
  - destruct k; discriminate.
  - cbn in H. apply andb_true_iff in H. destruct H as [Ha Hq].
    destruct k as [|k]; cbn [String.get].
    + intros [= ->]. discriminate Ha.
    + now apply IH.
Qed.

(** In front of a web address, a text without a slash lets neither pattern
    match before the address. *)
Lemma no_match_before (scheme q tail : string) :
  scheme = "http:" \/ scheme = "https:" ->
  q <> "" -> no_slash q ->
  Regex.relative_prefix (q ++ scheme ++ "//" ++ tail) = None /\
  Regex.absolute_prefix (q ++ scheme ++ "//" ++ tail) = None.
Proof.
  intros Hscheme Hne Hq.
  assert (Hlen : 1 <= String.length q) by (destruct q; [congruence | cbn; lia]).
  assert (Hslash : forall prefix k,
            String.get k prefix = Some Path.slash ->
            Js.startsWith (q ++ scheme ++ "//" ++ tail) prefix = true ->
            String.length q <= k /\
            String.get (k - String.length q) (scheme ++ "//" ++ tail) = Some Path.slash).
  { intros prefix k Hk Hs. pose proof (startsWith_get _ _ _ _ Hs Hk) as Hg.
    rewrite get_app in Hg. destruct (Nat.ltb k (String.length q)) eqn:E.
    - now apply no_slash_get in Hg.
    - apply Nat.ltb_ge in E. split; assumption. }
  assert (Hfalse : forall prefix k,
            String.get k prefix = Some Path.slash -> k <= 5 ->
            Js.startsWith (q ++ scheme ++ "//" ++ tail) prefix = false).
  { intros prefix k Hk Hk5.
    destruct (Js.startsWith (q ++ scheme ++ "//" ++ tail) prefix) eqn:Hs; [|reflexivity].
    exfalso. destruct (Hslash prefix k Hk Hs) as [Hle Hg].
    assert (Hm : k - String.length q <= 4) by lia.
    destruct (k - String.length q) as [|[|[|[|[|m]]]]]; [| | | | |lia];
      destruct Hscheme as [-> | ->]; discriminate Hg. }
  split.
  - unfold Regex.relative_prefix.
    rewrite (Hfalse "../" 2), (Hfalse "./" 1), (Hfalse "/" 0); try reflexivity; lia.
  - unfold Regex.absolute_prefix.
    rewrite (Hfalse "http://" 5 eq_refl) by lia.
    destruct (Js.startsWith (q ++ scheme ++ "//" ++ tail) "https://") eqn:Hs; [|reflexivity].
    exfalso. destruct (Hslash "https://" 6 eq_refl Hs) as [Hle Hg].
    pose proof (startsWith_get _ _ 1 "t"%char Hs eq_refl) as Ht.
    rewrite get_app in Ht.
    assert (Hm : 6 - String.length q <= 5) by lia.
    destruct (6 - String.length q) as [|[|[|[|[|[|m]]]]]] eqn:Em; [| | | | | |lia];
      destruct Hscheme as [-> | ->]; try discriminate Hg.
    assert (Hq1 : String.length q = 1) by lia.
    rewrite Hq1 in Ht. cbn in Ht. discriminate Ht.
Qed.

Lemma matchAll_skip_prefix (m : string -> option string) (pre s : string)
  (okay : string -> Prop) :
  (forall c q, okay (String c q) -> okay q) ->
  (forall q, q <> "" -> okay q -> m (q ++ s) = None) ->
  okay pre ->
  Regex.matchAll m 0 (pre ++ s) = Regex.matchAll m 0 s.
Proof.
  intros Htail Hnone. induction pre as [|c pre IH]; intros Hpre; [reflexivity|].
  cbn [append Regex.matchAll].
  change (String c (pre ++ s)) with (String c pre ++ s).
  rewrite (Hnone (String c pre)) by (discriminate || assumption).
  apply IH. now apply (Htail c).
Qed.

Lemma no_slash_tail (c : ascii) (q : string) : no_slash (String c q) -> no_slash q.
Proof.
  unfold no_slash, str_forall. cbn. intros H. now apply andb_true_iff in H.
Qed.

Lemma span_cons (f : ascii -> bool) (c : ascii) (s : string) :
  f c = true -> fst (Regex.span f (String c s)) = String c (fst (Regex.span f s)).
Proof. intros H. cbn [Regex.span]. rewrite H. now destruct (Regex.span f s). Qed.

Lemma match_run_some (prefix_len : string -> option nat) (cls : ascii -> bool)
  (s : string) (n : nat) :
  prefix_len s = Some n ->
  (fst (Regex.span cls (Js.drop n s)) =? "") = false ->
  Regex.match_run prefix_len cls s
  = Some (Js.take n s ++ fst (Regex.span cls (Js.drop n s))).
Proof. unfold Regex.match_run. intros -> H. cbv zeta. now rewrite H. Qed.

Lemma web_address_matches (scheme pre tail : string) :
  scheme = "http:" \/ scheme = "https:" ->
  no_slash pre -> link_run tail <> "" ->
  In (scheme ++ "//" ++ link_run tail)
     (Regex.matchAll ABSOLUTE_URL_PATTERN 0 (pre ++ scheme ++ "//" ++ tail)) /\
  In ("//" ++ link_run tail)
     (Regex.matchAll RELATIVE_PATH_PATTERN 0 (pre ++ scheme ++ "//" ++ tail)).
Proof.
  intros Hscheme Hpre Hrun. apply String.eqb_neq in Hrun. split.
  - rewrite (matchAll_skip_prefix _ pre _ no_slash no_slash_tail); [|
      intros q Hq1 Hq2; unfold ABSOLUTE_URL_PATTERN, Regex.match_run;
      now rewrite (proj2 (no_match_before scheme q tail Hscheme Hq1 Hq2)) | exact Hpre].
    destruct Hscheme as [-> | ->].
    + assert (E : ABSOLUTE_URL_PATTERN ("http:" ++ "//" ++ tail)
                  = Some ("http:" ++ "//" ++ link_run tail)).
      { unfold ABSOLUTE_URL_PATTERN, Regex.match_run, Regex.absolute_prefix.
        change ("http:" ++ "//" ++ tail) with ("http://" ++ tail).
        change (Js.startsWith ("http://" ++ tail) "https://") with false.
        rewrite startsWith_app. cbv iota.
        change 7 with (String.length "http://").
        rewrite drop_app_length, take_app_length. fold (link_run tail).
        rewrite Hrun. reflexivity. }
      change ("http:" ++ "//" ++ tail) with (String "h" ("ttp://" ++ tail)) in *.
      cbn [Regex.matchAll]. rewrite E. now left.
    + assert (E : ABSOLUTE_URL_PATTERN ("https:" ++ "//" ++ tail)
                  = Some ("https:" ++ "//" ++ link_run tail)).
      { unfold ABSOLUTE_URL_PATTERN, Regex.match_run, Regex.absolute_prefix.
        change ("https:" ++ "//" ++ tail) with ("https://" ++ tail).
        rewrite startsWith_app.
        change 8 with (String.length "https://").
        rewrite drop_app_length, take_app_length. fold (link_run tail).
        rewrite Hrun. reflexivity. }
      change ("https:" ++ "//" ++ tail) with (String "h" ("ttps://" ++ tail)) in *.
      cbn [Regex.matchAll]. rewrite E. now left.
  - rewrite (matchAll_skip_prefix _ pre _ no_slash no_slash_tail); [|
      intros q Hq1 Hq2; unfold RELATIVE_PATH_PATTERN, Regex.match_run;
      now rewrite (proj1 (no_match_before scheme q tail Hscheme Hq1 Hq2)) | exact Hpre].
    assert (E : RELATIVE_PATH_PATTERN ("//" ++ tail) = Some ("//" ++ link_run tail)).
    { unfold RELATIVE_PATH_PATTERN.
      rewrite (match_run_some Regex.relative_prefix Regex.url_char ("//" ++ tail) 1 eq_refl).
      - change (Js.drop 1 ("//" ++ tail)) with (String "/" tail).
        rewrite span_cons by reflexivity. reflexivity.
      - change (Js.drop 1 ("//" ++ tail)) with (String "/" tail).
        rewrite span_cons by reflexivity. reflexivity. }
    assert (Hskip : forall scheme', scheme' = "http:" \/ scheme' = "https:" ->
              Regex.matchAll RELATIVE_PATH_PATTERN 0 (scheme' ++ "//" ++ tail)
              = Regex.matchAll RELATIVE_PATH_PATTERN 0 ("//" ++ tail)).
    { intros scheme' [-> | ->]; reflexivity. }
    rewrite (Hskip scheme Hscheme).
    change ("//" ++ tail) with (String "/" (String "/" tail)) in *.
    cbn [Regex.matchAll]. rewrite E. now left.
Qed.

(** X6.  A web address in a comment is listed twice by check-links.ts: once
    as the absolute link and once more, from its two slashes on, as a
    relative link.  This holds whenever no slash stands before the address in
    the cleaned comment. *)
Theorem web_address_listed_twice (comments : list string) (c scheme pre tail : string)
  (Hin : In c comments)
  (Hscheme : scheme = "http:" \/ scheme = "https:")
  (Hclean : cleanComment c = pre ++ scheme ++ "//" ++ tail)
  (Hpre : no_slash pre)
  (Hrun : link_run tail <> "") :
  In (scheme ++ "//" ++ link_run tail) (extractLinks comments) /\
  In ("//" ++ link_run tail) (extractLinks comments) /\
  classify (scheme ++ "//" ++ link_run tail) = Absolute /\
  classify ("//" ++ link_run tail) = Relative.
Proof.
  destruct (web_address_matches scheme pre tail Hscheme Hpre Hrun) as [Habs Hrel].
  rewrite <- Hclean in Habs, Hrel.
  assert (Hchars : str_forall not_space (link_run tail) = true).
  { apply url_char_not_space, span_forall. }
  assert (Htrim1 : Js.trim (scheme ++ "//" ++ link_run tail) = scheme ++ "//" ++ link_run tail).
  { apply trim_not_space. rewrite !str_forall_app, Hchars.
    destruct Hscheme as [-> | ->]; reflexivity. }
  assert (Htrim2 : Js.trim ("//" ++ link_run tail) = "//" ++ link_run tail).
  { apply trim_not_space. now rewrite str_forall_app, Hchars. }
  split; [|split; [|split]].
  - apply extractLinks_In. unfold discovered. apply in_flat_map. exists c.
    split; [exact Hin|]. apply in_or_app. left. rewrite <- Htrim1. now apply in_map.
  - apply extractLinks_In. unfold discovered. apply in_flat_map. exists c.
    split; [exact Hin|]. apply in_or_app. right. rewrite <- Htrim2. now apply in_map.
  - destruct Hscheme as [-> | ->]; reflexivity.
  - reflexivity.
Qed.

Lemma web_address_listed_twice_witness :
  In "https://api.example.com/docs" (extractLinks ["see https://api.example.com/docs now"]) /\
  In "//api.example.com/docs" (extractLinks ["see https://api.example.com/docs now"]).
Proof.
  assert (Hrun : link_run "api.example.com/docs now" <> "") by discriminate.
  pose proof (web_address_listed_twice ["see https://api.example.com/docs now"]
                "see https://api.example.com/docs now" "https:" "see "
                "api.example.com/docs now" (or_introl eq_refl) (or_intror eq_refl)
                eq_refl eq_refl Hrun) as H.
  split; [exact (proj1 H) | exact (proj1 (proj2 H))].
Defined.

Lemma links_hold_link_characters_witness :
  In "../docs/guide.md" (extractLinks ["see <../docs/guide.md>"]) /\
  str_forall Regex.url_char "../docs/guide.md" = true.
Proof.
  assert (H : In "../docs/guide.md" (extractLinks ["see <../docs/guide.md>"])).
  { vm_compute. now left. }
  split; [exact H | exact (proj1 (links_hold_link_characters _ _ H))].
Defined.

(** ** The results of a scan *)

Section Results.

Variable cwd : string.
Variable readFileSync : string -> option string.

Lemma parseFilesForLinks_app (a b : list string) :
  parseFilesForLinks readFileSync (a ++ b)
  = (parseFilesForLinks readFileSync a ++ parseFilesForLinks readFileSync b)%list.
Proof.
  induction a as [|f a IH]; [reflexivity|]. cbn [app parseFilesForLinks].
  destruct (parseFile readFileSync f); rewrite IH; reflexivity.
Qed.

Lemma parseFile_filename (file : string) (r : FileResult) :
  parseFile readFileSync file = Some r ->
  filename r = file /\ links r <> [] /\
  map url (links r) = extractLinks (extractComments
                         match readFileSync file with Some t => t | None => "" end) /\
  forall l, In l (links r) -> type l = classify (url l).
Proof.
  unfold parseFile, getFileContent. cbv zeta.
  destruct (readFileSync file) as [text|]; [|discriminate]. cbv beta iota.
  destruct (text =? ""); [discriminate|].
  destruct (extractLinks (extractComments text)) as [|x xs] eqn:E; [discriminate|].
  intros [= <-]. cbn [filename links].
  split; [reflexivity|]. split; [discriminate|]. split.
  - cbn [map url]. f_equal. rewrite map_map. cbn [url]. apply map_id.
  - intros l [<- | Hl]; [reflexivity|].
    apply in_map_iff in Hl. destruct Hl as (y & <- & _). reflexivity.
Qed.

Lemma has_links_parseFile (file : string) :
  has_links readFileSync file
  = match parseFile readFileSync file with Some _ => true | None => false end.
Proof.
  unfold has_links, parseFile, getFileContent. cbv zeta.
  destruct (readFileSync file) as [text|]; [|reflexivity].
  destruct (text =? ""); [reflexivity|]. cbn [negb andb].
  now destruct (extractLinks (extractComments text)).
Qed.

Lemma extractLinks_NoDup (comments : list string) : NoDup (extractLinks comments).
Proof.
  unfold extractLinks. rewrite extractLinks_discovered, fold_set_add. cbn [app].
  apply first_occurrences_spec.
Qed.

(** X7.  [parseFilesForLinks] keeps the order of the files and gives one
    result for each file that can be read, is not empty and holds a link, and
    none for the others; the results of a list of files are those of its
    parts put together.  In a result no link text occurs twice and every
    link carries the kind that its text determines. *)
Theorem scan_results (a b files : list string) :
  parseFilesForLinks readFileSync (a ++ b)
  = (parseFilesForLinks readFileSync a ++ parseFilesForLinks readFileSync b)%list /\
  map filename (parseFilesForLinks readFileSync files)
  = filter (has_links readFileSync) files /\
  (forall file, readFileSync file = None \/ readFileSync file = Some "" ->
     has_links readFileSync file = false) /\
  (forall r, In r (parseFilesForLinks readFileSync files) ->
     links r <> [] /\ NoDup (map url (links r)) /\
     forall l, In l (links r) -> type l = classify (url l)).
Proof.
  split; [apply parseFilesForLinks_app|]. split; [|split].
  - induction files as [|f fs IH]; [reflexivity|]. cbn [parseFilesForLinks filter].
    rewrite has_links_parseFile. destruct (parseFile readFileSync f) as [r|] eqn:E.
    + cbn [map]. rewrite IH. f_equal. now apply parseFile_filename in E.
    + exact IH.
  - intros file [H | H]; unfold has_links; rewrite H; reflexivity.
  - intros r Hr. apply parseFilesForLinks_In in Hr. destruct Hr as (file & _ & Hp).
    apply parseFile_filename in Hp. destruct Hp as (_ & Hne & Hurls & Hty).
    split; [exact Hne|]. split; [|exact Hty]. rewrite Hurls. apply extractLinks_NoDup.
Qed.

(** ** The decision does not depend on order *)

Lemma bool_eq_iff (b1 b2 : bool) : (b1 = true <-> b2 = true) -> b1 = b2.
Proof.
  destruct b1, b2; intros [H1 H2]; try reflexivity.
  - symmetry. now apply H1.
  - now apply H2.
Qed.

(** X8.  The template chosen depends on the results and on the changed files
    only through the links that each file holds and the files that are
    listed: two runs with the same pairs of file and link and the same
    changed files, in any order and with any repetition, choose the same
    template.  Listing more changed files never turns an all-updated run
    into a pending one. *)
Theorem decision_order_insensitive (results results' : list FileResult)
  (changedFiles changedFiles' : list string)
  (Hempty : results = [] <-> results' = [])
  (Hlinks : forall f l,
      (exists r, In r results /\ filename r = f /\ In l (links r)) <->
      (exists r, In r results' /\ filename r = f /\ In l (links r)))
  (Hchanged : forall x, In x changedFiles <-> In x changedFiles') :
  templateNameOf cwd results changedFiles = templateNameOf cwd results' changedFiles' /\
  (forall more,
     checkAllLinksUpdated cwd results changedFiles = true ->
     checkAllLinksUpdated cwd results (changedFiles ++ more) = true).
Proof.
  assert (Hpaths : forall x, In x (changedFilePathsOf cwd changedFiles) <->
                             In x (changedFilePathsOf cwd changedFiles')).
  { intros x. unfold changedFilePathsOf. rewrite !in_map_iff.
    split; intros (f & Hf & Hin); exists f; (split; [exact Hf | now apply Hchanged]). }
  assert (Hcheck : checkAllLinksUpdated cwd results changedFiles
                   = checkAllLinksUpdated cwd results' changedFiles').
  { apply bool_eq_iff. rewrite !checkAllLinksUpdated_true. unfold touched. split.
    - intros H r' l Hr' Hl.
      destruct (proj2 (Hlinks (filename r') l)) as (r & Hr & Hf & Hlr); [now exists r'|].
      destruct (H r l Hr Hlr) as [Ht Hin]. split; [exact Ht|].
      rewrite <- Hf. now apply Hpaths.
    - intros H r l Hr Hl.
      destruct (proj1 (Hlinks (filename r) l)) as (r' & Hr' & Hf & Hlr); [now exists r|].
      destruct (H r' l Hr' Hlr) as [Ht Hin]. split; [exact Ht|].
      rewrite <- Hf. now apply Hpaths. }
  split.
  - unfold templateNameOf. rewrite Hcheck.
    destruct results as [|r rs], results' as [|r' rs']; try reflexivity.
    + destruct Hempty as [H _]. specialize (H eq_refl). discriminate.
    + destruct Hempty as [_ H]. specialize (H eq_refl). discriminate.
  - intros more. rewrite !checkAllLinksUpdated_true. unfold touched, changedFilePathsOf.
    intros H r l Hr Hl. destruct (H r l Hr Hl) as [Ht Hin]. split; [exact Ht|].
    rewrite map_app. apply in_or_app. now left.
Qed.

End Results.

Lemma decision_order_insensitive_witness :
  templateNameOf "/repo"
    [ {| filename := "a.js"; links := [ {| url := "./b.md"; type := Relative |} ] |};
      {| filename := "c.js"; links := [ {| url := "./d.md"; type := Relative |} ] |} ]
    ["b.md"; "d.md"]
  = templateNameOf "/repo"
    [ {| filename := "c.js"; links := [ {| url := "./d.md"; type := Relative |} ] |};
      {| filename := "a.js"; links := [ {| url := "./b.md"; type := Relative |} ] |} ]
    ["d.md"; "b.md"; "d.md"].
Proof.
  apply decision_order_insensitive.
  - split; discriminate.
  - intros f l. split; intros (r & [<- | [<- | []]] & Hf & Hl); eexists;
      (split; [|split; [exact Hf | exact Hl]]); simpl; tauto.
  - intros x. simpl. tauto.
Defined.

(** ** The text of the report *)

Section ReportText.

Variable cwd : string.
Variable ACTION_PATH : string.
Variable readFileSync : string -> option string.

Lemma linkMarkdown_acc (owner repo sha fileLink file acc : string) (link : Link) :
  linkMarkdown cwd owner repo sha fileLink file acc link
  = acc ++ linkMarkdown cwd owner repo sha fileLink file "" link.
Proof.
  unfold linkMarkdown. cbv zeta.
  destruct (LinkType_eqb (type link) Relative); rewrite !str_app_assoc; reflexivity.
Qed.

Lemma fold_linkMarkdown (owner repo sha fileLink file : string) (ls : list Link)
  (acc : string) :
  fold_left (linkMarkdown cwd owner repo sha fileLink file) ls acc
  = acc ++ fold_right append ""
             (map (linkMarkdown cwd owner repo sha fileLink file "") ls).
Proof.
  revert acc. induction ls as [|l ls IH]; intros acc; cbn [fold_left map fold_right].
  - clear. induction acc as [|c acc IH]; cbn [append]; [reflexivity | now rewrite <- IH].
  - rewrite IH, linkMarkdown_acc, str_app_assoc. reflexivity.
Qed.

Lemma app_empty_r (s : string) : s ++ "" = s.
Proof. induction s as [|c s IH]; cbn [append]; [reflexivity | now rewrite IH]. Qed.

Lemma fold_right_append_app (a b : list string) :
  fold_right append "" (a ++ b) = fold_right append "" a ++ fold_right append "" b.
Proof.
  induction a as [|x a IH]; cbn [app fold_right]; [reflexivity|].
  rewrite IH, str_app_assoc. reflexivity.
Qed.

Lemma resultMarkdown_blocks (owner repo sha acc : string) (r : FileResult) :
  resultMarkdown cwd owner repo sha acc r
  = acc ++ fold_right append "" (map (linkBlock cwd owner repo sha (filename r)) (links r)).
Proof.
  unfold resultMarkdown. cbv zeta. rewrite fold_linkMarkdown. reflexivity.
Qed.

Lemma fold_resultMarkdown (owner repo sha : string) (results : list FileResult)
  (acc : string) :
  fold_left (resultMarkdown cwd owner repo sha) results acc
  = acc ++ fold_right append "" (linkBlocks cwd owner repo sha results).
Proof.
  revert acc. induction results as [|r rs IH]; intros acc;
    cbn [fold_left linkBlocks flat_map fold_right].
  - now rewrite app_empty_r.
  - rewrite IH, resultMarkdown_blocks, fold_right_append_app, str_app_assoc. reflexivity.
Qed.

Lemma fold_sum (results : list FileResult) (n : nat) :
  fold_left (fun sum r => sum + List.length (links r)) results n
  = n + List.length (flat_map links results).
Proof.
  revert n. induction results as [|r rs IH]; intros n; cbn [fold_left flat_map].
  - cbn. lia.
  - rewrite IH, length_app. lia.
Qed.

Lemma totalLinks_flat (results : list FileResult) :
  totalLinks results = List.length (flat_map links results).
Proof. unfold totalLinks. now rewrite fold_sum. Qed.

Lemma linkBlocks_length (owner repo sha : string) (results : list FileResult) :
  List.length (linkBlocks cwd owner repo sha results) = totalLinks results.
Proof.
  rewrite totalLinks_flat. induction results as [|r rs IH]; [reflexivity|].
  cbn [linkBlocks flat_map]. rewrite !length_app, length_map. unfold linkBlocks in IH.
  now rewrite IH.
Qed.

(** X9.  The list of links of the report is made of one block of lines for
    each link, in the order of the results and, within a result, of its
    links: the text for a list of results is the text for its parts put
    together, and the count shown in the report is the number of these
    blocks.  With results that come from a scan the count is at least the
    number of files listed. *)
Theorem links_text_by_blocks (owner repo sha : string) (a b results : list FileResult)
  (files : list string) :
  fold_left (resultMarkdown cwd owner repo sha) results ""
  = fold_right append "" (linkBlocks cwd owner repo sha results) /\
  fold_left (resultMarkdown cwd owner repo sha) (a ++ b) ""
  = fold_left (resultMarkdown cwd owner repo sha) a ""
    ++ fold_left (resultMarkdown cwd owner repo sha) b "" /\
  List.length (linkBlocks cwd owner repo sha results) = totalLinks results /\
  totalLinks (a ++ b) = totalLinks a + totalLinks b /\
  List.length (parseFilesForLinks readFileSync files)
  <= totalLinks (parseFilesForLinks readFileSync files).
Proof.
  split; [apply (fold_resultMarkdown owner repo sha results "")|].
  split.
  - rewrite !fold_resultMarkdown. cbn [append]. unfold linkBlocks.
    rewrite flat_map_app. apply fold_right_append_app.
  - split; [apply linkBlocks_length|]. split.
    + rewrite !totalLinks_flat, flat_map_app, length_app. reflexivity.
    + rewrite totalLinks_flat.
      assert (H : forall r, In r (parseFilesForLinks readFileSync files) -> links r <> []).
      { intros r Hr. apply parseFilesForLinks_In in Hr. destruct Hr as (file & _ & Hp).
        now apply parseFile_filename in Hp. }
      induction (parseFilesForLinks readFileSync files) as [|r rs IH]; [apply Nat.le_refl|].
      cbn [flat_map List.length]. rewrite length_app.
      assert (Hr : links r <> []) by (apply H; now left).
      assert (Hrs : List.length rs <= List.length (flat_map links rs)).
      { apply IH. intros r' Hr'. apply H. now right. }
      destruct (links r) as [|l ls]; [congruence|]. cbn [List.length]. lia.
Qed.

End ReportText.

(** ** Filling the template *)

Lemma getSubstitution_plain (matched before after r : string) :
  no_char "$" r -> Js.getSubstitution matched before after r = r.
Proof.
  unfold no_char, str_forall. induction r as [|c r IH]; [reflexivity|].
  cbn [list_ascii_of_string forallb Js.getSubstitution]. intros H.
  apply andb_true_iff in H. destruct H as [Hc Hr].
  apply negb_true_iff in Hc. rewrite Hc. now rewrite IH.
Qed.

Lemma getSubstitution_app_plain (matched before after x r : string) :
  no_char "$" x ->
  Js.getSubstitution matched before after (x ++ r)
  = x ++ Js.getSubstitution matched before after r.
Proof.
  unfold no_char, str_forall. induction x as [|c x IH]; [reflexivity|].
  cbn [list_ascii_of_string forallb append]. intros H.
  apply andb_true_iff in H. destruct H as [Hc Hx].
  apply negb_true_iff in Hc. cbn [Js.getSubstitution]. rewrite Hc. now rewrite IH.
Qed.

Lemma string_of_uint_forall (P : ascii -> bool) (d : Decimal.uint) :
  str_forall P "0123456789" = true ->
  str_forall P (NilEmpty.string_of_uint d) = true.
Proof.
  unfold str_forall. cbn [list_ascii_of_string forallb]. intros H.
  repeat (apply andb_true_iff in H; let Hd := fresh "Hd" in destruct H as [Hd H]).
  induction d as [|d IH|d IH|d IH|d IH|d IH|d IH|d IH|d IH|d IH|d IH];
    cbn [NilEmpty.string_of_uint list_ascii_of_string forallb]; [reflexivity|..];
    rewrite IH, andb_true_r; assumption.
Qed.

Lemma ofNat_no_char (x : ascii) (n : nat) :
  no_char x "0123456789" -> no_char x (Js.ofNat n).
Proof. unfold no_char, Js.ofNat. apply string_of_uint_forall. Qed.

Lemma no_char_app (x : ascii) (a b : string) :
  no_char x (a ++ b) <-> no_char x a /\ no_char x b.
Proof.
  unfold no_char. rewrite str_forall_app. apply andb_true_iff.
Qed.

Lemma no_char_before (x : ascii) (a rest p : string) (j : nat) :
  no_char x a -> j < String.length a ->
  Js.startsWith (Js.drop j (a ++ rest)) (String x p) = false.
Proof.
  unfold no_char, str_forall. revert j. induction a as [|c a IH]; intros j H Hj.
  - cbn in Hj. lia.
  - cbn [list_ascii_of_string forallb] in H. apply andb_true_iff in H.
    destruct H as [Hc Ha]. destruct j as [|j]; cbn [append Js.drop].
    + unfold Js.startsWith. cbn [String.prefix].
      destruct (ascii_dec x c) as [<- | _]; [|reflexivity].
      rewrite Ascii.eqb_refl in Hc. discriminate.
    + apply IH; [assumption | cbn in Hj; lia].
Qed.

Section Filling.

Variable cwd : string.
Variable ACTION_PATH : string.
Variable readFileSync : string -> option string.

Lemma replace_both (a b c count linksOutput : string) :
  no_char "{" a -> no_char "{" b -> no_char "{" count -> no_char "$" count ->
  Js.replace
    (Js.replace (a ++ "{{LINK_COUNT}}" ++ b ++ "{{LINKS}}" ++ c) "{{LINK_COUNT}}" count)
    "{{LINKS}}" linksOutput
  = a ++ count ++ b
      ++ Js.getSubstitution "{{LINKS}}" (a ++ count ++ b) c linksOutput ++ c.
Proof.
  intros Ha Hb Hcount Hdollar.
  rewrite (replace_first a "{{LINK_COUNT}}" (b ++ "{{LINKS}}" ++ c) count).
  2:{ intros j Hj. now apply no_char_before with (x := "{"%char). }
  rewrite (getSubstitution_plain _ _ _ count Hdollar).
  replace (a ++ count ++ b ++ "{{LINKS}}" ++ c)
    with ((a ++ count ++ b) ++ "{{LINKS}}" ++ c) by (now rewrite !str_app_assoc).
  rewrite (replace_first (a ++ count ++ b) "{{LINKS}}" c linksOutput).
  - now rewrite !str_app_assoc.
  - intros j Hj. apply no_char_before with (x := "{"%char); [|assumption].
    apply no_char_app. split; [assumption|]. apply no_char_app. now split.
Qed.

Lemma compile_with_results (owner repo sha : string) (results : list FileResult)
  (changedFiles : list string) (a b c : string) :
  results <> [] ->
  readFileSync (templatePathsMap cwd ACTION_PATH (templateNameOf cwd results changedFiles))
  = Some (a ++ "{{LINK_COUNT}}" ++ b ++ "{{LINKS}}" ++ c) ->
  no_char "{" a -> no_char "{" b ->
  compileTemplateFromLinks cwd ACTION_PATH readFileSync owner repo sha results changedFiles
  = Normal (a ++ Js.ofNat (totalLinks results) ++ b
            ++ Js.getSubstitution "{{LINKS}}" (a ++ Js.ofNat (totalLinks results) ++ b) c
                 (fold_left (resultMarkdown cwd owner repo sha) results "")
            ++ c).
Proof.
  intros Hne Hread Ha Hb.
  unfold compileTemplateFromLinks, templateNameOf in *. cbv zeta in *.
  destruct results as [|r rs]; [congruence|].
  change (Nat.eqb (List.length (r :: rs)) 0) with false in *. cbv beta iota in *.
  change (negb false) with true in *. cbn [andb] in *.
  unfold executeTemplate, getFileContent. cbv zeta. rewrite Hread.
  assert (Hnonempty : (a ++ "{{LINK_COUNT}}" ++ b ++ "{{LINKS}}" ++ c =? "") = false).
  { destruct a; reflexivity. }
  rewrite Hnonempty. f_equal. apply replace_both; try assumption.
  - apply ofNat_no_char. reflexivity.
  - apply ofNat_no_char. reflexivity.
Qed.

(** X10.  With at least one result, and a template that holds the count
    placeholder and after it the list placeholder, no brace coming before
    either, the report is the template with the number of links in place of
    the first and the list of links in place of the second, provided the
    list holds no dollar sign: the text before, between and after the
    placeholders is kept as it is. *)
Theorem report_fills_template (owner repo sha : string) (results : list FileResult)
  (changedFiles : list string) (a b c : string)
  (Hresults : results <> [])
  (Htemplate :
     readFileSync (templatePathsMap cwd ACTION_PATH (templateNameOf cwd results changedFiles))
     = Some (a ++ "{{LINK_COUNT}}" ++ b ++ "{{LINKS}}" ++ c))
  (Ha : no_char "{" a) (Hb : no_char "{" b)
  (Hlinks : no_char "$" (fold_left (resultMarkdown cwd owner repo sha) results "")) :
  compileTemplateFromLinks cwd ACTION_PATH readFileSync owner repo sha results changedFiles
  = Normal (a ++ Js.ofNat (totalLinks results) ++ b
            ++ fold_left (resultMarkdown cwd owner repo sha) results "" ++ c).
Proof.
  rewrite (compile_with_results owner repo sha results changedFiles a b c) by assumption.
  now rewrite getSubstitution_plain.
Qed.

(** X11.  The list of links is inserted as a replacement text of
    [String.prototype.replace], so a dollar sign in it is not always kept: where
    the list holds a dollar sign followed by an ampersand, the report shows
    the list placeholder itself in their place. *)
Theorem dollar_in_links_rewritten (owner repo sha : string) (results : list FileResult)
  (changedFiles : list string) (a b c x y : string)
  (Hresults : results <> [])
  (Htemplate :
     readFileSync (templatePathsMap cwd ACTION_PATH (templateNameOf cwd results changedFiles))
     = Some (a ++ "{{LINK_COUNT}}" ++ b ++ "{{LINKS}}" ++ c))
  (Ha : no_char "{" a) (Hb : no_char "{" b)
  (Hlinks : fold_left (resultMarkdown cwd owner repo sha) results "" = x ++ "$&" ++ y)
  (Hx : no_char "$" x) :
  compileTemplateFromLinks cwd ACTION_PATH readFileSync owner repo sha results changedFiles
  = Normal (a ++ Js.ofNat (totalLinks results) ++ b ++ x ++ "{{LINKS}}"
            ++ Js.getSubstitution "{{LINKS}}" (a ++ Js.ofNat (totalLinks results) ++ b) c y
            ++ c).
Proof.
  rewrite (compile_with_results owner repo sha results changedFiles a b c) by assumption.
  rewrite Hlinks, getSubstitution_app_plain by assumption.
  change ("$&" ++ y) with (String "$" (String "&" y)).
  cbn [Js.getSubstitution]. change (Ascii.eqb "$" "$") with true.
  change (Ascii.eqb "&" "$") with false. change (Ascii.eqb "&" "&") with true.
  cbv beta iota. now rewrite !str_app_assoc.
Qed.

End Filling.

Lemma report_fills_template_witness :
  compileTemplateFromLinks "/repo" "/action" pending_template "o" "r" "abc"
    listed_result ["src/app.js"]
  = Normal ("Found " ++ Js.ofNat (totalLinks listed_result) ++ " links:
" ++ fold_left (resultMarkdown "/repo" "o" "r" "abc") listed_result "" ++ "Thanks.").
Proof.
  apply (report_fills_template "/repo" "/action" pending_template "o" "r" "abc"
           listed_result ["src/app.js"] "Found " " links:
" "Thanks.").
  - discriminate.
  - vm_compute. reflexivity.
  - vm_compute. reflexivity.
  - vm_compute. reflexivity.
  - vm_compute. reflexivity.
Defined.

Lemma dollar_in_links_rewritten_witness :
  compileTemplateFromLinks "/repo" "/action" pending_template "o" "r" "abc"
    dollar_result ["src/app.js"]
  = Normal "Found 1 links:
- `https://example.com/a{{LINKS}}b` (absolute)
  Referenced in: [`src/app.js`](https://github.com/o/r/blob/abc/src/app.js)

Thanks.".
Proof.
  rewrite (dollar_in_links_rewritten "/repo" "/action" pending_template "o" "r" "abc"
           dollar_result ["src/app.js"] "Found " " links:
" "Thanks." "- `https://example.com/a"
           (Js.drop 26 (fold_left (resultMarkdown "/repo" "o" "r" "abc") dollar_result ""))).
  - vm_compute. reflexivity.
  - discriminate.
  - vm_compute. reflexivity.
  - vm_compute. reflexivity.
  - vm_compute. reflexivity.
  - vm_compute. reflexivity.
  - vm_compute. reflexivity.
Defined.

(** ** The changed files *)

Lemma split_on_slash (s : string) : split_on "/" s = Path.split s.
Proof.
  induction s as [|c s IH]; [reflexivity|]. cbn [split_on Path.split].
  now rewrite IH.
Qed.

Lemma split_on_not_nil (sep : ascii) (s : string) : split_on sep s <> [].
Proof.
  induction s as [|c s IH]; cbn [split_on]; [discriminate|].
  destruct (Ascii.eqb c sep); [discriminate|].
  destruct (split_on sep s); [congruence | discriminate].
Qed.

Lemma split_on_no_sep (sep : ascii) (s : string) :
  Forall (no_char sep) (split_on sep s).
Proof.
  induction s as [|c s IH]; cbn [split_on].
  - constructor; [reflexivity | constructor].
  - destruct (Ascii.eqb c sep) eqn:E.
    + constructor; [reflexivity | assumption].
    + destruct (split_on sep s) as [|h t] eqn:Es; [contradiction (split_on_not_nil sep s Es)|].
      inversion IH as [|? ? Hh Ht]; subst. constructor; [|assumption].
      unfold no_char, str_forall in *. cbn [list_ascii_of_string forallb].
      now rewrite E, Hh.
Qed.

Lemma split_on_concat (sep : ascii) (s : string) :
  String.concat (String sep "") (split_on sep s) = s.
Proof.
  induction s as [|c s IH]; cbn [split_on]; [reflexivity|].
  destruct (Ascii.eqb c sep) eqn:E.
  - apply Ascii.eqb_eq in E. subst c.
    destruct (split_on sep s) as [|h t] eqn:Es; [contradiction (split_on_not_nil sep s Es)|].
    cbn [String.concat append] in *. now rewrite IH.
  - destruct (split_on sep s) as [|h t] eqn:Es; [contradiction (split_on_not_nil sep s Es)|].
    destruct t as [|h' t]; cbn [String.concat append] in *; now rewrite IH.
Qed.

Lemma filter_twice {A} (f g : A -> bool) (l : list A) :
  filter f (filter g l) = filter (fun x => g x && f x) l.
Proof.
  induction l as [|x l IH]; [reflexivity|]. cbn [filter].
  destruct (g x); cbn [andb filter]; [destruct (f x)|]; now rewrite IH.
Qed.

Section ChangedFiles.

Variable cwd : string.
Variable existsSync : string -> bool.

(** X12.  [getChangedFiles] lists, in the order of the output of git, the
    lines that name a file which exists and is not under [.github/]: no
    empty line, no file that the change deleted and no file of [.github/] is
    ever listed, and no listed name holds a line feed.  The lines, joined by
    line feeds, are the trimmed output.  The list is that of the first
    revision of the script without the files under [.github/].  When the git
    command fails the list is empty. *)
Theorem changed_files_listed (output error : string) :
  let lines := split_on newline (Js.trim output) in
  String.concat (String newline "") lines = Js.trim output /\
  (forall f, In f (getChangedFiles existsSync (Normal output)) <->
     In f lines /\ f <> "" /\ existsSync f = true /\
     Js.startsWith f ".github/" = false) /\
  (forall f, In f (getChangedFiles existsSync (Normal output)) -> no_char newline f) /\
  getChangedFiles existsSync (Normal output)
  = filter (fun f => negb (Js.startsWith f ".github/"))
      (LegacyScan.getChangedFiles existsSync (Normal output)) /\
  getChangedFiles existsSync (Throw error) = [].
Proof.
  intros lines. split; [apply split_on_concat|].
  assert (Hin : forall f, In f (getChangedFiles existsSync (Normal output)) <->
     In f lines /\ f <> "" /\ existsSync f = true /\
     Js.startsWith f ".github/" = false).
  { intros f. unfold getChangedFiles. rewrite filter_In. fold lines.
    destruct (f =? "") eqn:E; cbn [orb].
    - apply String.eqb_eq in E. split; [intros [_ H]; discriminate|].
      intros (_ & H & _). contradiction.
    - apply String.eqb_neq in E. destruct (existsSync f); cbn [negb].
      + destruct (Js.startsWith f ".github/"); split; intros H;
          try (destruct H as (H1 & H2 & H3 & H4)); try (destruct H as (H1 & H2));
          try discriminate; auto.
      + split; [intros [_ H]; discriminate|]. intros (_ & _ & H & _). discriminate. }
  split; [exact Hin|]. split; [|split].
  - intros f Hf. apply Hin in Hf. destruct Hf as (Hl & _).
    pose proof (split_on_no_sep newline (Js.trim output)) as Hall.
    rewrite Forall_forall in Hall. now apply Hall.
  - unfold getChangedFiles, LegacyScan.getChangedFiles. rewrite filter_twice.
    apply filter_ext. intros f. destruct (f =? ""); [reflexivity|].
    destruct (existsSync f); [|reflexivity]. cbn [negb orb andb].
    now destruct (Js.startsWith f ".github/").
  - reflexivity.
Qed.

Lemma getChangedFiles_In (gitDiff : Completion string) (f : string) :
  In f (getChangedFiles existsSync gitDiff) ->
  f <> "" /\ existsSync f = true /\ Js.startsWith f ".github/" = false.
Proof.
  destruct gitDiff as [output|e]; [|intros []].
  unfold getChangedFiles. rewrite filter_In. intros [_ H].
  destruct (f =? "") eqn:E; cbn [orb] in H; [discriminate|].
  apply String.eqb_neq in E. destruct (existsSync f); cbn [negb] in H; [|discriminate].
  destruct (Js.startsWith f ".github/"); [discriminate|]. auto.
Qed.

(** ** Targets that are never counted as updated *)

Lemma common_prefix_app (C F : list string) :
  Path.common_prefix C (C ++ F) = List.length C.
Proof.
  induction C as [|x C IH]; cbn [app Path.common_prefix List.length].
  - now destruct F.
  - now rewrite String.eqb_refl, IH.
Qed.

Lemma join_plain_inj (P Q : list string) :
  Forall plain P -> Forall plain Q -> Path.join P = Path.join Q -> P = Q.
Proof.
  intros HP HQ H.
  rewrite <- (segments_form P HP), <- (segments_form Q HQ). now rewrite H.
Qed.

Lemma changed_path_form (F : list string) :
  Path.isAbsolute cwd = true -> Forall plain F -> F <> [] ->
  Path.resolve cwd [Path.join F] = "/" ++ Path.join (rev (cwd_stack cwd) ++ F).
Proof.
  intros Hcwd HF Hne.
  assert (Hsteps : Forall step F).
  { eapply Forall_impl; [|exact HF]. intros a Ha. now right. }
  destruct (join_steps F Hsteps Hne) as [Hj Hrel].
  rewrite (resolve_relative_arg cwd (Path.join F) Hcwd Hj Hrel).
  rewrite (fold_push_join F (cwd_stack cwd) HF), rev_app_distr, rev_involutive.
  reflexivity.
Qed.

Lemma relative_inside (F : list string) :
  Path.isAbsolute cwd = true -> Forall plain F -> F <> [] ->
  Path.relative cwd cwd ("/" ++ Path.join (rev (cwd_stack cwd) ++ F)) = Path.join F.
Proof.
  intros Hcwd HF Hne.
  pose proof (cwd_stack_plain cwd) as Hstack.
  set (C := rev (cwd_stack cwd)).
  assert (HC : Forall plain C) by (apply Forall_rev, Hstack).
  assert (HCF : Forall plain (C ++ F)) by (apply Forall_app; now split).
  assert (Hdiff : C <> (C ++ F)%list).
  { intros H. apply (f_equal (@List.length string)) in H. rewrite length_app in H.
    destruct F; [congruence | cbn in H; lia]. }
  unfold Path.relative.
  destruct (cwd =? "/" ++ Path.join (C ++ F)) eqn:E0.
  { apply String.eqb_eq in E0. exfalso. apply Hdiff.
    unfold C at 1. rewrite E0 at 1. now rewrite (cwd_stack_form (C ++ F) HCF), rev_involutive. }
  rewrite (resolve_absolute_arg cwd (C ++ F) HCF), (resolve_cwd cwd Hcwd). fold C.
  destruct ("/" ++ Path.join C =? "/" ++ Path.join (C ++ F)) eqn:E1.
  { apply String.eqb_eq in E1. exfalso. apply Hdiff.
    apply join_plain_inj; [assumption | assumption|].
    cbn [append] in E1. now injection E1. }
  cbv zeta. rewrite (segments_form C HC), (segments_form (C ++ F) HCF), common_prefix_app.
  rewrite Nat.sub_diag. cbn [repeat app].
  now rewrite skipn_app, skipn_all, Nat.sub_diag.
Qed.

(** X13.  A link is never counted as updated when the path of its target,
    taken from the root of the repository as the report shows it, names a
    file that does not exist after the change or lies under [.github/]:
    [getChangedFiles] leaves such files out, so the run stays pending however
    the other links fare.  The changed files are paths as git prints them. *)
Theorem unlisted_target_pending (gitDiff : Completion string)
  (results : list FileResult) (r : FileResult) (l : Link)
  (Hcwd : Path.isAbsolute cwd = true)
  (Hgit : forall f, In f (getChangedFiles existsSync gitDiff) -> git_path f)
  (Hr : In r results) (Hl : In l (links r))
  (Hunlisted :
     let shown := Path.relative cwd cwd (resolveLink cwd (filename r) (url l)) in
     existsSync shown = false \/ Js.startsWith shown ".github/" = true) :
  checkAllLinksUpdated cwd results (getChangedFiles existsSync gitDiff) = false /\
  templateNameOf cwd results (getChangedFiles existsSync gitDiff) = Pending.
Proof.
  assert (Hfalse : checkAllLinksUpdated cwd results (getChangedFiles existsSync gitDiff)
                   = false).
  { destruct (checkAllLinksUpdated cwd results (getChangedFiles existsSync gitDiff)) eqn:E;
      [|reflexivity].
    exfalso. rewrite checkAllLinksUpdated_true in E.
    destruct (E r l Hr Hl) as [_ Hin]. unfold changedFilePathsOf in Hin.
    apply in_map_iff in Hin. destruct Hin as (f & Hf & Hfin).
    destruct (Hgit f Hfin) as (F & HF & ->).
    destruct (getChangedFiles_In gitDiff _ Hfin) as (Hne & Hex & Hgh).
    assert (HFne : F <> []) by (intros ->; now apply Hne).
    rewrite (changed_path_form F Hcwd HF HFne) in Hf.
    cbv zeta in Hunlisted. unfold resolveLink in Hunlisted at 1 2.
    unfold resolveLink in Hf. rewrite <- Hf in Hunlisted.
    rewrite (relative_inside F Hcwd HF HFne) in Hunlisted.
    destruct Hunlisted as [H | H]; congruence. }
  split; [exact Hfalse|]. unfold templateNameOf. rewrite Hfalse.
  destruct results as [|r0 rs]; [destruct Hr | reflexivity].
Qed.

End ChangedFiles.

Lemma unlisted_target_pending_witness :
  templateNameOf "/repo" workflow_result
    (getChangedFiles workflow_checkout
       (Normal "src/app.js
.github/workflows/ci.yml
docs/old.md
"))
  = Pending.
Proof.
  refine (proj2 (unlisted_target_pending "/repo" workflow_checkout _ workflow_result
                   {| filename := "src/app.js";
                      links := [ {| url := "../.github/workflows/ci.yml";
                                    type := Relative |} ] |}
                   {| url := "../.github/workflows/ci.yml"; type := Relative |}
                   _ _ _ _ _)).
  - reflexivity.
  - intros f Hf. vm_compute in Hf. destruct Hf as [<- | []].
    exists ["src"; "app.js"]. split; [|reflexivity].
    constructor; [|constructor; [|constructor]].
    + split; [discriminate | split; [discriminate | split; [discriminate | reflexivity]]].
    + split; [discriminate | split; [discriminate | split; [discriminate | reflexivity]]].
  - left. reflexivity.
  - left. reflexivity.
  - right. vm_compute. reflexivity.
Defined.

(** ** The run as a whole *)

Section Run.

Variable cwd : string.
Variable ACTION_PATH : string.
Variable readFileSync : string -> option string.
Variable existsSync : string -> bool.

Lemma split_owner_repo (owner repo : string) :
  no_slash owner -> no_slash repo ->
  split_on "/" (owner ++ "/" ++ repo) = [owner; repo].
Proof.
  intros Ho Hr. rewrite split_on_slash.
  change (owner ++ "/" ++ repo) with (owner ++ String Path.slash repo).
  now rewrite split_app_slash, (split_plain owner Ho), (split_plain repo Hr).
Qed.

Lemma executeTemplate_outcome (t : Template) (linkCount : option nat)
  (linksOutput : option string) :
  falsy (readFileSync (templatePathsMap cwd ACTION_PATH t)) = false ->
  exists body,
    executeTemplate cwd ACTION_PATH readFileSync t linkCount linksOutput = Normal body.
Proof.
  unfold executeTemplate, getFileContent, falsy. cbv zeta.
  destruct (readFileSync _) as [text|]; [|discriminate].
  intros ->. eauto.
Qed.

(** X14.  A run of [main], up to the posting of the comment, ends in one of
    three ways.  Without a pull request number, from the variable or from
    the event, it throws, whatever the changed files and the templates are.
    With one, it throws when
    the template of the variant chosen from the changed files is absent or
    empty, and otherwise hands a comment body to [postComment] together with
    that number.  When the repository is named as owner and name separated
    by a slash, the body is the report compiled for that owner and name from
    the files that [getChangedFiles] lists, which are both the files scanned
    and the changed files. *)
Theorem run_outcomes (env : Environment) :
  let files := getChangedFiles existsSync (gitDiff env) in
  let chosen := templateNameOf cwd (parseFilesForLinks readFileSync files) files in
  (prNumberOf env = "" ->
     main cwd ACTION_PATH readFileSync existsSync env = Throw "PR number not found") /\
  (prNumberOf env <> "" ->
     falsy (readFileSync (templatePathsMap cwd ACTION_PATH chosen)) = true ->
     main cwd ACTION_PATH readFileSync existsSync env
     = Throw ("Template not found: " ++ templatePathsMap cwd ACTION_PATH chosen)) /\
  (prNumberOf env <> "" ->
     falsy (readFileSync (templatePathsMap cwd ACTION_PATH chosen)) = false ->
     exists body,
       main cwd ACTION_PATH readFileSync existsSync env = Normal (prNumberOf env, body)) /\
  (forall owner repo,
     GITHUB_REPOSITORY env = owner ++ "/" ++ repo -> no_slash owner -> no_slash repo ->
     prNumberOf env <> "" ->
     main cwd ACTION_PATH readFileSync existsSync env
     = match report cwd ACTION_PATH readFileSync owner repo (GITHUB_SHA env) files with
       | Normal body => Normal (prNumberOf env, body)
       | Throw m => Throw m
       end).
Proof.
  intros files chosen. split; [|split; [|split]].
  - intros H. unfold main. cbv zeta. now rewrite H.
  - intros Hpr Hmissing. unfold main. cbv zeta.
    apply String.eqb_neq in Hpr. rewrite Hpr. fold files.
    destruct (compileTemplateFromLinks_template cwd ACTION_PATH readFileSync
                (nth 0 (split_on "/" (GITHUB_REPOSITORY env)) "undefined")
                (nth 1 (split_on "/" (GITHUB_REPOSITORY env)) "undefined")
                (GITHUB_SHA env) (parseFilesForLinks readFileSync files) files)
      as (n & o & ->).
    fold chosen. now rewrite (executeTemplate_missing cwd ACTION_PATH readFileSync chosen n o Hmissing).
  - intros Hpr Hfound. unfold main. cbv zeta.
    apply String.eqb_neq in Hpr. rewrite Hpr. fold files.
    destruct (compileTemplateFromLinks_template cwd ACTION_PATH readFileSync
                (nth 0 (split_on "/" (GITHUB_REPOSITORY env)) "undefined")
                (nth 1 (split_on "/" (GITHUB_REPOSITORY env)) "undefined")
                (GITHUB_SHA env) (parseFilesForLinks readFileSync files) files)
      as (n & o & ->).
    fold chosen. destruct (executeTemplate_outcome chosen n o Hfound) as (body & ->).
    now exists body.
  - intros owner repo Hrepo Ho Hr Hpr. unfold main, report. cbv zeta.
    apply String.eqb_neq in Hpr. rewrite Hpr, Hrepo, (split_owner_repo owner repo Ho Hr).
    reflexivity.
Qed.

(** X15.  When the git command fails, or when the change touches only files
    that are deleted or lie under [.github/], no file is scanned, whatever
    links the files hold: with a pull request number and the template for a
    change without links in place, the comment is that template with 0 for
    the count and nothing for the list. *)
Theorem run_without_scanned_files (env : Environment) (text : string)
  (Hpr : prNumberOf env <> "")
  (Hnone : match gitDiff env with
           | Throw _ => True
           | Normal output =>
               forall f, In f (split_on newline (Js.trim output)) ->
                 f = "" \/ existsSync f = false \/ Js.startsWith f ".github/" = true
           end)
  (Hfound : readFileSync (templatePathsMap cwd ACTION_PATH NoLinks) = Some text)
  (Hnonempty : text <> "") :
  getChangedFiles existsSync (gitDiff env) = [] /\
  main cwd ACTION_PATH readFileSync existsSync env
  = Normal (prNumberOf env,
            Js.replace (Js.replace text "{{LINK_COUNT}}" "0") "{{LINKS}}" "").
Proof.
  assert (Hfiles : getChangedFiles existsSync (gitDiff env) = []).
  { destruct (gitDiff env) as [output|e]; [|reflexivity].
    unfold getChangedFiles. apply filter_none. intros f Hf.
    destruct (Hnone f Hf) as [-> | [H | H]]; [reflexivity | |].
    - rewrite H. cbn [negb]. now rewrite orb_true_r.
    - rewrite H. now destruct (_ || _). }
  split; [exact Hfiles|].
  unfold main. cbv zeta. apply String.eqb_neq in Hpr. rewrite Hpr, Hfiles.
  cbn [parseFilesForLinks]. unfold compileTemplateFromLinks. cbv zeta.
  change (Nat.eqb (List.length (@nil FileResult)) 0) with true. cbv iota.
  unfold executeTemplate, getFileContent. cbv zeta. rewrite Hfound.
  apply String.eqb_neq in Hnonempty. rewrite Hnonempty. reflexivity.
Qed.

End Run.

Lemma run_without_scanned_files_witness :
  main "/repo" "/action" no_links_template workflow_checkout failed_run
  = Normal ("7", "No links (0).").
Proof.
  refine (proj2 (run_without_scanned_files "/repo" "/action" no_links_template
                   workflow_checkout failed_run "No links ({{LINK_COUNT}}).{{LINKS}}"
                   _ _ _ _)).
  - discriminate.
  - cbn [gitDiff failed_run]. intros f Hf. vm_compute in Hf.
    destruct Hf as [<- | [<- | []]].
    + right. right. reflexivity.
    + right. left. reflexivity.
  - reflexivity.
  - discriminate.
Defined.

(** ** Validation of absolute links *)

Section Validation.

Variable cwd : string.
Variable existsSync : string -> bool.
Variable parseURL : string -> option string.

(** Once the promise is settled no event changes it. *)
Lemma resolve_settled (r : Legacy.Request) (v st : Legacy.LinkStatus) :
  Legacy.promise r = Legacy.Fulfilled st ->
  Legacy.promise (Legacy.resolve r v) = Legacy.Fulfilled st.
Proof. intros H. unfold Legacy.resolve. now rewrite H. Qed.

Lemma handle_settled (r : Legacy.Request) (ev : Legacy.RequestEvent)
  (st : Legacy.LinkStatus) :
  Legacy.promise r = Legacy.Fulfilled st ->
  Legacy.promise (Legacy.handle r ev) = Legacy.Fulfilled st.
Proof.
  intros H. destruct ev as [sc | m |]; cbn [Legacy.handle].
  - unfold Legacy.onResponse. cbv zeta.
    destruct (match sc with Some code => _ | None => false end); now apply resolve_settled.
  - now apply resolve_settled.
  - unfold Legacy.onTimeout. now apply resolve_settled.
Qed.

Lemma legacy_settled (later : list Legacy.RequestEvent) (r : Legacy.Request)
  (st : Legacy.LinkStatus) :
  Legacy.promise r = Legacy.Fulfilled st ->
  Legacy.promise (fold_left Legacy.handle later r) = Legacy.Fulfilled st.
Proof.
  revert r. induction later as [|ev later IH]; intros r Hr; cbn [fold_left]; [assumption|].
  apply IH. now apply handle_settled.
Qed.




(** The first event of a request decides the outcome. *)
Lemma legacy_first_event (ev : Legacy.RequestEvent) (later : list Legacy.RequestEvent) :
  exists st,
    Legacy.promise (Legacy.handle Legacy.new_request ev) = Legacy.Fulfilled st /\
    Legacy.resolvedPath st = None /\
    Legacy.promise (fold_left Legacy.handle (ev :: later) Legacy.new_request)
    = Legacy.Fulfilled st.
Proof.
  assert (H : exists st,
             Legacy.promise (Legacy.handle Legacy.new_request ev) = Legacy.Fulfilled st /\
             Legacy.resolvedPath st = None).
  { destruct ev as [sc | m |]; cbn [Legacy.handle].
    - unfold Legacy.onResponse. cbv zeta.
      destruct (match sc with Some code => _ | None => false end);
        eexists; split; reflexivity.
    - eexists; split; reflexivity.
    - eexists; split; reflexivity. }
  destruct H as (st & Hst & Hnone). exists st. split; [assumption|]. split; [assumption|].
  cbn [fold_left]. now apply legacy_settled.
Qed.

(** The handlers of the typed revision are those of the first one. *)
Lemma typed_onResponse (r : Legacy.Request) (sc : option nat) :
  Typed.onResponse r sc = Legacy.onResponse r sc.
Proof. destruct sc as [[|n]|]; reflexivity. Qed.

Lemma typed_handle (r : Legacy.Request) (ev : Legacy.RequestEvent) :
  Typed.handle r ev = Legacy.handle r ev.
Proof. destruct ev; [apply typed_onResponse | reflexivity | reflexivity]. Qed.

Lemma typed_fold (events : list Legacy.RequestEvent) (r : Legacy.Request) :
  fold_left Typed.handle events r = fold_left Legacy.handle events r.
Proof.
  revert r. induction events as [|ev events IH]; intros r; cbn [fold_left]; [reflexivity|].
  now rewrite typed_handle, IH.
Qed.

Lemma typed_probe (url : string) (remote : Legacy.Remote)
  (later : list Legacy.RequestEvent) :
  Typed.probe parseURL url remote later = Legacy.probe parseURL url remote later.
Proof.
  unfold Typed.probe, Legacy.probe. cbv zeta.
  destruct (Legacy.client_get parseURL (Legacy.clientOf url) url
              {| Legacy.timeout := 5000 |} remote later) as [events | error];
    [apply typed_fold | reflexivity].
Qed.


(** The client chosen for an absolute link is the one of its protocol. *)
Lemma clientOf_announced (url : string) :
  absolute_shape url ->
  Legacy.expectedProtocol (Legacy.clientOf url) = announced_protocol url.
Proof.
  unfold Legacy.clientOf, announced_protocol. intros [H | H].
  - rewrite (startsWith_inv url _ H). reflexivity.
  - rewrite H, (startsWith_weaken url "https" "://" H). reflexivity.
Qed.


Lemma probe_invalid_url (url : string) (remote : Legacy.Remote)
  (later : list Legacy.RequestEvent) :
  parseURL url = None ->
  Legacy.promise (Legacy.probe parseURL url remote later)
  = Legacy.Rejected Legacy.ERR_INVALID_URL.
Proof. intros H. unfold Legacy.probe, Legacy.client_get. cbv zeta. now rewrite H. Qed.


Lemma probe_requested (url : string) (remote : Legacy.Remote)
  (later : list Legacy.RequestEvent) :
  absolute_shape url -> parseURL url = Some (announced_protocol url) ->
  Legacy.probe parseURL url remote later
  = match Legacy.first_event 5000 remote with
    | Some ev => fold_left Legacy.handle (ev :: later) Legacy.new_request
    | None => Legacy.new_request
    end.
Proof.
  intros Hshape H. unfold Legacy.probe, Legacy.client_get. cbv zeta.
  rewrite H, (clientOf_announced url Hshape), String.eqb_refl. cbn [negb Legacy.timeout].
  now destruct (Legacy.first_event 5000 remote).
Qed.





End Validation.





(** ** The two validating revisions *)

Section Validators.

Variable cwd : string.
Variable existsSync : string -> bool.
Variable parseURL : string -> option string.

(** X16.  With an absolute working directory the typed revision validates a
    link exactly as the first revision does: naming the working directory as
    the first argument of [path.resolve], and testing the status code for
    being set before comparing it, change no outcome. *)
Theorem validators_agree (url sourceFile : string) (remote : Legacy.Remote)
  (later : list Legacy.RequestEvent)
  (Hcwd : Path.isAbsolute cwd = true) :
  Typed.checkLinkValidity cwd existsSync parseURL url sourceFile remote later
  = Legacy.checkLinkValidity cwd existsSync parseURL url sourceFile remote later.
Proof.
  unfold Typed.checkLinkValidity, Legacy.checkLinkValidity. cbv zeta.
  rewrite (resolve_with_cwd cwd [Path.dirname sourceFile; url] Hcwd), typed_probe.
  reflexivity.
Qed.

(** ** Validated links *)

Lemma legacy_probe_status (url : string) (remote : Legacy.Remote)
  (later : list Legacy.RequestEvent) (st : Legacy.LinkStatus) :
  Legacy.promise (Legacy.probe parseURL url remote later) = Legacy.Fulfilled st ->
  Legacy.resolvedPath st = None.
Proof.
  unfold Legacy.probe, Legacy.client_get. cbv zeta.
  destruct (parseURL url) as [protocol|]; [|discriminate].
  destruct (negb _); [discriminate|].
  destruct (Legacy.first_event _ remote) as [ev|]; [|discriminate].
  destruct (legacy_first_event ev later) as (st' & _ & Hnone & Hfold).
  rewrite Hfold. now intros [= <-].
Qed.

Lemma legacy_checkLinkValidity_status (url sourceFile : string) (remote : Legacy.Remote)
  (later : list Legacy.RequestEvent) (st : Legacy.LinkStatus) :
  Legacy.checkLinkValidity cwd existsSync parseURL url sourceFile remote later
  = Legacy.Fulfilled st ->
  (classify url = Relative ->
     Legacy.statusCode st = None /\
     Legacy.resolvedPath st
     = Some (Path.relative cwd cwd (Path.resolve cwd [Path.dirname sourceFile; url])) /\
     Legacy.valid st = existsSync (Path.resolve cwd [Path.dirname sourceFile; url])) /\
  (classify url = Absolute -> Legacy.resolvedPath st = None).
Proof.
  unfold Legacy.checkLinkValidity, classify. cbv zeta.
  destruct (Js.startsWith url "http"); cbn [negb].
  - intros H. split; [discriminate | intros _; now apply legacy_probe_status in H].
  - intros [= <-]. split; [|discriminate].
    intros _. cbn. split; [reflexivity | split; reflexivity].
Qed.

Lemma reachable_fulfilled (net : string -> Legacy.Remote * list Legacy.RequestEvent)
  (link filename : string) :
  reachable parseURL net link ->
  exists st,
    Legacy.checkLinkValidity cwd existsSync parseURL link filename
      (fst (net link)) (snd (net link))
    = Legacy.Fulfilled st.
Proof.
  intros Hreach. unfold Legacy.checkLinkValidity. cbv zeta.
  destruct (Js.startsWith link "http") eqn:Hhttp; cbn [negb]; [|eauto].
  destruct (Hreach Hhttp) as (Hshape & Hparsed & Hevent).
  rewrite (probe_requested parseURL link _ _ Hshape Hparsed).
  destruct (Legacy.first_event 5000 (fst (net link))) as [ev|]; [|congruence].
  destruct (legacy_first_event ev (snd (net link))) as (st & _ & _ & Hfold). eauto.
Qed.

Lemma legacy_checkLinks_returns (net : string -> Legacy.Remote * list Legacy.RequestEvent)
  (links : list string) (filename : string) :
  (forall link, In link links -> reachable parseURL net link) ->
  exists results,
    Legacy.checkLinks cwd existsSync parseURL net links filename = Legacy.Fulfilled results.
Proof.
  induction links as [|link rest IH]; intros Hreach; cbn [Legacy.checkLinks].
  - now exists [].
  - destruct (reachable_fulfilled net link filename (Hreach link (or_introl eq_refl)))
      as (st & ->).
    destruct IH as (results & ->); [intros l Hl; apply Hreach; now right|].
    eauto.
Qed.

Lemma legacy_checkLinks_urls (net : string -> Legacy.Remote * list Legacy.RequestEvent)
  (links : list string) (filename : string) (results : list Legacy.Link) :
  Legacy.checkLinks cwd existsSync parseURL net links filename = Legacy.Fulfilled results ->
  map Legacy.url results = links.
Proof.
  revert results. induction links as [|link rest IH]; intros results; cbn [Legacy.checkLinks].
  - now intros [= <-].
  - destruct (Legacy.checkLinkValidity _ _ _ _ _ _ _) as [|st|e]; try discriminate.
    destruct (Legacy.checkLinks cwd existsSync parseURL net rest filename) as [|rs|e];
      try discriminate.
    intros [= <-]. cbn [map Legacy.url]. now rewrite (IH rs).
Qed.

Lemma legacy_checkLinks_entry (net : string -> Legacy.Remote * list Legacy.RequestEvent)
  (links : list string) (filename : string) (results : list Legacy.Link) :
  Legacy.checkLinks cwd existsSync parseURL net links filename = Legacy.Fulfilled results ->
  forall l, In l results ->
    Legacy.type l = classify (Legacy.url l) /\
    (Legacy.type l = Relative ->
       Legacy.statusCode (Legacy.status l) = None /\
       Legacy.resolvedPath (Legacy.status l)
       = Some (Path.relative cwd cwd
                 (Path.resolve cwd [Path.dirname filename; Legacy.url l])) /\
       Legacy.valid (Legacy.status l)
       = existsSync (Path.resolve cwd [Path.dirname filename; Legacy.url l])) /\
    (Legacy.type l = Absolute -> Legacy.resolvedPath (Legacy.status l) = None).
Proof.
  revert results. induction links as [|link rest IH]; intros results; cbn [Legacy.checkLinks].
  - intros [= <-] l [].
  - destruct (Legacy.checkLinkValidity cwd existsSync parseURL link filename
                (fst (net link)) (snd (net link))) as [|st|e] eqn:Hst; try discriminate.
    destruct (legacy_checkLinkValidity_status _ _ _ _ _ Hst) as [Hrel Habs].
    destruct (Legacy.checkLinks cwd existsSync parseURL net rest filename) as [|rs|e];
      try discriminate.
    intros [= <-] l [<- | Hl]; [|now apply (IH rs)].
    cbn [Legacy.type Legacy.url Legacy.status]. fold (classify link).
    split; [reflexivity|]. split; assumption.
Qed.

Lemma legacy_checkLinks_rejected (net : string -> Legacy.Remote * list Legacy.RequestEvent)
  (before after : list string) (link filename : string) :
  (forall l, In l before -> reachable parseURL net l) ->
  Js.startsWith link "http" = true -> parseURL link = None ->
  Legacy.checkLinks cwd existsSync parseURL net (before ++ link :: after) filename
  = Legacy.Rejected Legacy.ERR_INVALID_URL.
Proof.
  intros Hreach Hhttp Hnone. induction before as [|b before IH]; cbn [app Legacy.checkLinks].
  - unfold Legacy.checkLinkValidity. rewrite Hhttp. cbn [negb].
    now rewrite probe_invalid_url.
  - destruct (reachable_fulfilled net b filename (Hreach b (or_introl eq_refl))) as (st & ->).
    rewrite IH; [reflexivity|]. intros l Hl. apply Hreach. now right.
Qed.

(** X17.  [checkLinks] of the validating script gives, when it returns, one
    entry for each link in the order given: the entry keeps the text of the
    link and carries the kind that the text determines.  An entry of a
    relative link has no status code, is valid exactly when its target
    exists, and holds the path of the target from the working directory; an
    entry of an absolute link holds no path.  It returns when every
    absolute link is accepted by [client.get] and its request comes to an
    event; it throws at the first link that is not a URL. *)
Theorem validated_links (net : string -> Legacy.Remote * list Legacy.RequestEvent)
  (links : list string) (filename : string) :
  (forall results,
     Legacy.checkLinks cwd existsSync parseURL net links filename
     = Legacy.Fulfilled results ->
     map Legacy.url results = links /\
     forall l, In l results ->
       Legacy.type l = classify (Legacy.url l) /\
       (Legacy.type l = Relative ->
          Legacy.statusCode (Legacy.status l) = None /\
          Legacy.resolvedPath (Legacy.status l)
          = Some (Path.relative cwd cwd
                    (Path.resolve cwd [Path.dirname filename; Legacy.url l])) /\
          Legacy.valid (Legacy.status l)
          = existsSync (Path.resolve cwd [Path.dirname filename; Legacy.url l])) /\
       (Legacy.type l = Absolute -> Legacy.resolvedPath (Legacy.status l) = None)) /\
  ((forall link, In link links -> reachable parseURL net link) ->
   exists results,
     Legacy.checkLinks cwd existsSync parseURL net links filename
     = Legacy.Fulfilled results) /\
  (forall before link after,
     links = (before ++ link :: after)%list ->
     (forall l, In l before -> reachable parseURL net l) ->
     Js.startsWith link "http" = true -> parseURL link = None ->
     Legacy.checkLinks cwd existsSync parseURL net links filename
     = Legacy.Rejected Legacy.ERR_INVALID_URL).
Proof.
  split; [|split].
  - intros results Hresults. split.
    + exact (legacy_checkLinks_urls net links filename results Hresults).
    + exact (legacy_checkLinks_entry net links filename results Hresults).
  - apply legacy_checkLinks_returns.
  - intros before link after -> Hreach Hhttp Hnone.
    now apply legacy_checkLinks_rejected.
Qed.

End Validators.

Lemma validators_agree_witness :
  Typed.checkLinkValidity "/repo" (fun _ => false) (fun _ => None) "../docs/guide.md"
    "src/app.js" Legacy.Silent []
  = Legacy.checkLinkValidity "/repo" (fun _ => false) (fun _ => None) "../docs/guide.md"
      "src/app.js" Legacy.Silent [].
Proof. apply validators_agree. reflexivity. Defined.

(** A relative link and a web address that is answered, and the same pair
    with an address whose port is not a number between them. *)
Lemma validated_links_witness :
  (exists results,
     Legacy.checkLinks "/repo" (fun _ => false) sample_parseURL
       (fun _ => (Legacy.Answers 120 (Some 200) Legacy.Silent, []))
       ["./guide.md"; "https://api.example.com/docs"] "src/app.js"
     = Legacy.Fulfilled results) /\
  Legacy.checkLinks "/repo" (fun _ => false) sample_parseURL
    (fun _ => (Legacy.Answers 120 (Some 200) Legacy.Silent, []))
    ["./guide.md"; "http://localhost:PORT/api"; "https://api.example.com/docs"] "src/app.js"
  = Legacy.Rejected Legacy.ERR_INVALID_URL.
Proof.
  split.
  - refine (proj1 (proj2 (validated_links "/repo" (fun _ => false) sample_parseURL
                            (fun _ => (Legacy.Answers 120 (Some 200) Legacy.Silent, []))
                            ["./guide.md"; "https://api.example.com/docs"] "src/app.js")) _).
    intros link [<- | [<- | []]] Hhttp; [discriminate Hhttp|].
    split; [right; reflexivity|]. split; [reflexivity | discriminate].
  - refine (proj2 (proj2 (validated_links "/repo" (fun _ => false) sample_parseURL
                            (fun _ => (Legacy.Answers 120 (Some 200) Legacy.Silent, []))
                            ["./guide.md"; "http://localhost:PORT/api";
                             "https://api.example.com/docs"] "src/app.js"))
                  ["./guide.md"] "http://localhost:PORT/api"
                  ["https://api.example.com/docs"] eq_refl _ eq_refl eq_refl).
    intros l [<- | []] Hhttp. discriminate Hhttp.
Defined.

(** ** Line comments taken for links by the validating revisions *)

Lemma set_add_keeps (acc : list string) (x y : string) :
  In y acc -> In y (set_add acc x).
Proof.
  unfold set_add. destruct (Js.includes acc x); [auto|].
  intros H. apply in_or_app. now left.
Qed.

Lemma set_add_new (acc : list string) (x : string) : In x (set_add acc x).
Proof.
  unfold set_add. destruct (Js.includes acc x) eqn:E.
  - now apply includes_In.
  - apply in_or_app. right. now left.
Qed.

Lemma fold_keeps {B} (f : list string -> B -> list string) (l : list B)
  (acc : list string) (y : string) :
  (forall a b, In y a -> In y (f a b)) -> In y acc -> In y (fold_left f l acc).
Proof.
  intros Hf. revert acc. induction l as [|b l IH]; intros acc H; cbn [fold_left]; auto.
Qed.

Lemma fold_reaches {B} (f : list string -> B -> list string) (l : list B)
  (acc : list string) (y : string) (b : B) :
  (forall a b', In y a -> In y (f a b')) -> (forall a, In y (f a b)) ->
  In b l -> In y (fold_left f l acc).
Proof.
  intros Hkeep Hadd. revert acc. induction l as [|b' l IH]; intros acc; [intros []|].
  cbn [fold_left]. intros [-> | H]; [|now apply IH].
  apply fold_keeps; [exact Hkeep | apply Hadd].
Qed.

Lemma matchAll_head (m : string -> option string) (c : ascii) (r tok : string) :
  m (String c r) = Some tok -> In tok (Regex.matchAll m 0 (String c r)).
Proof. intros H. cbn [Regex.matchAll]. rewrite H. now left. Qed.

Lemma marker_token (cls : ascii -> bool) (body : string) :
  cls "/"%char = true ->
  Regex.match_run Regex.absolute_prefix cls ("//" ++ body) = None /\
  Regex.match_run Regex.relative_prefix cls ("//" ++ body)
  = Some ("//" ++ fst (Regex.span cls body)).
Proof.
  intros Hslash. split; [reflexivity|].
  assert (Hspan : fst (Regex.span cls (String "/" body))
                  = String "/" (fst (Regex.span cls body))) by now apply span_cons.
  rewrite (match_run_some Regex.relative_prefix cls ("//" ++ body) 1 eq_refl).
  - change (Js.drop 1 ("//" ++ body)) with (String "/" body).
    change (Js.take 1 ("//" ++ body)) with "/". now rewrite Hspan.
  - change (Js.drop 1 ("//" ++ body)) with (String "/" body). now rewrite Hspan.
Qed.

Lemma legacy_url_char_not_space (s : string) :
  str_forall LegacyScan.url_char s = true -> str_forall not_space s = true.
Proof.
  unfold str_forall. rewrite !forallb_forall. intros H c Hc.
  specialize (H c Hc). unfold LegacyScan.url_char in H. unfold not_space.
  apply negb_true_iff in H. apply orb_false_iff in H. destruct H as [H _].
  now rewrite H.
Qed.

Lemma marker_link_trimmed (run : string) :
  str_forall not_space run = true -> Js.trim ("//" ++ run) = "//" ++ run.
Proof.
  intros H. apply trim_not_space.
  change ("//" ++ run) with (String "/" (String "/" run)).
  unfold str_forall in *. cbn [list_ascii_of_string forallb].
  now rewrite H.
Qed.

Lemma legacy_step_keeps (y : string) (a : list string) (comment : string) :
  In y a -> In y (LegacyScan.extractLinks_step a comment).
Proof.
  unfold LegacyScan.extractLinks_step. apply fold_keeps.
  intros a' tok. apply set_add_keeps.
Qed.

Lemma typed_step_keeps (y : string) (a : list string) (comment : string) :
  In y a -> In y (Typed.extractLinks_step a comment).
Proof.
  unfold Typed.extractLinks_step. apply fold_keeps.
  intros a' tok H. cbv zeta. destruct (negb _); [now apply set_add_keeps | exact H].
Qed.

(** X18.  In the validating revisions a comment is matched with its marker,
    and the pattern of relative paths takes the two slashes of a line comment
    for the beginning of a path: every line comment gives a link made of the
    two slashes and the link characters that follow them, which the script
    then validates as a relative link.  The first revision lists it even when
    it is the bare marker; the typed revision leaves out the bare marker
    only, so a comment whose text follows the slashes at once still gives a
    link. *)
Theorem line_comment_taken_for_link (comments : list string) (body : string)
  (Hin : In ("//" ++ body) comments) :
  In ("//" ++ legacy_run body) (LegacyScan.extractLinks comments) /\
  classify ("//" ++ legacy_run body) = Relative /\
  (link_run body <> "" -> In ("//" ++ link_run body) (Typed.extractLinks comments)).
Proof.
  split; [|split; [reflexivity|]].
  - unfold LegacyScan.extractLinks.
    apply fold_reaches with (b := "//" ++ body); [intros a b'; apply legacy_step_keeps | | exact Hin].
    intros a. unfold LegacyScan.extractLinks_step.
    apply fold_reaches with (b := "//" ++ legacy_run body).
    + intros a' tok. apply set_add_keeps.
    + intros a'. rewrite marker_link_trimmed.
      * apply set_add_new.
      * apply legacy_url_char_not_space, span_forall.
    + apply (matchAll_head LegacyScan.URL_PATTERN "/" (String "/" body)).
      change (String "/" (String "/" body)) with ("//" ++ body).
      unfold LegacyScan.URL_PATTERN.
      destruct (marker_token LegacyScan.url_char body eq_refl) as [-> ->]. reflexivity.
  - intros Hrun. unfold Typed.extractLinks.
    apply fold_reaches with (b := "//" ++ body); [intros a b'; apply typed_step_keeps | | exact Hin].
    intros a. unfold Typed.extractLinks_step.
    apply fold_reaches with (b := "//" ++ link_run body).
    + intros a' tok H. cbv zeta. destruct (negb _); [now apply set_add_keeps | exact H].
    + intros a'. cbv zeta. rewrite marker_link_trimmed.
      * assert (Hguard : Js.includes Typed.comment_markers ("//" ++ link_run body) = false).
        { destruct (link_run body) as [|c r]; [congruence | reflexivity]. }
        rewrite Hguard. apply set_add_new.
      * apply url_char_not_space, span_forall.
    + apply (matchAll_head Typed.URL_PATTERN "/" (String "/" body)).
      change (String "/" (String "/" body)) with ("//" ++ body).
      unfold Typed.URL_PATTERN.
      destruct (marker_token Regex.url_char body eq_refl) as [-> ->]. reflexivity.
Qed.

Lemma line_comment_taken_for_link_witness :
  In ("//" ++ legacy_run " note") (LegacyScan.extractLinks ["// note"]) /\
  In ("//" ++ link_run "TODO: tidy up") (Typed.extractLinks ["//TODO: tidy up"]).
Proof.
  split.
  - exact (proj1 (line_comment_taken_for_link ["// note"] " note" (or_introl eq_refl))).
  - refine (proj2 (proj2 (line_comment_taken_for_link ["//TODO: tidy up"] "TODO: tidy up"
                            (or_introl eq_refl))) _).
    vm_compute. discriminate.
Defined.

(** ** The decision of check-links.ts and of the validating script *)

Section Revisions.

Variable cwd : string.
Variable existsSync : string -> bool.
Variable parseURL : string -> option string.

Lemma target_roundtrip (file link : string) :
  Path.isAbsolute cwd = true ->
  Path.resolve cwd
    [Path.relative cwd cwd (Path.resolve cwd [Path.dirname file; link])]
  = resolveLink cwd file link.
Proof.
  intros Hcwd. unfold resolveLink.
  rewrite (resolve_with_cwd cwd [Path.dirname file; link] Hcwd).
  destruct (resolve_form cwd [Path.dirname file; link] Hcwd) as (P & -> & HP).
  now apply relative_roundtrip.
Qed.

(** X19.  check-links.ts, which validates nothing, decides as the validating
    script did: on results that [checkLinks] built, and with no relative link
    that resolves to the working directory itself, [checkAllLinksUpdated] of
    the validating script gives what [checkAllLinksUpdated] of check-links.ts
    gives on the same files and links, so the all-updated template is chosen
    by one exactly when it is chosen by the other.  The working directory is
    absolute. *)
Theorem revisions_decide_alike
  (net : string -> Legacy.Remote * list Legacy.RequestEvent)
  (results : list Legacy.FileResult) (changedFiles : list string)
  (Hcwd : Path.isAbsolute cwd = true)
  (Hvalidated : forall r, In r results ->
     exists links,
       Legacy.checkLinks cwd existsSync parseURL net links (Legacy.filename r)
       = Legacy.Fulfilled (Legacy.links r))
  (Hroot : forall r l, In r results -> In l (Legacy.links r) ->
     Legacy.type l = Relative ->
     Path.relative cwd cwd (resolveLink cwd (Legacy.filename r) (Legacy.url l)) <> "") :
  Legacy.checkAllLinksUpdated cwd results changedFiles
  = checkAllLinksUpdated cwd (map forget_status results) changedFiles /\
  (Legacy.templateNameOf cwd results changedFiles = "all-updated-template.md" <->
   templateNameOf cwd (map forget_status results) changedFiles = AllUpdated).
Proof.
  assert (Hentry : forall r l, In r results -> In l (Legacy.links r) ->
            Legacy.type l = Relative ->
            Legacy.resolvedPath (Legacy.status l)
            = Some (Path.relative cwd cwd
                      (Path.resolve cwd [Path.dirname (Legacy.filename r); Legacy.url l]))).
  { intros r l Hr Hl Hrel. destruct (Hvalidated r Hr) as (links & Hlinks).
    destruct (legacy_checkLinks_entry cwd existsSync parseURL net links
                (Legacy.filename r) (Legacy.links r) Hlinks l Hl) as (_ & Hpath & _).
    now apply Hpath. }
  assert (Hcheck : Legacy.checkAllLinksUpdated cwd results changedFiles
                   = checkAllLinksUpdated cwd (map forget_status results) changedFiles).
  { apply bool_eq_iff.
    rewrite legacy_checkAllLinksUpdated_true, checkAllLinksUpdated_true. unfold touched.
    split.
    - intros H r' l' Hr' Hl'. apply in_map_iff in Hr'. destruct Hr' as (r & <- & Hr).
      cbn [forget_status links filename] in *.
      apply in_map_iff in Hl'. destruct Hl' as (l & <- & Hl). cbn [type url].
      destruct (H r l Hr Hl) as [Hrel Hp]. split; [exact Hrel|].
      rewrite <- (target_roundtrip (Legacy.filename r) (Legacy.url l) Hcwd).
      apply Hp; [now apply Hentry|].
      pose proof (Hroot r l Hr Hl Hrel) as Hne. unfold resolveLink in Hne.
      now rewrite (resolve_with_cwd cwd _ Hcwd) in Hne.
    - intros H r l Hr Hl.
      destruct (H (forget_status r) {| url := Legacy.url l; type := Legacy.type l |})
        as [Hrel Hin].
      + apply in_map. exact Hr.
      + cbn [forget_status links]. apply in_map_iff. now exists l.
      + cbn [type url forget_status filename] in *. split; [exact Hrel|].
        intros p Hp _. rewrite (Hentry r l Hr Hl Hrel) in Hp. injection Hp as <-.
        now rewrite (target_roundtrip (Legacy.filename r) (Legacy.url l) Hcwd). }
  split; [exact Hcheck|].
  unfold Legacy.templateNameOf, templateNameOf. cbv zeta.
  rewrite length_map, <- Hcheck.
  destruct (Nat.eqb (List.length results) 0); cbn [negb andb].
  - split; discriminate.
  - destruct (Legacy.checkAllLinksUpdated cwd results changedFiles);
      split; try reflexivity; discriminate.
Qed.

End Revisions.

Lemma revisions_decide_alike_witness :
  Legacy.checkAllLinksUpdated "/repo" guide_results ["src/app.js"; "docs/guide.md"]
  = checkAllLinksUpdated "/repo" (map forget_status guide_results)
      ["src/app.js"; "docs/guide.md"].
Proof.
  refine (proj1 (revisions_decide_alike "/repo" (fun _ => true) (fun _ => None) guide_net
                   guide_results ["src/app.js"; "docs/guide.md"] _ _ _)).
  - reflexivity.
  - intros r [<- | []]. exists ["../docs/guide.md"]. vm_compute. reflexivity.
  - intros r l [<- | []] [<- | []] _. vm_compute. discriminate.
Defined.

(** ** The scan of the validating script *)

Section ValidatedScan.

Variable cwd : string.
Variable existsSync : string -> bool.
Variable parseURL : string -> option string.
Variable readFileSync : string -> option string.

(** X20.  [parseFilesForLinks] of the validating script gives, when it
    returns, the results in the order of the files, one for each file that
    can be read, is not empty and holds a link.  The links of a result are
    the links extracted from the comments of its file, in their order, each
    with the outcome of its validation.  It returns when every absolute link
    of the files is accepted by [client.get] and its request comes to an
    event. *)
Theorem validated_scan (net : string -> Legacy.Remote * list Legacy.RequestEvent)
  (files : list string) :
  (forall results,
     LegacyScan.parseFilesForLinks cwd existsSync parseURL readFileSync net files
     = Legacy.Fulfilled results ->
     map Legacy.filename results = filter (legacy_has_links readFileSync) files /\
     forall r, In r results ->
       Legacy.links r <> [] /\
       exists content,
         readFileSync (Legacy.filename r) = Some content /\
         map Legacy.url (Legacy.links r)
         = LegacyScan.extractLinks (LegacyScan.extractComments content) /\
         Legacy.checkLinks cwd existsSync parseURL net (map Legacy.url (Legacy.links r))
           (Legacy.filename r)
         = Legacy.Fulfilled (Legacy.links r)) /\
  ((forall file content link,
      In file files -> readFileSync file = Some content ->
      In link (LegacyScan.extractLinks (LegacyScan.extractComments content)) ->
      reachable parseURL net link) ->
   exists results,
     LegacyScan.parseFilesForLinks cwd existsSync parseURL readFileSync net files
     = Legacy.Fulfilled results).
Proof.
  split.
  - induction files as [|file rest IH]; intros results.
    + intros [= <-]. split; [reflexivity | intros r []].
    + cbn [LegacyScan.parseFilesForLinks filter]. cbv zeta. unfold legacy_has_links at 1.
      destruct (readFileSync file) as [content|] eqn:Hread; [|apply IH].
      destruct (content =? ""); cbn [negb andb]; [apply IH|].
      destruct (Nat.ltb 0 _) eqn:Hlen; [|apply IH].
      destruct (Legacy.checkLinks cwd existsSync parseURL net
                  (LegacyScan.extractLinks (LegacyScan.extractComments content)) file)
        as [|ls|e] eqn:Hls; try discriminate.
      destruct (LegacyScan.parseFilesForLinks cwd existsSync parseURL readFileSync net rest)
        as [|rs|e]; try discriminate.
      intros [= <-]. destruct (IH rs eq_refl) as [Hnames Hall].
      pose proof (legacy_checkLinks_urls cwd existsSync parseURL net _ file ls Hls) as Hurls.
      split; [cbn [map Legacy.filename]; now rewrite Hnames|].
      intros r [<- | Hr]; [|now apply Hall].
      cbn [Legacy.links Legacy.filename]. split.
      * intros ->. cbn [map] in Hurls. rewrite <- Hurls in Hlen. discriminate.
      * exists content. split; [exact Hread|]. split; [exact Hurls|].
        now rewrite Hurls.
  - induction files as [|file rest IH]; intros Hreach; [now exists []|].
    cbn [LegacyScan.parseFilesForLinks]. cbv zeta.
    destruct IH as (rs & ->).
    { intros f c l Hf. apply Hreach. now right. }
    destruct (readFileSync file) as [content|] eqn:Hread; [|now exists rs].
    destruct (content =? ""); [now exists rs|].
    destruct (Nat.ltb 0 _); [|now exists rs].
    destruct (legacy_checkLinks_returns cwd existsSync parseURL net
                (LegacyScan.extractLinks (LegacyScan.extractComments content)) file)
      as (ls & ->).
    { intros link Hlink. apply (Hreach file content link); [now left | exact Hread | exact Hlink]. }
    eauto.
Qed.

End ValidatedScan.

(** A file with a relative link and a web address that is answered. *)
Lemma validated_scan_witness :
  exists results,
    LegacyScan.parseFilesForLinks "/repo" (fun _ => true) sample_parseURL
      (sample_checkout "// see https://api.example.com/docs and ../docs/guide.md")
      (fun _ => (Legacy.Answers 120 (Some 200) Legacy.Silent, []))
      ["src/app.js"; "docs/guide.md"]
    = Legacy.Fulfilled results.
Proof.
  refine (proj2 (validated_scan "/repo" (fun _ => true) sample_parseURL
                   (sample_checkout "// see https://api.example.com/docs and ../docs/guide.md")
                   (fun _ => (Legacy.Answers 120 (Some 200) Legacy.Silent, []))
                   ["src/app.js"; "docs/guide.md"]) _).
  intros file content link [<- | [<- | []]] Hread Hlink;
    vm_compute in Hread; injection Hread as <-; vm_compute in Hlink.
  - destruct Hlink as [<- | [<- | [<- | []]]]; intros Hhttp; try discriminate Hhttp.
    split; [right; reflexivity|]. split; [reflexivity | discriminate].
  - destruct Hlink.
Defined.

(** ** The two lists of the report of the validating script *)

Section ReportLists.

Variable targetLine : string -> string.
Variable owner repo sha : string.

Lemma brokenLinkMarkdown_acc (fileLink acc : string) (l : Legacy.Link) :
  Legacy.brokenLinkMarkdown fileLink acc l
  = acc ++ Legacy.brokenLinkMarkdown fileLink "" l.
Proof.
  unfold Legacy.brokenLinkMarkdown. cbv zeta.
  destruct (LinkType_eqb (Legacy.type l) Relative && _);
    destruct (Legacy.statusCode (Legacy.status l)) as [[|n]|];
    try destruct (Legacy.truthy (Legacy.message (Legacy.status l)));
    rewrite !str_app_assoc; reflexivity.
Qed.

Lemma validLinkMarkdown_acc (fileLink acc : string) (l : Legacy.Link) :
  Legacy.validLinkMarkdown targetLine fileLink acc l
  = acc ++ Legacy.validLinkMarkdown targetLine fileLink "" l.
Proof.
  unfold Legacy.validLinkMarkdown. cbv zeta.
  destruct (LinkType_eqb (Legacy.type l) Relative && _);
    rewrite !str_app_assoc; reflexivity.
Qed.

Lemma fold_blocks (f : string -> Legacy.Link -> string) (ls : list Legacy.Link)
  (acc : string) :
  (forall a l, f a l = a ++ f "" l) ->
  fold_left f ls acc = acc ++ fold_right append "" (map (f "") ls).
Proof.
  intros Hf. revert acc. induction ls as [|l ls IH]; intros acc; cbn [fold_left map fold_right].
  - now rewrite app_empty_r.
  - rewrite IH, (Hf acc l), str_app_assoc. reflexivity.
Qed.

Lemma legacy_fold_resultMarkdown (results : list Legacy.FileResult) (acc : string * string) :
  fold_left (Legacy.resultMarkdown targetLine owner repo sha) results acc
  = (fst acc ++ fold_right append "" (brokenBlocks owner repo sha results),
     snd acc ++ fold_right append "" (validBlocks targetLine owner repo sha results)).
Proof.
  revert acc. induction results as [|r rs IH]; intros [b v];
    cbn [fold_left brokenBlocks validBlocks flat_map fold_right fst snd].
  - now rewrite !app_empty_r.
  - rewrite IH. unfold Legacy.resultMarkdown. cbv zeta. cbn [fst snd].
    rewrite (fold_blocks _ _ b (brokenLinkMarkdown_acc _)).
    rewrite (fold_blocks _ _ v (validLinkMarkdown_acc _)).
    rewrite !fold_right_append_app, !str_app_assoc. reflexivity.
Qed.

Lemma broken_block_not_empty (fileLink : string) (l : Legacy.Link) :
  Legacy.brokenLinkMarkdown fileLink "" l <> "".
Proof.
  unfold Legacy.brokenLinkMarkdown. cbv zeta.
  destruct (LinkType_eqb (Legacy.type l) Relative && _);
    destruct (Legacy.statusCode (Legacy.status l)) as [[|n]|];
    try destruct (Legacy.truthy (Legacy.message (Legacy.status l)));
    cbn [append]; discriminate.
Qed.

Lemma valid_block_not_empty (fileLink : string) (l : Legacy.Link) :
  Legacy.validLinkMarkdown targetLine fileLink "" l <> "".
Proof.
  unfold Legacy.validLinkMarkdown. cbv zeta.
  destruct (LinkType_eqb (Legacy.type l) Relative && _); cbn [append]; discriminate.
Qed.

Lemma concat_empty (blocks : list string) :
  (forall b, In b blocks -> b <> "") ->
  (fold_right append "" blocks = "" <-> blocks = []).
Proof.
  intros H. destruct blocks as [|b bs]; cbn [fold_right]; [tauto|].
  split; [|discriminate]. intros E. exfalso. apply (H b); [now left|].
  destruct b; [reflexivity | discriminate].
Qed.

Lemma flat_map_nil {A B} (f : A -> list B) (l : list A) :
  flat_map f l = [] <-> forall x, In x l -> f x = [].
Proof.
  induction l as [|x l IH]; cbn [flat_map].
  - split; [intros _ y [] | reflexivity].
  - split.
    + intros H. apply app_eq_nil in H. destruct H as [Hx Hl].
      intros y [<- | Hy]; [exact Hx | now apply IH].
    + intros H. rewrite (H x (or_introl eq_refl)). apply IH. intros y Hy. apply H. now right.
Qed.

Lemma map_filter_nil {A B} (g : A -> B) (f : A -> bool) (l : list A) :
  map g (filter f l) = [] <-> forall x, In x l -> f x = false.
Proof.
  induction l as [|x l IH]; cbn [filter].
  - split; [intros _ y [] | reflexivity].
  - destruct (f x) eqn:E; cbn [map].
    + split; [discriminate|]. intros H. rewrite (H x (or_introl eq_refl)) in E. discriminate.
    + rewrite IH. split.
      * intros H y [<- | Hy]; [exact E | now apply H].
      * intros H y Hy. apply H. now right.
Qed.

Lemma filter_split_length {A} (f : A -> bool) (l : list A) :
  List.length (filter (fun x => negb (f x)) l) + List.length (filter f l) = List.length l.
Proof.
  induction l as [|x l IH]; [reflexivity|]. cbn [filter].
  destruct (f x); cbn [negb List.length]; lia.
Qed.

Lemma legacy_fold_sum (results : list Legacy.FileResult) (n : nat) :
  fold_left (fun sum r => sum + List.length (Legacy.links r)) results n
  = n + List.length (flat_map Legacy.links results).
Proof.
  revert n. induction results as [|r rs IH]; intros n; cbn [fold_left flat_map].
  - cbn. lia.
  - rewrite IH, length_app. lia.
Qed.

(** X21.  The report of the validating script lists every link once, among
    the broken links when its validation failed and among the links to
    review when it succeeded, in the order of the results: the two lists are
    made of one block of lines for each such link, and their blocks together
    are as many as the count shown.  The list of broken links is empty
    exactly when every link is valid, and the list of links to review
    exactly when none is; the report shows the sentence that says so in
    place of an empty list, and the list itself otherwise. *)
Theorem report_lists (results : list Legacy.FileResult) (template : string) :
  let lists := fold_left (Legacy.resultMarkdown targetLine owner repo sha) results ("", "") in
  Legacy.fillReport targetLine owner repo sha results template
  = Js.replace
      (Js.replace
         (Js.replace template "{{LINK_COUNT}}" (Js.ofNat (Legacy.totalLinks results)))
         "{{BROKEN_LINKS}}" (if fst lists =? "" then no_broken_sentinel else fst lists))
      "{{VALID_LINKS}}" (if snd lists =? "" then no_valid_sentinel else snd lists) /\
  fst lists = fold_right append "" (brokenBlocks owner repo sha results) /\
  snd lists = fold_right append "" (validBlocks targetLine owner repo sha results) /\
  List.length (brokenBlocks owner repo sha results)
  + List.length (validBlocks targetLine owner repo sha results)
  = Legacy.totalLinks results /\
  (fst lists = "" <->
   forall r l, In r results -> In l (Legacy.links r) ->
     Legacy.valid (Legacy.status l) = true) /\
  (snd lists = "" <->
   forall r l, In r results -> In l (Legacy.links r) ->
     Legacy.valid (Legacy.status l) = false).
Proof.
  cbv zeta. split.
  { unfold Legacy.fillReport.
    destruct (fold_left (Legacy.resultMarkdown targetLine owner repo sha) results ("", ""))
      as [b v]. reflexivity. }
  rewrite legacy_fold_resultMarkdown. cbn [fst snd append].
  split; [reflexivity|]. split; [reflexivity|]. split; [|split].
  - unfold Legacy.totalLinks. rewrite legacy_fold_sum. cbn [Nat.add].
    unfold brokenBlocks, validBlocks.
    induction results as [|r rs IH]; [reflexivity|]. cbn [flat_map].
    rewrite !length_app, !length_map.
    pose proof (filter_split_length (fun l => Legacy.valid (Legacy.status l)) (Legacy.links r)).
    lia.
  - rewrite concat_empty.
    + unfold brokenBlocks. rewrite flat_map_nil. split.
      * intros H r l Hr Hl. specialize (H r Hr). rewrite map_filter_nil in H.
        specialize (H l Hl). now apply negb_false_iff in H.
      * intros H r Hr. apply map_filter_nil. intros l Hl.
        apply negb_false_iff. now apply (H r l).
    + intros b Hb. unfold brokenBlocks in Hb. apply in_flat_map in Hb.
      destruct Hb as (r & _ & Hb). apply in_map_iff in Hb. destruct Hb as (l & <- & _).
      apply broken_block_not_empty.
  - rewrite concat_empty.
    + unfold validBlocks. rewrite flat_map_nil. split.
      * intros H r l Hr Hl. specialize (H r Hr). rewrite map_filter_nil in H.
        now apply (H l Hl).
      * intros H r Hr. apply map_filter_nil. intros l Hl. now apply (H r l).
    + intros b Hb. unfold validBlocks in Hb. apply in_flat_map in Hb.
      destruct Hb as (r & _ & Hb). apply in_map_iff in Hb. destruct Hb as (l & <- & _).
      apply valid_block_not_empty.
Qed.

End ReportLists.


(** ** The decision and the outcomes of the validation *)



Section DecisionInRuns.

Variable cwd : string.
Variable existsSync : string -> bool.




End DecisionInRuns.



(** ** Worked runs of check-links.ts *)

Example run_without_links :
  templateNameOf "/repo"
    (parseFilesForLinks (sample_checkout "const answer = 42;") ["src/app.js"])
    ["src/app.js"] = NoLinks.
Proof. vm_compute. reflexivity. Qed.

Example run_all_updated :
  templateNameOf "/repo"
    (parseFilesForLinks (sample_checkout "// see ../docs/guide.md")
       ["src/app.js"; "docs/guide.md"])
    ["src/app.js"; "docs/guide.md"] = AllUpdated.
Proof. vm_compute. reflexivity. Qed.

Example run_pending_absolute :
  templateNameOf "/repo"
    (parseFilesForLinks
       (sample_checkout "// see https://api.example.com/docs and ../docs/guide.md")
       ["src/app.js"; "docs/guide.md"])
    ["src/app.js"; "docs/guide.md"] = Pending.
Proof. vm_compute. reflexivity. Qed.

Example run_pending_stale :
  templateNameOf "/repo"
    (parseFilesForLinks (sample_checkout "// see ../docs/guide.md") ["src/app.js"])
    ["src/app.js"] = Pending.
Proof. vm_compute. reflexivity. Qed.
